(** * Scene model, analysis, hit testing, history and export of the image editor

    A shallow embedding of [src/index.tsx].

    Conventions of the embedding:
    - a JavaScript [number] is a rational ([Q]); integers read from a pixel
      buffer, identities and indices are [Z]. The arithmetic whose rounding
      to binary64 shows in a result (the font-size estimate, the luminance,
      the positions accumulated while dragging) goes through [Double.fl];
      geometry that is only compared against bounds is computed exactly;
    - [Math.round q] is [Qfloor (q + 1/2)];
    - a JavaScript string is a [string]; [s.split('')] is its list of
      characters;
    - an optional field ([f?: T]) is an [option]; [a || d] falls back to [d]
      when [a] is absent or falsy;
    - React state lives in one record; an event handler reads the state of the
      render it was created in and returns the state after its updates;
    - what the browser provides ([Math.cos], [measureText], the rasteriser
      behind [fillRect]/[drawImage]/[fillText], PNG encoding, image decoding)
      is a parameter of the functions that call it. *)

From Stdlib Require Import ZArith QArith Qround Qabs Qminmax Qpower Lqa Lia List String Ascii Bool.
From stdpp Require Import base option gmap strings.
Import ListNotations.
Local Open Scope string_scope.
Local Open Scope list_scope.
Local Open Scope Z_scope.

(* ===================================================================== *)
(** ** Numbers *)

(** [Math.round]: the nearest integer, halves going up. *)
Definition Math_round (q : Q) : Z := Qfloor (q + (1 # 2))%Q.

(** [a > b] and [a < b] on numbers. *)
Definition Qgtb (a b : Q) : bool := negb (Qle_bool a b).
Definition Qltb (a b : Q) : bool := negb (Qle_bool b a).

(** Binary64 arithmetic: every operation returns the representable number
    nearest to the exact result, a tie going to the one with an even
    significand. Numbers beyond the largest finite double, infinities, NaN
    and the sign of zero are outside the model. *)
Module Double.

Definition pow2 (e : Z) : Q := Qpower 2 e.

(** The [e] with [2^e <= a < 2^(e+1)], for a positive [a]. *)
Definition exponent (a : Q) : Z :=
  let e := Z.log2 (Qnum a) - Z.log2 (Zpos (Qden a)) in
  if Qle_bool (pow2 e) a then e else e - 1.

(** The nearest integer, a tie going to the even one. *)
Definition nearest_even (q : Q) : Z :=
  let f := Qfloor q in
  match Qcompare (q - inject_Z f) (1 # 2) with
  | Lt => f
  | Gt => f + 1
  | Eq => if Z.even f then f else f + 1
  end.

(** Rounding to binary64: 53 significant bits above [2^-1022], multiples of
    [2^-1074] below. *)
Definition fl (q : Q) : Q :=
  if Qeq_bool q 0 then 0%Q
  else
    let a := Qabs q in
    let k := Z.max (exponent a - 52) (-1074) in
    let r := Qred (inject_Z (nearest_even (a / pow2 k)) * pow2 k) in
    if Qle_bool 0 q then r else Qopp r.

(** [a + b], [a - b], [a * b] and [a / b] on doubles. *)
Definition add (a b : Q) : Q := fl (a + b).
Definition sub (a b : Q) : Q := fl (a - b).
Definition mul (a b : Q) : Q := fl (a * b).
Definition div (a b : Q) : Q := fl (a / b).

(** A bound on the relative rounding error that is easy to compute with. *)
Definition eps : Q := 1 # 1000000000000000.

End Double.

(* ===================================================================== *)
(** ** Text layout: [wrapTextWithNewlines] *)

Module TextLayout.

Definition newline : ascii := "010"%char.

(** [text.split('\n')]: never empty, keeps empty pieces. *)
Fixpoint split_newline (text : string) : list string :=
  match text with
  | EmptyString => [EmptyString]
  | String c rest =>
      if Ascii.eqb c newline then EmptyString :: split_newline rest
      else match split_newline rest with
           | [] => [String c EmptyString]
           | p :: ps => String c p :: ps
           end
  end.

(** [lines.join('\n')]. *)
Fixpoint join_newline (lines : list string) : string :=
  match lines with
  | [] => EmptyString
  | [l] => l
  | l :: ls => l +:+ String newline (join_newline ls)
  end.

(** [lines.join('')]. *)
Fixpoint join_empty (lines : list string) : string :=
  match lines with
  | [] => EmptyString
  | l :: ls => l +:+ join_empty ls
  end.

(** The text with every line-break character deleted. *)
Fixpoint strip_newlines (text : string) : string :=
  match text with
  | EmptyString => EmptyString
  | String c rest =>
      if Ascii.eqb c newline then strip_newlines rest
      else String c (strip_newlines rest)
  end.

Fixpoint has_newline (s : string) : bool :=
  match s with
  | EmptyString => false
  | String c rest => Ascii.eqb c newline || has_newline rest
  end.

Section Wrap.
(** [ctx.measureText(s).width] under the font the context carries. *)
Variable measureText : string -> Q.
Variable maxWidth : Q.

(** Body of [words.forEach((char) => ...)]; the state is
    [(allLines, currentLine)]. *)
Definition wrap_char (st : list string * string) (char : ascii)
  : list string * string :=
  let '(allLines, currentLine) := st in
  let testLine := currentLine +:+ String char EmptyString in
  if Qgtb (measureText testLine) maxWidth && negb (currentLine =? "")%string
  then (allLines ++ [currentLine], String char EmptyString)
  else (allLines, testLine).

(** Body of [paragraphs.forEach((paragraph) => ...)]. *)
Definition wrap_paragraph (allLines : list string) (paragraph : string)
  : list string :=
  if (paragraph =? "")%string then allLines ++ [""]
  else
    let '(allLines', currentLine) :=
      fold_left wrap_char (list_ascii_of_string paragraph) (allLines, "") in
    if (currentLine =? "")%string then allLines' else allLines' ++ [currentLine].

Definition wrapTextWithNewlines (text : string) : list string :=
  fold_left wrap_paragraph (split_newline text) [].

(** [wrapText] forwards to [wrapTextWithNewlines]. *)
Definition wrapText (text : string) : list string :=
  wrapTextWithNewlines text.

(** [prefixes_fit cur rest]: extending [cur] by the characters of [rest]
    one at a time, every extension of a non-empty line measures at most
    [maxWidth]. *)
Fixpoint prefixes_fit (cur : string) (rest : list ascii) : bool :=
  match rest with
  | [] => true
  | c :: rest' =>
      ((cur =? "")%string || Qle_bool (measureText (cur +:+ String c EmptyString)) maxWidth)
      && prefixes_fit (cur +:+ String c EmptyString) rest'
  end.

(** A line the greedy loop never breaks: every prefix of two or more
    characters measures at most [maxWidth]. *)
Definition unbroken (line : string) : bool :=
  prefixes_fit "" (list_ascii_of_string line).

(** What every line produced by the loop satisfies. *)
Definition settled (line : string) : Prop :=
  unbroken line = true /\ has_newline line = false.
End Wrap.

(** A measurement that never shrinks when a character is appended. *)
Definition monotone_measure (measureText : string -> Q) : Prop :=
  forall (p : string) (c : ascii),
    (measureText p <= measureText (p +:+ String c EmptyString))%Q.

(** Two measurement functions used to exercise the routine: a fixed-pitch
    font in which every character advances 3 units, and the same font with a
    contextual form that makes the pair [ab] 12 units wide unless a further
    character follows. *)
Definition fixed_pitch (s : string) : Q :=
  inject_Z (3 * Z.of_nat (String.length s)).

Definition contextual_pitch (s : string) : Q :=
  if (s =? "ab")%string then inject_Z 12 else fixed_pitch s.

Definition sample_text : string := join_newline ["abc"; "de"; ""; "f"].

End TextLayout.

(* ===================================================================== *)
(** ** Data model *)

Definition MAX_SELECTIONS : Z := 10.

(** A pixel of a [Uint8ClampedArray] raster: four channels in [0, 255]. *)
Record RGBA : Type := mkRGBA { red : Z; green : Z; blue : Z; alpha : Z }.

(** [ImageData], and the decoded raster of an [HTMLImageElement]: rows of
    pixels, row-major. *)
Record ImageData : Type := mkImageData {
  width : Z;
  height : Z;
  data : list RGBA
}.

Inductive SelectionType : Type := text | image_ai | image_replace.
Inductive FontWeight : Type := normal | bold.
Inductive TextAlign : Type := left | center | right.

Definition SelectionType_eqb (a b : SelectionType) : bool :=
  match a, b with
  | text, text | image_ai, image_ai | image_replace, image_replace => true
  | _, _ => false
  end.

Module SelectionArea.
Record t : Type := mk {
  id : Z;
  x : Q;
  y : Q;
  w : Q;
  h : Q;
  type : SelectionType;
  replacementImage : option string;
  imageRotation : option Q;
  imageFlipX : option bool;
  imageFlipY : option bool;
  textColor : option string;
  textBgColor : option string;
  fontSize : option Q;
  fontWeight : option FontWeight;
  textAlign : option TextAlign;
  fontFamily : option string;
  textRotation : option Q;
  autoFitWidth : option bool
}.
End SelectionArea.

Module Sticker.
Record t : Type := mk {
  id : Z;
  src : string;
  x : Q;
  y : Q;
  w : Q;
  h : Q;
  rotation : Q;
  flipX : bool;
  opacity : Q;
  scale : Q
}.
End Sticker.

Module TextSegment.
Record t : Type := mk {
  text : string;
  color : string;
  newLine : option bool
}.
End TextSegment.

Module CustomText.
Record t : Type := mk {
  id : Z;
  segments : list TextSegment.t;
  x : Q;
  y : Q;
  fontSize : Q;
  scale : Q;
  opacity : Q;
  fontWeight : FontWeight;
  rotation : Q;
  fontFamily : option string
}.
End CustomText.

Module HistoryState.
Record t : Type := mk {
  selections : list SelectionArea.t;
  replacements : gmap Z string;
  stickers : list Sticker.t;
  customTexts : list CustomText.t
}.
End HistoryState.

(** Truthiness of the optional values the code tests with [||], [&&], [if]. *)
Definition truthy_string (s : option string) : bool :=
  match s with Some v => negb (v =? "")%string | None => false end.
Definition truthy_number (q : option Q) : bool :=
  match q with Some v => negb (Qeq_bool v 0) | None => false end.
Definition truthy_bool (b : option bool) : bool :=
  match b with Some v => v | None => false end.

(** [s || d] on strings and [q || d] on numbers. *)
Definition string_or (s : option string) (d : string) : string :=
  match s with Some v => if (v =? "")%string then d else v | None => d end.
Definition number_or (q : option Q) (d : Q) : Q :=
  match q with Some v => if Qeq_bool v 0 then d else v | None => d end.

(** [replacements[id] || ''] *)
Definition replacement_of (replacements : gmap Z string) (id : Z) : string :=
  string_or (replacements !! id) "".

(** The pixel source behind [originalCanvasRef.current]: its size, and what
    [ctx.getImageData(px, py, 1, 1).data] yields ([None] when the call
    throws). *)
Record OriginalCanvas : Type := mkOriginalCanvas {
  canvasWidth : Z;
  canvasHeight : Z;
  getImageData : Z -> Z -> option RGBA
}.

(* ===================================================================== *)
(** ** Application state *)

Module App.

(** The state of the [App] component: React state, then the refs.
    [canvasRef] holds the size of the live canvas. The two image maps hold
    the decoded rasters of images that finished loading: an entry is only
    ever added from the image's [onload]. *)
Record state : Type := mk {
  selections : list SelectionArea.t;
  replacements : gmap Z string;
  stickers : list Sticker.t;
  customTexts : list CustomText.t;
  history : list HistoryState.t;
  historyIndex : Z;
  drawMode : SelectionType;
  autoAnalyzeEnabled : bool;
  manualKey : string;
  originalImageData : option ImageData;
  (* refs *)
  canvasRef : option (Z * Z);
  originalCanvasRef : option OriginalCanvas;
  isDrawing : bool;
  isMoving : bool;
  startPos : Q * Q;
  stickerImagesRef : gmap Z ImageData;
  replacementImagesRef : gmap Z ImageData
}.

(** The state of the first render. *)
Definition initial : state := {|
  selections := []; replacements := ∅; stickers := []; customTexts := [];
  history := []; historyIndex := -1;
  drawMode := text; autoAnalyzeEnabled := true; manualKey := "";
  originalImageData := None;
  canvasRef := None; originalCanvasRef := None;
  isDrawing := false; isMoving := false; startPos := (0%Q, 0%Q);
  stickerImagesRef := ∅; replacementImagesRef := ∅
|}.

(** [setSelections]/[setReplacements]/[setStickers]/[setCustomTexts] taken
    together. *)
Definition set_scene (scene : HistoryState.t) (st : state) : state := {|
  selections := HistoryState.selections scene;
  replacements := HistoryState.replacements scene;
  stickers := HistoryState.stickers scene;
  customTexts := HistoryState.customTexts scene;
  history := history st; historyIndex := historyIndex st;
  drawMode := drawMode st; autoAnalyzeEnabled := autoAnalyzeEnabled st;
  manualKey := manualKey st; originalImageData := originalImageData st;
  canvasRef := canvasRef st; originalCanvasRef := originalCanvasRef st;
  isDrawing := isDrawing st; isMoving := isMoving st; startPos := startPos st;
  stickerImagesRef := stickerImagesRef st;
  replacementImagesRef := replacementImagesRef st
|}.

(** [setHistory] and [setHistoryIndex]. *)
Definition set_history (h : list HistoryState.t) (i : Z) (st : state) : state := {|
  selections := selections st; replacements := replacements st;
  stickers := stickers st; customTexts := customTexts st;
  history := h; historyIndex := i;
  drawMode := drawMode st; autoAnalyzeEnabled := autoAnalyzeEnabled st;
  manualKey := manualKey st; originalImageData := originalImageData st;
  canvasRef := canvasRef st; originalCanvasRef := originalCanvasRef st;
  isDrawing := isDrawing st; isMoving := isMoving st; startPos := startPos st;
  stickerImagesRef := stickerImagesRef st;
  replacementImagesRef := replacementImagesRef st
|}.

(** Assignments to [isDrawing.current] and [isMoving.current]. *)
Definition set_pointer_flags (drawing moving : bool) (st : state) : state := {|
  selections := selections st; replacements := replacements st;
  stickers := stickers st; customTexts := customTexts st;
  history := history st; historyIndex := historyIndex st;
  drawMode := drawMode st; autoAnalyzeEnabled := autoAnalyzeEnabled st;
  manualKey := manualKey st; originalImageData := originalImageData st;
  canvasRef := canvasRef st; originalCanvasRef := originalCanvasRef st;
  isDrawing := drawing; isMoving := moving; startPos := startPos st;
  stickerImagesRef := stickerImagesRef st;
  replacementImagesRef := replacementImagesRef st
|}.

(** The scene a render sees, as [addToHistory] copies it. *)
Definition scene_of (st : state) : HistoryState.t := {|
  HistoryState.selections := selections st;
  HistoryState.replacements := replacements st;
  HistoryState.stickers := stickers st;
  HistoryState.customTexts := customTexts st
|}.

End App.

(* ===================================================================== *)
(** ** History: [addToHistory], [undo], [redo] *)

Module History.
Import App.

(** [arr.slice(0, e)] for an integer [e]: a negative [e] counts from the
    end. *)
Definition slice0 {A : Type} (arr : list A) (e : Z) : list A :=
  let n := Z.of_nat (length arr) in
  let e' := if e <? 0 then Z.max (n + e) 0 else Z.min e n in
  firstn (Z.to_nat e') arr.

(** [arr[i]] for an integer [i]. *)
Definition index {A : Type} (arr : list A) (i : Z) : option A :=
  if i <? 0 then None else nth_error arr (Z.to_nat i).

Definition addToHistory (st : state) : state :=
  let newState := scene_of st in
  let newHistory := slice0 (history st) (historyIndex st + 1) ++ [newState] in
  set_history newHistory (Z.of_nat (length newHistory) - 1) st.

(** When [history[newIndex]] is [undefined] the read of [state.selections]
    throws before any setter runs, and the state stays as it was. *)
Definition undo (st : state) : state :=
  if 0 <? historyIndex st then
    let newIndex := historyIndex st - 1 in
    match index (history st) newIndex with
    | Some state => set_history (history st) newIndex (set_scene state st)
    | None => st
    end
  else st.

Definition redo (st : state) : state :=
  if historyIndex st <? Z.of_nat (length (history st)) - 1 then
    let newIndex := historyIndex st + 1 in
    match index (history st) newIndex with
    | Some state => set_history (history st) newIndex (set_scene state st)
    | None => st
    end
  else st.

(** Loading a new source raster clears the scene and the history. *)
Definition reset (st : state) : state :=
  set_history [] (-1)
    (set_scene (HistoryState.mk [] ∅ [] []) st).

(** [addToHistory] called from a callback that was created in an earlier
    render [old] (an upload whose image finished loading later): the
    closure computes the new history from the state of [old], and the two
    setters install it in the current state. *)
Definition commit_from (old st : state) : state :=
  let committed := addToHistory old in
  set_history (history committed) (historyIndex committed) st.

(** What can happen to the scene and the history between two renders. *)
Inductive event : Type :=
| Edit (scene : HistoryState.t)
| Commit
| CommitFrom (old : state)
| Undo
| Redo
| Load.

Definition step (st : state) (e : event) : state :=
  match e with
  | Edit scene => set_scene scene st
  | Commit => addToHistory st
  | CommitFrom old => commit_from old st
  | Undo => undo st
  | Redo => redo st
  | Load => reset st
  end.

Definition run (events : list event) (st : state) : state :=
  fold_left step events st.

(** The cursor is [-1] on an empty history and a valid index otherwise. *)
Definition cursor_ok (st : state) : Prop :=
  (historyIndex st = -1 /\ history st = [])
  \/ (0 <= historyIndex st < Z.of_nat (length (history st))).

(** Four scenes that differ in their replacement values only. *)
Definition labelled_scene (label : string) : HistoryState.t :=
  HistoryState.mk [] (<[ 1 := label ]> ∅) [] [].

Definition three_commits : state :=
  set_history [labelled_scene "A"; labelled_scene "B"; labelled_scene "C"] 2
    (set_scene (labelled_scene "C") initial).

End History.

(* ===================================================================== *)
(** ** Colour utilities *)

(** What the analysis and the hit test take from [Math]. *)
Record MathLib : Type := mkMathLib {
  Math_cos : Q -> Q;
  Math_sin : Q -> Q;
  Math_PI : Q
}.

Module Color.

Definition lower_digits : string := "0123456789abcdef".
Definition upper_digits : string := "0123456789ABCDEF".

(** The digit [toString(16)] writes for a value below 16. *)
Definition hex_digit (n : Z) : ascii :=
  match String.get (Z.to_nat n) lower_digits with
  | Some c => c
  | None => "f"%char
  end.

(** [Math.min(255, Math.max(0, x)).toString(16).padStart(2, '0')] on an
    integer [x]. *)
Definition channel_hex (x : Z) : string :=
  let v := Z.min 255 (Z.max 0 x) in
  String (hex_digit (v / 16)) (String (hex_digit (v mod 16)) EmptyString).

Definition rgbToHex (r g b : Z) : string :=
  String "#"%char (channel_hex r +:+ channel_hex g +:+ channel_hex b).

(** Where a character stands in a string of digits, counting from [i]. *)
Fixpoint position (c : ascii) (digits : string) (i : Z) : option Z :=
  match digits with
  | EmptyString => None
  | String d rest => if Ascii.eqb c d then Some i else position c rest (i + 1)
  end.

(** The value of a character matched by [[a-f\d]] under the [i] flag. *)
Definition hex_value (c : ascii) : option Z :=
  match position c lower_digits 0 with
  | Some v => Some v
  | None => position c upper_digits 0
  end.

(** [parseInt(pair, 16)] on a matched pair. *)
Definition hex_pair (c1 c2 : ascii) : option Z :=
  match hex_value c1, hex_value c2 with
  | Some a, Some b => Some (16 * a + b)
  | _, _ => None
  end.

Record rgb : Type := mkRgb { r : Z; g : Z; b : Z }.

(** [/^#?([a-f\d]{2})([a-f\d]{2})([a-f\d]{2})$/i] followed by the three
    [parseInt]s; [None] is [null]. *)
Definition hexToRgb (hex : string) : option rgb :=
  let body :=
    match hex with
    | String "#"%char rest => rest
    | _ => hex
    end in
  match body with
  | String c1 (String c2 (String c3 (String c4 (String c5 (String c6 EmptyString))))) =>
      match hex_pair c1 c2, hex_pair c3 c4, hex_pair c5 c6 with
      | Some r, Some g, Some b => Some (mkRgb r g b)
      | _, _, _ => None
      end
  | _ => None
  end.

(** [(0.299 * r + 0.587 * g + 0.114 * b) / 255] as the engine evaluates it:
    the three literals are doubles and each operation rounds. *)
Definition getLuminance (r g b : Z) : Q :=
  Double.div
    (Double.add
       (Double.add (Double.mul (Double.fl (299 # 1000)) (inject_Z r))
                   (Double.mul (Double.fl (587 # 1000)) (inject_Z g)))
       (Double.mul (Double.fl (114 # 1000)) (inject_Z b)))
    255.

End Color.

(* ===================================================================== *)
(** ** Colour analysis *)

Module Analyzer.
Import Color.

Record analysis : Type := mkAnalysis {
  bgColor : string;
  textColor : string;
  fontSize : Z
}.

(** One pass of a sampling loop: read the pixel under the rounded point and
    push its three colour channels, or skip the point when the read throws. *)
Definition sample (ctx : OriginalCanvas) (samples : list (Z * Z * Z))
    (point : Q * Q) : list (Z * Z * Z) :=
  match getImageData ctx (Math_round (fst point)) (Math_round (snd point)) with
  | Some pixel => samples ++ [(red pixel, green pixel, blue pixel)]
  | None => samples
  end.

(** [Math.round(samples.reduce((sum, p) => sum + p[i], 0) / samples.length)] *)
Definition average (channel : Z * Z * Z -> Z) (samples : list (Z * Z * Z)) : Z :=
  let total := fold_left (fun sum p => sum + channel p) samples 0 in
  Math_round (inject_Z total / inject_Z (Z.of_nat (length samples)))%Q.

Definition average_color (samples : list (Z * Z * Z)) : string :=
  rgbToHex (average (fun p => fst (fst p)) samples)
           (average (fun p => snd (fst p)) samples)
           (average (fun p => snd p) samples).

Definition detectBackgroundColorFast (ctx : OriginalCanvas) (x y w h : Q) : string :=
  let points := [
    (x + 2, y + 2);
    (x + w - 2, y + 2);
    (x + 2, y + h - 2);
    (x + w - 2, y + h - 2);
    (x + w / 2, y + 2);
    (x + w / 2, y + h - 2);
    (x + 2, y + h / 2);
    (x + w - 2, y + h / 2)
  ]%Q in
  let samples := fold_left (sample ctx) points [] in
  match samples with
  | [] => "#ffffff"
  | _ => average_color samples
  end.

(** The five points of the circle of radius [min(w, h) / 4] around the
    centre. *)
Definition circle_points (M : MathLib) (x y w h : Q) : list (Q * Q) :=
  let centerX := (x + w / 2)%Q in
  let centerY := (y + h / 2)%Q in
  let sampleRadius := (Qmin w h / 4)%Q in
  map (fun i : Z =>
         let angle := ((inject_Z i / 5) * Math_PI M * 2)%Q in
         ((centerX + Math_cos M angle * sampleRadius)%Q,
          (centerY + Math_sin M angle * sampleRadius)%Q))
      [0; 1; 2; 3; 4].

(** Body of [samples.forEach(([r, g, b]) => ...)]; the state is
    [(maxDiff, bestColor)]. *)
Definition contrast_step (bgRgb : rgb) (st : Z * string) (p : Z * Z * Z)
  : Z * string :=
  let '(maxDiff, bestColor) := st in
  let '(r0, g0, b0) := p in
  let diff := Z.abs (r0 - r bgRgb) + Z.abs (g0 - g bgRgb) + Z.abs (b0 - b bgRgb) in
  if maxDiff <? diff then (diff, rgbToHex r0 g0 b0) else (maxDiff, bestColor).

Definition detectTextColorFast (M : MathLib) (ctx : OriginalCanvas)
    (x y w h : Q) (bgColor : string) : string :=
  match hexToRgb bgColor with
  | None => "#000000"
  | Some bgRgb =>
      let samples := fold_left (sample ctx) (circle_points M x y w h) [] in
      let '(maxDiff, bestColor) :=
        fold_left (contrast_step bgRgb) samples (0, "#000000") in
      if maxDiff <? 100 then
        let bgLuminance := getLuminance (r bgRgb) (g bgRgb) (b bgRgb) in
        if Qgtb bgLuminance (1 # 2) then "#000000" else "#ffffff"
      else bestColor
  end.

Definition analyzeTextAreaFast (M : MathLib) (canvas : option OriginalCanvas)
    (x y w h : Q) : analysis :=
  match canvas with
  | None =>
      mkAnalysis "#ffffff" "#000000" (Math_round (Double.mul h (Double.fl (7 # 10))))
  | Some ctx =>
      let safeX := Z.max 0 (Z.min (Math_round x) (canvasWidth ctx - 1)) in
      let safeY := Z.max 0 (Z.min (Math_round y) (canvasHeight ctx - 1)) in
      let safeW := Z.min (Math_round w) (canvasWidth ctx - safeX) in
      let safeH := Z.min (Math_round h) (canvasHeight ctx - safeY) in
      if (safeW <=? 0) || (safeH <=? 0) then
        mkAnalysis "#ffffff" "#000000"
          (Math_round (Double.mul h (Double.fl (7 # 10))))
      else
        let bgColor :=
          detectBackgroundColorFast ctx (inject_Z safeX) (inject_Z safeY)
            (inject_Z safeW) (inject_Z safeH) in
        let textColor :=
          detectTextColorFast M ctx (inject_Z safeX) (inject_Z safeY)
            (inject_Z safeW) (inject_Z safeH) bgColor in
        let fontSize :=
          Math_round (Double.mul (inject_Z safeH) (Double.fl (7 # 10))) in
        mkAnalysis bgColor textColor (Z.max 12 (Z.min 200 fontSize))
  end.

(** Body of the bounds-checked sampling loop of [detectSurroundingColor]. *)
Definition sample_inside (ctx : OriginalCanvas) (samples : list (Z * Z * Z))
    (point : Q * Q) : list (Z * Z * Z) :=
  let '(px, py) := point in
  if Qle_bool 0 px && Qltb px (inject_Z (canvasWidth ctx))
     && Qle_bool 0 py && Qltb py (inject_Z (canvasHeight ctx))
  then sample ctx samples point
  else samples.

Definition detectSurroundingColor (canvas : option OriginalCanvas)
    (x y w h : Q) : string :=
  match canvas with
  | None => "#ffffff"
  | Some ctx =>
      let margin := 10%Q in
      let points := [
        (x - margin, y + h / 2);
        (x + w + margin, y + h / 2);
        (x + w / 2, y - margin);
        (x + w / 2, y + h + margin)
      ]%Q in
      let samples := fold_left (sample_inside ctx) points [] in
      match samples with
      | [] => "#ffffff"
      | _ => average_color samples
      end
  end.

(** The clamp the specification writes as [clamp(v, 12, 200)]. *)
Definition clamp (v lo hi : Z) : Z := Z.max lo (Z.min hi v).

(** A rectangle lying inside a raster of the given size. *)
Definition inside_raster (ctx : OriginalCanvas) (x y w h : Q) : Prop :=
  (0 <= x /\ 0 <= y /\ x + w <= inject_Z (canvasWidth ctx)
   /\ y + h <= inject_Z (canvasHeight ctx))%Q.

(** [clamp(round(0.7 * H), 12, 200)] in exact arithmetic, and the heights
    within the range of the clamp at which the product in doubles falls just
    below a half that the exact product reaches. *)
Definition exact_font_size (H : Z) : Z :=
  clamp (Math_round (inject_Z H * (7 # 10))) 12 200.

Definition short_heights : list Z := [45; 85; 165; 175].

(** Every pixel of the raster has the colour [c]. *)
Definition solid (ctx : OriginalCanvas) (c : RGBA) : Prop :=
  forall px py : Z,
    0 <= px < canvasWidth ctx -> 0 <= py < canvasHeight ctx ->
    getImageData ctx px py = Some c.

(** A raster of one colour; a read outside the raster yields transparent
    black. *)
Definition uniform_canvas (cw ch : Z) (c : RGBA) : OriginalCanvas :=
  mkOriginalCanvas cw ch
    (fun px py =>
       if (0 <=? px) && (px <? cw) && (0 <=? py) && (py <? ch)
       then Some c else Some (mkRGBA 0 0 0 0)).

(** A stand-in for [Math] with [PI] cut to 3.1416 and the two functions
    replaced by their second-order expansions at 0. *)
Definition coarse_math : MathLib :=
  mkMathLib (fun a => 1 - a * a / 2)%Q (fun a => a)%Q (31416 # 10000).

Definition white : RGBA := mkRGBA 255 255 255 255.
Definition navy : RGBA := mkRGBA 0 0 128 255.
Definition orchid : RGBA := mkRGBA 218 58 248 255.

End Analyzer.

(* ===================================================================== *)
(** ** Hit testing of selection regions ([onMouseDown], third pass) *)

Module HitTest.

(** Body of the loop over [selections]: is the pointer [(px, py)] inside
    the region once the region's rotation is undone? *)
Definition hit_selection (M : MathLib) (px py : Q) (sel : SelectionArea.t) : bool :=
  let centerX := (SelectionArea.x sel + SelectionArea.w sel / 2)%Q in
  let centerY := (SelectionArea.y sel + SelectionArea.h sel / 2)%Q in
  let dx := (px - centerX)%Q in
  let dy := (py - centerY)%Q in
  let rotation :=
    if SelectionType_eqb (SelectionArea.type sel) text
       && truthy_number (SelectionArea.textRotation sel)
    then number_or (SelectionArea.textRotation sel) 0
    else 0%Q in
  let rad := ((- rotation * Math_PI M) / 180)%Q in
  let cos := Math_cos M rad in
  let sin := Math_sin M rad in
  let rx := (dx * cos - dy * sin)%Q in
  let ry := (dx * sin + dy * cos)%Q in
  Qle_bool (- SelectionArea.w sel / 2) rx && Qle_bool rx (SelectionArea.w sel / 2)
  && Qle_bool (- SelectionArea.h sel / 2) ry && Qle_bool ry (SelectionArea.h sel / 2).

(** [clickedSelection]: the loop runs from the last region to the first and
    stops at the first hit. *)
Definition clickedSelection (M : MathLib) (px py : Q)
    (selections : list SelectionArea.t) : option SelectionArea.t :=
  find (hit_selection M px py) (rev selections).

(** A text region of the given rectangle, rotated by [rotation] degrees. *)
Definition rotated_text_region (id : Z) (x y w h rotation : Q) : SelectionArea.t :=
  SelectionArea.mk id x y w h text None None None None
    (Some "#000000") (Some "#ffffff") (Some 32%Q) (Some normal) (Some center)
    (Some "Noto Sans KR") (Some rotation) None.

End HitTest.

(* ===================================================================== *)
(** ** Creating a region ([onMouseUp]) *)

Module Pointer.
Import App.

(** The region [onMouseUp] builds from the drag rectangle. *)
Definition newSelection (M : MathLib) (st : state)
    (newId : Z) (startX startY width height : Q) : SelectionArea.t :=
  let '(bgColor, textColor, fontSize) :=
    if autoAnalyzeEnabled st then
      match drawMode st with
      | text =>
          let analysis :=
            Analyzer.analyzeTextAreaFast M (originalCanvasRef st)
              startX startY width height in
          (Analyzer.bgColor analysis, Analyzer.textColor analysis,
           inject_Z (Analyzer.fontSize analysis))
      | image_replace =>
          (Analyzer.detectSurroundingColor (originalCanvasRef st)
             startX startY width height, "#000000", 32%Q)
      | image_ai => ("#ffffff", "#000000", 32%Q)
      end
    else ("#ffffff", "#000000", 32%Q) in
  {| SelectionArea.id := newId;
     SelectionArea.x := startX;
     SelectionArea.y := startY;
     SelectionArea.w := width;
     SelectionArea.h := height;
     SelectionArea.type := drawMode st;
     SelectionArea.replacementImage := None;
     SelectionArea.imageRotation := None;
     SelectionArea.imageFlipX := None;
     SelectionArea.imageFlipY := None;
     SelectionArea.textColor := Some textColor;
     SelectionArea.textBgColor := Some bgColor;
     SelectionArea.fontSize := Some fontSize;
     SelectionArea.fontWeight := Some normal;
     SelectionArea.textAlign := Some center;
     SelectionArea.fontFamily := Some "Noto Sans KR";
     SelectionArea.textRotation := None;
     SelectionArea.autoFitWidth := None |}.

(** The admission test of [onMouseUp]. *)
Definition admits (st : state) (width height : Q) : bool :=
  Qgtb width 10 && Qgtb height 10
  && (Z.of_nat (length (selections st)) <? MAX_SELECTIONS).

(** [onMouseUp] for a pointer released at [(x, y)] in canvas coordinates,
    with [now] the value of [Date.now()].

    [setSelections] receives an updater and appends to the latest list;
    [addToHistory] is the closure of the current render, so the snapshot it
    pushes holds the scene as it was before the new region. *)
Definition onMouseUp (M : MathLib) (st : state) (x y : Q) (now : Z) : state :=
  if isMoving st then set_pointer_flags (isDrawing st) false st
  else if isDrawing st then
    let startX := Qmin (fst (startPos st)) x in
    let startY := Qmin (snd (startPos st)) y in
    let width := Qabs (x - fst (startPos st)) in
    let height := Qabs (y - snd (startPos st)) in
    let st' :=
      if admits st width height then
        let created := newSelection M st now startX startY width height in
        let committed := History.addToHistory st in
        set_history (history committed) (historyIndex committed)
          (set_scene
             (HistoryState.mk (selections st ++ [created]) (replacements st)
                (stickers st) (customTexts st))
             st)
      else st in
    set_pointer_flags false (isMoving st') st'
  else st.

(** A region of the given kind and rectangle with the defaults of
    [onMouseUp]. *)
Definition plain_region (kind : SelectionType) (id : Z) (x y w h : Q)
  : SelectionArea.t :=
  SelectionArea.mk id x y w h kind None None None None
    (Some "#000000") (Some "#ffffff") (Some 32%Q) (Some normal) (Some center)
    (Some "Noto Sans KR") None None.

(** A render with ten regions, one commit and a drag under way from the
    origin. *)
Definition full_house : state := {|
  selections :=
    map (fun i => plain_region text i (inject_Z (20 * i)) 0 15 15)
        [1; 2; 3; 4; 5; 6; 7; 8; 9; 10];
  replacements := ∅; stickers := []; customTexts := [];
  history := [HistoryState.mk [] ∅ [] []]; historyIndex := 0;
  drawMode := text; autoAnalyzeEnabled := true; manualKey := "";
  originalImageData := None;
  canvasRef := Some (400, 300); originalCanvasRef := None;
  isDrawing := true; isMoving := false; startPos := (0%Q, 100%Q);
  stickerImagesRef := ∅; replacementImagesRef := ∅
|}.

End Pointer.

(* ===================================================================== *)
(** ** The 2D drawing context *)

Module Canvas.

(** The current transformation matrix, in the order the canvas API names
    its entries. *)
Record Transform : Type := mkTransform {
  ma : Q; mb : Q; mc : Q; md : Q; me : Q; mf : Q
}.

Definition identity : Transform := mkTransform 1 0 0 1 0 0.

Record Font : Type := mkFont {
  weight : FontWeight;
  sizePx : Q;
  family : string
}.

Inductive Baseline : Type := alphabetic | middle.
Inductive Align : Type := align_start | align (a : TextAlign).

(** The drawing state that [save] pushes and [restore] pops. *)
Record DrawState : Type := mkDrawState {
  transform : Transform;
  fillStyle : string;
  font : Font;
  textAlign : Align;
  textBaseline : Baseline;
  globalAlpha : Q
}.

Definition default_state : DrawState :=
  mkDrawState identity "#000000" (mkFont normal 10 "sans-serif")
    align_start alphabetic 1.

(** What the browser contributes to drawing: the mathematics library, text
    metrics, the colour parser, the three rasterising primitives (each maps
    the bitmap to the bitmap after the call, under the drawing state of the
    call), and the loading of a [data:] URL into an image ([None] when the
    image never loads). *)
Record Browser : Type := mkBrowser {
  math : MathLib;
  measureText : Font -> string -> Q;
  cssColor : string -> option RGBA;
  paintRect : DrawState -> Q -> Q -> Q -> Q -> ImageData -> ImageData;
  paintText : DrawState -> string -> Q -> Q -> ImageData -> ImageData;
  paintImage : DrawState -> ImageData -> Q -> Q -> Q -> Q -> ImageData -> ImageData;
  encodePNG : ImageData -> string;
  loadImage : string -> string -> option ImageData
}.

(** A canvas with its context. *)
Record Context : Type := mkContext {
  bitmap : ImageData;
  current : DrawState;
  saved : list DrawState
}.

Definition transparent : RGBA := mkRGBA 0 0 0 0.

(** The bitmap of [w] x [h] pixels whose pixel in column [i] of row [j] is
    [f i j]. *)
Definition generate (w h : Z) (f : Z -> Z -> RGBA) : ImageData :=
  mkImageData w h
    (map (fun k => f (Z.of_nat k mod w) (Z.of_nat k / w))
         (seq 0 (Z.to_nat (w * h)))).

Definition pixel_at (img : ImageData) (i j : Z) : option RGBA :=
  if (0 <=? i) && (i <? width img) && (0 <=? j) && (j <? height img)
  then nth_error (data img) (Z.to_nat (j * width img + i))
  else None.

(** [document.createElement('canvas')] with its size set. *)
Definition createCanvas (w h : Z) : Context :=
  mkContext (generate w h (fun _ _ => transparent)) default_state [].

(** [ctx.putImageData(source, 0, 0)]: the pixels of [source] replace those
    under them, whatever the drawing state. *)
Definition putImageData (source : ImageData) (ctx : Context) : Context :=
  let target := bitmap ctx in
  mkContext
    (generate (width target) (height target)
       (fun i j =>
          match pixel_at source i j with
          | Some p => p
          | None => default transparent (pixel_at target i j)
          end))
    (current ctx) (saved ctx).

Definition with_state (f : DrawState -> DrawState) (ctx : Context) : Context :=
  mkContext (bitmap ctx) (f (current ctx)) (saved ctx).

Definition save (ctx : Context) : Context :=
  mkContext (bitmap ctx) (current ctx) (current ctx :: saved ctx).

Definition restore (ctx : Context) : Context :=
  match saved ctx with
  | [] => ctx
  | top :: rest => mkContext (bitmap ctx) top rest
  end.

Definition set_transform (t : Transform) (d : DrawState) : DrawState :=
  mkDrawState t (fillStyle d) (font d) (textAlign d) (textBaseline d)
    (globalAlpha d).

Definition translate (x y : Q) : Context -> Context :=
  with_state (fun d =>
    let t := transform d in
    set_transform
      (mkTransform (ma t) (mb t) (mc t) (md t)
         (ma t * x + mc t * y + me t) (mb t * x + md t * y + mf t))%Q d).

Definition rotate (B : Browser) (angle : Q) : Context -> Context :=
  with_state (fun d =>
    let t := transform d in
    let cos := Math_cos (math B) angle in
    let sin := Math_sin (math B) angle in
    set_transform
      (mkTransform (ma t * cos + mc t * sin) (mb t * cos + md t * sin)
         (mc t * cos - ma t * sin) (md t * cos - mb t * sin)
         (me t) (mf t))%Q d).

Definition scale (sx sy : Q) : Context -> Context :=
  with_state (fun d =>
    let t := transform d in
    set_transform
      (mkTransform (ma t * sx) (mb t * sx) (mc t * sy) (md t * sy)
         (me t) (mf t))%Q d).

(** [ctx.fillStyle = v]: a string the browser cannot parse is ignored. *)
Definition set_fillStyle (B : Browser) (v : string) : Context -> Context :=
  with_state (fun d =>
    match cssColor B v with
    | Some _ =>
        mkDrawState (transform d) v (font d) (textAlign d) (textBaseline d)
          (globalAlpha d)
    | None => d
    end).

Definition set_font (v : Font) : Context -> Context :=
  with_state (fun d =>
    mkDrawState (transform d) (fillStyle d) v (textAlign d) (textBaseline d)
      (globalAlpha d)).

Definition set_textAlign (v : TextAlign) : Context -> Context :=
  with_state (fun d =>
    mkDrawState (transform d) (fillStyle d) (font d) (align v)
      (textBaseline d) (globalAlpha d)).

Definition set_textBaseline (v : Baseline) : Context -> Context :=
  with_state (fun d =>
    mkDrawState (transform d) (fillStyle d) (font d) (textAlign d) v
      (globalAlpha d)).

(** [ctx.globalAlpha = v]: a value outside [0, 1] is ignored. *)
Definition set_globalAlpha (v : Q) : Context -> Context :=
  with_state (fun d =>
    if Qle_bool 0 v && Qle_bool v 1 then
      mkDrawState (transform d) (fillStyle d) (font d) (textAlign d)
        (textBaseline d) v
    else d).

Definition fillRect (B : Browser) (x y w h : Q) (ctx : Context) : Context :=
  mkContext (paintRect B (current ctx) x y w h (bitmap ctx))
    (current ctx) (saved ctx).

Definition fillText (B : Browser) (s : string) (x y : Q) (ctx : Context) : Context :=
  mkContext (paintText B (current ctx) s x y (bitmap ctx))
    (current ctx) (saved ctx).

Definition drawImage (B : Browser) (img : ImageData) (x y w h : Q)
    (ctx : Context) : Context :=
  mkContext (paintImage B (current ctx) img x y w h (bitmap ctx))
    (current ctx) (saved ctx).

(** [canvas.toDataURL('image/png')]. *)
Definition toDataURL (B : Browser) (ctx : Context) : string :=
  encodePNG B (bitmap ctx).

End Canvas.

(* ===================================================================== *)
(** ** Export ([handleRestore]) *)

Module Restore.
Import Canvas.

(** How an awaited call ends. *)
Inductive completion (A : Type) : Type :=
| Returns (a : A)
| Throws.
Arguments Returns {A} a.
Arguments Throws {A}.

(** A part of the model's answer; [inlineData] holds the mime type and the
    base64 payload. *)
Record Part : Type := mkPart {
  inlineData : option (string * string)
}.

(** [response.candidates?.[0]?.content?.parts] *)
Record Response : Type := mkResponse {
  parts : option (list Part)
}.

(** What [generateContent] is sent: the key the client was built with, the
    PNG of the composite so far, and the rectangle and prompt the text part
    spells out. *)
Record Request : Type := mkRequest {
  apiKey : string;
  image : string;
  region : Q * Q * Q * Q;
  prompt : string
}.

(** What lies outside the component: the stored credential, the optional
    [window.aistudio.getSelectedApiKey], and the generation service. *)
Record Env : Type := mkEnv {
  localStorage_key : option string;
  aistudio : option (completion (option string));
  generateContent : Request -> completion Response
}.

(** How [handleRestore] ends: it returns before drawing, it sets
    [resultImage] to the PNG of a bitmap, or it waits for ever on an image
    that never loads. *)
Inductive outcome : Type :=
| NotStarted
| Exported (result : ImageData)
| Pending.

Section WithBrowser.
Variable B : Browser.

(** The rotation the code applies when the angle is present and non-zero. *)
Definition rotate_degrees (degrees : option Q) (ctx : Context) : Context :=
  if truthy_number degrees
  then rotate B (number_or degrees 0 * Math_PI (math B) / 180)%Q ctx
  else ctx.

Definition selection_font (sel : SelectionArea.t) : Font :=
  mkFont (default normal (SelectionArea.fontWeight sel))
    (number_or (SelectionArea.fontSize sel) 32)
    (string_or (SelectionArea.fontFamily sel) "Noto Sans KR").

(** Body of [lines.forEach((line) => ...)]; the state is the context and
    [startY]. *)
Definition draw_line (sel : SelectionArea.t) (lineHeight : Q)
    (st : Context * Q) (line : string) : Context * Q :=
  let '(ctx, startY) := st in
  let textX :=
    match SelectionArea.textAlign sel with
    | Some left => (- SelectionArea.w sel / 2 + 2)%Q
    | Some right => (SelectionArea.w sel / 2 - 2)%Q
    | _ => 0%Q
    end in
  (fillText B line textX startY ctx, (startY + lineHeight)%Q).

(** Body of [for (const sel of textSelections)]. *)
Definition restore_text (replacements : gmap Z string) (ctx : Context)
    (sel : SelectionArea.t) : Context :=
  let newText := replacement_of replacements (SelectionArea.id sel) in
  let ctx := save ctx in
  let centerX := (SelectionArea.x sel + SelectionArea.w sel / 2)%Q in
  let centerY := (SelectionArea.y sel + SelectionArea.h sel / 2)%Q in
  let ctx := translate centerX centerY ctx in
  let ctx := rotate_degrees (SelectionArea.textRotation sel) ctx in
  let ctx := set_fillStyle B (string_or (SelectionArea.textBgColor sel) "#ffffff") ctx in
  let ctx :=
    fillRect B (- SelectionArea.w sel / 2) (- SelectionArea.h sel / 2)
      (SelectionArea.w sel) (SelectionArea.h sel) ctx in
  let ctx :=
    if (newText =? "")%string then ctx
    else
      let ctx := set_fillStyle B (string_or (SelectionArea.textColor sel) "#000000") ctx in
      let ctx := set_font (selection_font sel) ctx in
      let ctx := set_textBaseline middle ctx in
      let ctx := set_textAlign (default center (SelectionArea.textAlign sel)) ctx in
      let lines :=
        TextLayout.wrapText (measureText B (font (current ctx)))
          (SelectionArea.w sel - 4) newText in
      let lineHeight := (number_or (SelectionArea.fontSize sel) 32 * (12 # 10))%Q in
      let totalHeight := (inject_Z (Z.of_nat (length lines)) * lineHeight)%Q in
      let startY := (- totalHeight / 2 + lineHeight / 2)%Q in
      fst (fold_left (draw_line sel lineHeight) lines (ctx, startY)) in
  restore ctx.

(** [manualKey || localStorage.getItem(STORAGE_KEY)], then the fallback to
    [aistudio]; [Throws] when the awaited fallback rejects. *)
Definition resolve_key (env : Env) (manualKey : string) : completion (option string) :=
  let apiKey :=
    if (manualKey =? "")%string then localStorage_key env else Some manualKey in
  if truthy_string apiKey then Returns apiKey
  else match aistudio env with
       | Some answer => answer
       | None => Returns apiKey
       end.

(** The first part whose [inlineData.data] is non-empty. *)
Definition first_payload (ps : list Part) : option (string * string) :=
  match find (fun part => truthy_string (option_map snd (inlineData part))) ps with
  | Some part => inlineData part
  | None => None
  end.

(** The payload the loop would draw for an answer, if any. *)
Definition payload_of (answer : completion Response) : option (string * string) :=
  match answer with
  | Throws => None
  | Returns response =>
      match parts response with
      | Some ps => first_payload ps
      | None => None
      end
  end.

(** Body of [for (const sel of imageAISelections)]; [None] when the loop
    waits for ever on [aiImage.onload]. *)
Definition restore_ai (env : Env) (manualKey : string)
    (replacements : gmap Z string) (ctx : Context) (sel : SelectionArea.t)
  : option Context :=
  let prompt := replacement_of replacements (SelectionArea.id sel) in
  if (prompt =? "")%string then Some ctx
  else
    match resolve_key env manualKey with
    | Throws => Some ctx
    | Returns key =>
        if negb (truthy_string key) then Some ctx
        else
          let request :=
            mkRequest (string_or key "") (toDataURL B ctx)
              (SelectionArea.x sel, SelectionArea.y sel,
               SelectionArea.w sel, SelectionArea.h sel) prompt in
          match payload_of (generateContent env request) with
          | None => Some ctx
          | Some (mimeType, payload) =>
              match loadImage B mimeType payload with
              | Some aiImage =>
                  Some (drawImage B aiImage (SelectionArea.x sel)
                          (SelectionArea.y sel) (SelectionArea.w sel)
                          (SelectionArea.h sel) ctx)
              | None => None
              end
          end
    end.

(** The loop over the ai-image regions, stopping where it hangs. *)
Fixpoint restore_ai_all (env : Env) (manualKey : string)
    (replacements : gmap Z string) (sels : list SelectionArea.t)
    (ctx : Context) : option Context :=
  match sels with
  | [] => Some ctx
  | sel :: rest =>
      match restore_ai env manualKey replacements ctx sel with
      | Some ctx' => restore_ai_all env manualKey replacements rest ctx'
      | None => None
      end
  end.

Definition flip_factor (flip : option bool) : Q :=
  if truthy_bool flip then (-1)%Q else 1%Q.

(** Body of [for (const sel of imageReplaceSelections)]. *)
Definition restore_replacement (replacementImages : gmap Z ImageData)
    (ctx : Context) (sel : SelectionArea.t) : Context :=
  if negb (truthy_string (SelectionArea.replacementImage sel)) then ctx
  else
    let ctx := set_fillStyle B (string_or (SelectionArea.textBgColor sel) "#ffffff") ctx in
    let ctx :=
      fillRect B (SelectionArea.x sel) (SelectionArea.y sel)
        (SelectionArea.w sel) (SelectionArea.h sel) ctx in
    match replacementImages !! SelectionArea.id sel with
    | Some img =>
        let ctx := save ctx in
        let ctx :=
          translate (SelectionArea.x sel + SelectionArea.w sel / 2)
            (SelectionArea.y sel + SelectionArea.h sel / 2) ctx in
        let ctx := rotate_degrees (SelectionArea.imageRotation sel) ctx in
        let ctx :=
          scale (flip_factor (SelectionArea.imageFlipX sel))
            (flip_factor (SelectionArea.imageFlipY sel)) ctx in
        let ctx :=
          drawImage B img (- SelectionArea.w sel / 2) (- SelectionArea.h sel / 2)
            (SelectionArea.w sel) (SelectionArea.h sel) ctx in
        restore ctx
    | None => ctx
    end.

(** Body of [for (const stk of stickers)]. *)
Definition restore_sticker (stickerImages : gmap Z ImageData)
    (ctx : Context) (stk : Sticker.t) : Context :=
  match stickerImages !! Sticker.id stk with
  | None => ctx
  | Some img =>
      let ctx := save ctx in
      let ctx := set_globalAlpha (Sticker.opacity stk) ctx in
      let ctx := translate (Sticker.x stk) (Sticker.y stk) ctx in
      let ctx := rotate B (Sticker.rotation stk * Math_PI (math B) / 180)%Q ctx in
      let scaleX := if Sticker.flipX stk then (-1)%Q else 1%Q in
      let ctx := scale (scaleX * Sticker.scale stk) (Sticker.scale stk) ctx in
      let ctx :=
        drawImage B img (- Sticker.w stk / 2) (- Sticker.h stk / 2)
          (Sticker.w stk) (Sticker.h stk) ctx in
      restore ctx
  end.

(** Body of [txt.segments.forEach((seg) => ...)]; the state is the context,
    [currentX] and [currentY]. *)
Definition draw_segment (lineHeight : Q) (st : Context * Q * Q)
    (seg : TextSegment.t) : Context * Q * Q :=
  let '(ctx, currentX, currentY) := st in
  let '(currentX, currentY) :=
    if truthy_bool (TextSegment.newLine seg)
    then (0%Q, (currentY + lineHeight)%Q)
    else (currentX, currentY) in
  let ctx := set_fillStyle B (TextSegment.color seg) ctx in
  let ctx := fillText B (TextSegment.text seg) currentX currentY ctx in
  (ctx,
   (currentX + measureText B (font (current ctx)) (TextSegment.text seg))%Q,
   currentY).

(** Body of [for (const txt of customTexts)]. *)
Definition restore_custom_text (ctx : Context) (txt : CustomText.t) : Context :=
  let ctx := save ctx in
  let ctx := set_globalAlpha (CustomText.opacity txt) ctx in
  let ctx := translate (CustomText.x txt) (CustomText.y txt) ctx in
  let ctx := rotate B (CustomText.rotation txt * Math_PI (math B) / 180)%Q ctx in
  let ctx :=
    set_font (mkFont (CustomText.fontWeight txt)
                (CustomText.fontSize txt * CustomText.scale txt)
                (string_or (CustomText.fontFamily txt) "Noto Sans KR")) ctx in
  let lineHeight := (CustomText.fontSize txt * CustomText.scale txt * (12 # 10))%Q in
  let '(ctx, _, _) :=
    fold_left (draw_segment lineHeight) (CustomText.segments txt) (ctx, 0%Q, 0%Q) in
  restore ctx.

Definition of_type (kind : SelectionType) (sel : SelectionArea.t) : bool :=
  SelectionType_eqb (SelectionArea.type sel) kind.

(** The drawing part of [handleRestore]: the pristine raster, then the text
    regions, the ai-image regions, the image-replace regions, the stickers
    and the custom texts, each group in list order. *)
Definition composite (env : Env) (manualKey : string)
    (size : Z * Z) (original : ImageData) (scene : HistoryState.t)
    (stickerImages replacementImages : gmap Z ImageData) : outcome :=
  let selections := HistoryState.selections scene in
  let replacements := HistoryState.replacements scene in
  let ctx := putImageData original (createCanvas (fst size) (snd size)) in
  let textSelections := List.filter (of_type text) selections in
  let imageAISelections := List.filter (of_type image_ai) selections in
  let imageReplaceSelections := List.filter (of_type image_replace) selections in
  let ctx := fold_left (restore_text replacements) textSelections ctx in
  match restore_ai_all env manualKey replacements imageAISelections ctx with
  | None => Pending
  | Some ctx =>
      let ctx := fold_left (restore_replacement replacementImages)
                   imageReplaceSelections ctx in
      let ctx := fold_left (restore_sticker stickerImages)
                   (HistoryState.stickers scene) ctx in
      let ctx := fold_left restore_custom_text
                   (HistoryState.customTexts scene) ctx in
      Exported (bitmap ctx)
  end.

Definition handleRestore (env : Env) (st : App.state) : outcome :=
  match App.canvasRef st, App.originalImageData st with
  | Some size, Some original =>
      match App.selections st with
      | [] => NotStarted
      | _ =>
          composite env (App.manualKey st) size original (App.scene_of st)
            (App.stickerImagesRef st) (App.replacementImagesRef st)
      end
  | _, _ => NotStarted
  end.

End WithBrowser.

(** The raster and the snapshot an export reads: the scene, the decoded
    rasters cached for it, the source raster and the canvas size. *)
Definition same_snapshot (st1 st2 : App.state) : Prop :=
  App.scene_of st1 = App.scene_of st2
  /\ App.stickerImagesRef st1 = App.stickerImagesRef st2
  /\ App.replacementImagesRef st1 = App.replacementImagesRef st2
  /\ App.originalImageData st1 = App.originalImageData st2
  /\ App.canvasRef st1 = App.canvasRef st2.

(** The two runs of an export see the same credential and the same answers
    from the generation service. *)
Definition same_answers (env1 env2 : Env) (key1 key2 : string) : Prop :=
  resolve_key env1 key1 = resolve_key env2 key2
  /\ forall request, generateContent env1 request = generateContent env2 request.

(** Does the scene hold an ai-image region with a prompt? *)
Definition prompted (replacements : gmap Z string) (sel : SelectionArea.t) : bool :=
  of_type image_ai sel
  && negb (replacement_of replacements (SelectionArea.id sel) =? "")%string.

Definition has_prompted_ai (st : App.state) : bool :=
  existsb (prompted (App.replacements st)) (App.selections st).



End Restore.

(* ===================================================================== *)
(** ** A reference browser and sample scenes *)

(** A small browser to run the export on: nearest-neighbour rasterising
    without anti-aliasing, no glyphs, a fixed-pitch text metric, colours
    written [#rrggbb], and images that load from a payload spelling their
    one colour. It serves the worked examples; the properties below hold
    for every [Browser]. *)
Module Reference.
Import Canvas Restore.

(** The point the transform sends to [(px, py)]. *)
Definition preimage (t : Transform) (px py : Q) : option (Q * Q) :=
  let det := (ma t * md t - mb t * mc t)%Q in
  if Qeq_bool det 0 then None
  else
    let u := (px - me t)%Q in
    let v := (py - mf t)%Q in
    Some (((md t * u - mc t * v) / det)%Q, ((ma t * v - mb t * u) / det)%Q).

Definition mix (coverage : Q) (src dst : Z) : Z :=
  Math_round (coverage * inject_Z src + (1 - coverage) * inject_Z dst).

Definition blend (opacity : Q) (src dst : RGBA) : RGBA :=
  let coverage := (opacity * (inject_Z (alpha src) / 255))%Q in
  mkRGBA (mix coverage (red src) (red dst)) (mix coverage (green src) (green dst))
    (mix coverage (blue src) (blue dst)) (mix coverage 255 (alpha dst)).

(** Paint every pixel whose centre the [source] covers. *)
Definition paint (d : DrawState) (source : Q -> Q -> option RGBA)
    (img : ImageData) : ImageData :=
  generate (width img) (height img)
    (fun i j =>
       let dst := default transparent (pixel_at img i j) in
       match preimage (transform d) (inject_Z i + (1 # 2)) (inject_Z j + (1 # 2)) with
       | Some (u, v) =>
           match source u v with
           | Some src => blend (globalAlpha d) src dst
           | None => dst
           end
       | None => dst
       end).

Definition within (x y w h u v : Q) : bool :=
  Qle_bool x u && Qltb u (x + w) && Qle_bool y v && Qltb v (y + h).

Definition color_of (style : string) : option RGBA :=
  match Color.hexToRgb style with
  | Some c => Some (mkRGBA (Color.r c) (Color.g c) (Color.b c) 255)
  | None => None
  end.

Definition rect_source (style : string) (x y w h u v : Q) : option RGBA :=
  if within x y w h u v then color_of style else None.

Definition image_source (src : ImageData) (x y w h u v : Q) : option RGBA :=
  if within x y w h u v then
    pixel_at src (Qfloor ((u - x) * inject_Z (width src) / w))
      (Qfloor ((v - y) * inject_Z (height src) / h))
  else None.

Definition pixel_hex (p : RGBA) : string :=
  Color.channel_hex (red p) +:+ Color.channel_hex (green p)
  +:+ Color.channel_hex (blue p) +:+ Color.channel_hex (alpha p).

Definition encode (img : ImageData) : string :=
  fold_right (fun p rest => pixel_hex p +:+ rest) "" (data img).

Definition load (mimeType payload : string) : option ImageData :=
  match color_of payload with
  | Some c => Some (mkImageData 1 1 [c])
  | None => None
  end.

Definition browser : Browser := {|
  math := Analyzer.coarse_math;
  measureText := fun f s => (sizePx f * (3 # 5) * inject_Z (Z.of_nat (String.length s)))%Q;
  cssColor := color_of;
  paintRect := fun d x y w h => paint d (rect_source (fillStyle d) x y w h);
  paintText := fun _ _ _ _ img => img;
  paintImage := fun d src x y w h => paint d (image_source src x y w h);
  encodePNG := encode;
  loadImage := load
|}.

(** A generation service that answers a prompt spelling a colour with one
    image of that colour and throws on any other prompt; one that always
    throws; one that answers without parts. *)
Definition palette_service (request : Request) : completion Response :=
  match color_of (prompt request) with
  | Some _ => Returns (mkResponse (Some [mkPart None;
                                         mkPart (Some ("image/png", prompt request))]))
  | None => Throws
  end.

Definition dead_service (request : Request) : completion Response := Throws.

Definition mute_service (request : Request) : completion Response :=
  Returns (mkResponse None).

Definition online : Env := mkEnv (Some "stored-key") None palette_service.
Definition offline : Env := mkEnv (Some "stored-key") None dead_service.

Definition white_raster : ImageData :=
  generate 16 12 (fun _ _ => Analyzer.white).

Definition red_pixel : RGBA := mkRGBA 255 0 0 255.
Definition green_image : ImageData := mkImageData 1 1 [mkRGBA 0 128 0 255].
Definition blue_image : ImageData := mkImageData 1 1 [mkRGBA 0 0 255 255].

(** A render over [white_raster] holding the given scene. *)
Definition render_of (scene : HistoryState.t)
    (stickerImages replacementImages : gmap Z ImageData) : App.state := {|
  App.selections := HistoryState.selections scene;
  App.replacements := HistoryState.replacements scene;
  App.stickers := HistoryState.stickers scene;
  App.customTexts := HistoryState.customTexts scene;
  App.history := []; App.historyIndex := -1;
  App.drawMode := text; App.autoAnalyzeEnabled := true; App.manualKey := "";
  App.originalImageData := Some white_raster;
  App.canvasRef := Some (16, 12); App.originalCanvasRef := None;
  App.isDrawing := false; App.isMoving := false; App.startPos := (0%Q, 0%Q);
  App.stickerImagesRef := stickerImages;
  App.replacementImagesRef := replacementImages
|}.

(** One ai-image region over columns 2-7 and rows 2-7, asked for red. *)
Definition ai_scene : HistoryState.t :=
  HistoryState.mk [Pointer.plain_region image_ai 1 2 2 6 6]
    (<[ 1 := "#ff0000" ]> ∅) [] [].

Definition ai_render : App.state := render_of ai_scene ∅ ∅.

(** The same render with a key typed by the user. *)
Definition ai_render_with_key : App.state := {|
  App.selections := App.selections ai_render;
  App.replacements := App.replacements ai_render;
  App.stickers := App.stickers ai_render;
  App.customTexts := App.customTexts ai_render;
  App.history := []; App.historyIndex := -1;
  App.drawMode := text; App.autoAnalyzeEnabled := true;
  App.manualKey := "typed-key";
  App.originalImageData := App.originalImageData ai_render;
  App.canvasRef := App.canvasRef ai_render; App.originalCanvasRef := None;
  App.isDrawing := false; App.isMoving := false; App.startPos := (0%Q, 0%Q);
  App.stickerImagesRef := ∅; App.replacementImagesRef := ∅
|}.

(** A scene without ai-image regions: a text region, an image-replace
    region with its cached raster, a sticker and a custom text. *)
Definition replaced_region : SelectionArea.t :=
  SelectionArea.mk 3 9 1 4 4 image_replace (Some "data:image/png;base64,AA==")
    (Some 0%Q) (Some true) None None (Some "#cccccc") None None None None
    None None.

Definition sample_sticker : Sticker.t :=
  Sticker.mk 5 "data:image/png;base64,BB==" 12 9 2 2 0 false 1 1.

Definition sample_text : CustomText.t :=
  CustomText.mk 6
    [TextSegment.mk "ab" "#ef4444" None; TextSegment.mk "c" "#eab308" (Some true)]
    1 10 4 1 1 normal 0 (Some "Noto Sans KR").

Definition plain_scene : HistoryState.t :=
  HistoryState.mk
    [Pointer.plain_region text 4 1 8 6 3; replaced_region]
    (<[ 4 := "hi" ]> ∅) [sample_sticker] [sample_text].

Definition sticker_cache : gmap Z ImageData := <[ 5 := blue_image ]> ∅.
Definition replacement_cache : gmap Z ImageData := <[ 3 := green_image ]> ∅.

Definition plain_render : App.state :=
  render_of plain_scene sticker_cache replacement_cache.



(** The pixel of an export's result, when there is one. *)
Definition result_pixel (o : outcome) (i j : Z) : option RGBA :=
  match o with
  | Exported result => pixel_at result i j
  | _ => None
  end.

End Reference.

(* ===================================================================== *)
(** ** Vocabulary for the colour analysis *)

Module Contrast.
Import Color Analyzer.

(** The distance [detectTextColorFast] computes between a sample and the
    background: the sum of the absolute channel differences. *)
Definition distance (bg : rgb) (p : Z * Z * Z) : Z :=
  Z.abs (fst (fst p) - r bg) + Z.abs (snd (fst p) - g bg) + Z.abs (snd p - b bg).

(** The hex string of a sample. *)
Definition sample_hex (p : Z * Z * Z) : string :=
  rgbToHex (fst (fst p)) (snd (fst p)) (snd p).

(** The samples the text-colour detector reads. *)
Definition circle_samples (M : MathLib) (ctx : OriginalCanvas) (x y w h : Q)
  : list (Z * Z * Z) :=
  fold_left (sample ctx) (circle_points M x y w h) [].

(** Black on a light background, white on a dark one. *)
Definition fallback (bg : rgb) : string :=
  if Qgtb (getLuminance (r bg) (g bg) (b bg)) (1 # 2) then "#000000" else "#ffffff".

(** A channel value of a pixel buffer. *)
Definition channel (v : Z) : Prop := 0 <= v <= 255.

(** The luminance as the specification writes it, in exact arithmetic. *)
Definition exact_luminance (bg : rgb) : Q :=
  (((299 # 1000) * inject_Z (r bg) + (587 # 1000) * inject_Z (g bg)
    + (114 # 1000) * inject_Z (b bg)) / 255)%Q.

(** The one colour of exact luminance [1/2] whose luminance in doubles
    exceeds [0.5]. *)
Definition is_orchid (bg : rgb) : bool :=
  (r bg =? 218) && (g bg =? 58) && (b bg =? 248).

End Contrast.

(* ===================================================================== *)
(** ** Vocabulary for the lines of a wrapped text *)

Module Lines.
Import TextLayout.

(** What can be said of a line [wrapTextWithNewlines] returns: it holds no
    line break, it measures at most [maxWidth] unless it is a single
    character, and it is empty only where the text has an empty paragraph. *)
Definition well_shaped (measureText : string -> Q) (maxWidth : Q)
    (text : string) (line : string) : Prop :=
  has_newline line = false
  /\ ((2 <= String.length line)%nat -> (measureText line <= maxWidth)%Q)
  /\ (line = "" -> In "" (split_newline text)).

End Lines.

(* ===================================================================== *)
(** ** Vocabulary for the export *)

Module RestoreTerms.
Import Canvas Restore.




(** The drawing state and the stack of saved states of a context. *)
Definition state_of (ctx : Context) : DrawState * list DrawState :=
  (current ctx, saved ctx).


End RestoreTerms.

(* ===================================================================== *)
(** ** Editing the scene *)

Module SceneOps.
Import App.

Definition MAX_CHAR_LIMIT : nat := 500.

(** [setSelections], [setReplacements], [setStickers], [setCustomTexts]. *)
Definition set_selections (v : list SelectionArea.t) (st : state) : state :=
  set_scene (HistoryState.mk v (replacements st) (stickers st) (customTexts st)) st.
Definition set_replacements (v : gmap Z string) (st : state) : state :=
  set_scene (HistoryState.mk (selections st) v (stickers st) (customTexts st)) st.
Definition set_stickers (v : list Sticker.t) (st : state) : state :=
  set_scene (HistoryState.mk (selections st) (replacements st) v (customTexts st)) st.
Definition set_customTexts (v : list CustomText.t) (st : state) : state :=
  set_scene (HistoryState.mk (selections st) (replacements st) (stickers st) v) st.

(** Writes to [stickerImagesRef.current] and [replacementImagesRef.current]. *)
Definition set_image_maps (stickerImages replacementImages : gmap Z ImageData)
    (st : state) : state := {|
  selections := selections st; replacements := replacements st;
  stickers := stickers st; customTexts := customTexts st;
  history := history st; historyIndex := historyIndex st;
  drawMode := drawMode st; autoAnalyzeEnabled := autoAnalyzeEnabled st;
  manualKey := manualKey st; originalImageData := originalImageData st;
  canvasRef := canvasRef st; originalCanvasRef := originalCanvasRef st;
  isDrawing := isDrawing st; isMoving := isMoving st; startPos := startPos st;
  stickerImagesRef := stickerImages;
  replacementImagesRef := replacementImages
|}.

(** The history a call of [addToHistory] installs when it runs in the
    closure of the render [seen]. *)
Definition commit_seen (seen : state) (st : state) : state :=
  set_history (history (History.addToHistory seen))
    (historyIndex (History.addToHistory seen)) st.

(** [removeSelection]: the three updates, then [addToHistory] of the
    current render. *)
Definition removeSelection (id : Z) (st : state) : state :=
  let kept := List.filter (fun s => negb (SelectionArea.id s =? id)) (selections st) in
  let st1 := set_selections kept st in
  let st2 := set_replacements (delete id (replacements st)) st1 in
  let st3 := set_image_maps (stickerImagesRef st) (delete id (replacementImagesRef st)) st2 in
  commit_seen st st3.

(** [Partial<SelectionArea>]: the fields an update carries. *)
Record SelectionUpdates : Type := mkUpdates {
  u_id : option Z;
  u_x : option Q;
  u_y : option Q;
  u_w : option Q;
  u_h : option Q;
  u_type : option SelectionType;
  u_replacementImage : option string;
  u_imageRotation : option Q;
  u_imageFlipX : option bool;
  u_imageFlipY : option bool;
  u_textColor : option string;
  u_textBgColor : option string;
  u_fontSize : option Q;
  u_fontWeight : option FontWeight;
  u_textAlign : option TextAlign;
  u_fontFamily : option string;
  u_textRotation : option Q;
  u_autoFitWidth : option bool
}.

Definition no_updates : SelectionUpdates :=
  mkUpdates None None None None None None None None None None None None None
    None None None None None.

(** A field of [{ ...s, ...updates }]: the update's value when it has one. *)
Definition over {A : Type} (update : option A) (old : A) : A :=
  match update with Some v => v | None => old end.
Definition over_optional {A : Type} (update : option A) (old : option A) : option A :=
  match update with Some v => Some v | None => old end.

(** [{ ...s, ...updates }] *)
Definition merge (s : SelectionArea.t) (u : SelectionUpdates) : SelectionArea.t := {|
  SelectionArea.id := over (u_id u) (SelectionArea.id s);
  SelectionArea.x := over (u_x u) (SelectionArea.x s);
  SelectionArea.y := over (u_y u) (SelectionArea.y s);
  SelectionArea.w := over (u_w u) (SelectionArea.w s);
  SelectionArea.h := over (u_h u) (SelectionArea.h s);
  SelectionArea.type := over (u_type u) (SelectionArea.type s);
  SelectionArea.replacementImage :=
    over_optional (u_replacementImage u) (SelectionArea.replacementImage s);
  SelectionArea.imageRotation :=
    over_optional (u_imageRotation u) (SelectionArea.imageRotation s);
  SelectionArea.imageFlipX := over_optional (u_imageFlipX u) (SelectionArea.imageFlipX s);
  SelectionArea.imageFlipY := over_optional (u_imageFlipY u) (SelectionArea.imageFlipY s);
  SelectionArea.textColor := over_optional (u_textColor u) (SelectionArea.textColor s);
  SelectionArea.textBgColor := over_optional (u_textBgColor u) (SelectionArea.textBgColor s);
  SelectionArea.fontSize := over_optional (u_fontSize u) (SelectionArea.fontSize s);
  SelectionArea.fontWeight := over_optional (u_fontWeight u) (SelectionArea.fontWeight s);
  SelectionArea.textAlign := over_optional (u_textAlign u) (SelectionArea.textAlign s);
  SelectionArea.fontFamily := over_optional (u_fontFamily u) (SelectionArea.fontFamily s);
  SelectionArea.textRotation :=
    over_optional (u_textRotation u) (SelectionArea.textRotation s);
  SelectionArea.autoFitWidth :=
    over_optional (u_autoFitWidth u) (SelectionArea.autoFitWidth s)
|}.

(** [prev.map((s) => (s.id === id ? { ...s, ...updates } : s))] *)
Definition update_in (id : Z) (u : SelectionUpdates)
    (sels : list SelectionArea.t) : list SelectionArea.t :=
  map (fun s => if SelectionArea.id s =? id then merge s u else s) sels.

Definition updateSelection (id : Z) (u : SelectionUpdates) (st : state) : state :=
  set_selections (update_in id u (selections st)) st.

(** [reanalyzeSelection] *)
Definition reanalyzeSelection (M : MathLib) (id : Z) (st : state) : state :=
  match find (fun s => SelectionArea.id s =? id) (selections st) with
  | None => st
  | Some sel =>
      if negb (SelectionType_eqb (SelectionArea.type sel) text) then st
      else
        let analysis :=
          Analyzer.analyzeTextAreaFast M (originalCanvasRef st)
            (SelectionArea.x sel) (SelectionArea.y sel)
            (SelectionArea.w sel) (SelectionArea.h sel) in
        updateSelection id
          {| u_id := None; u_x := None; u_y := None; u_w := None; u_h := None;
             u_type := None; u_replacementImage := None; u_imageRotation := None;
             u_imageFlipX := None; u_imageFlipY := None;
             u_textColor := Some (Analyzer.textColor analysis);
             u_textBgColor := Some (Analyzer.bgColor analysis);
             u_fontSize := Some (inject_Z (Analyzer.fontSize analysis));
             u_fontWeight := None; u_textAlign := None; u_fontFamily := None;
             u_textRotation := None; u_autoFitWidth := None |}
          st
  end.

(** The [onload] of [handleReplacementUpload]. *)
Definition replacement_loaded (id : Z) (dataUrl : string) (img : ImageData)
    (st : state) : state :=
  let st1 := set_image_maps (stickerImagesRef st)
               (<[ id := img ]> (replacementImagesRef st)) st in
  updateSelection id
    {| u_id := None; u_x := None; u_y := None; u_w := None; u_h := None;
       u_type := None; u_replacementImage := Some dataUrl;
       u_imageRotation := None; u_imageFlipX := None; u_imageFlipY := None;
       u_textColor := None; u_textBgColor := None; u_fontSize := None;
       u_fontWeight := None; u_textAlign := None; u_fontFamily := None;
       u_textRotation := None; u_autoFitWidth := None |}
    st1.

(** The [onload] of [handleStickerUpload], run in the closure of the render
    [seen] in which the upload began; [imgWidth] and [imgHeight] are the
    intrinsic size of the loaded image. With no canvas the read of
    [canvas.width] throws and nothing changes. *)
Definition sticker_loaded (seen : state) (now : Z) (dataUrl : string)
    (img : ImageData) (st : state) : state :=
  match canvasRef st with
  | None => st
  | Some (cw, ch) =>
      let newSticker :=
        Sticker.mk now dataUrl (inject_Z cw / 2) (inject_Z ch / 2)
          (inject_Z (width img)) (inject_Z (height img)) 0 false 1 1 in
      let st1 := set_image_maps (<[ now := img ]> (stickerImagesRef st))
                   (replacementImagesRef st) st in
      let st2 := set_stickers (stickers st ++ [newSticker]) st1 in
      commit_seen seen st2
  end.

Definition removeSticker (id : Z) (st : state) : state :=
  let kept := List.filter (fun s => negb (Sticker.id s =? id)) (stickers st) in
  let st1 := set_stickers kept st in
  let st2 := set_image_maps (delete id (stickerImagesRef st)) (replacementImagesRef st) st1 in
  commit_seen st st2.

Definition DEFAULT_COLORS : list string := ["#ef4444"; "#eab308"; "#3b82f6"].

(** [addCustomText]; with no canvas the read of [canvas.width] throws and
    nothing changes. *)
Definition addCustomText (now : Z) (st : state) : state :=
  match canvasRef st with
  | None => st
  | Some (cw, ch) =>
      let newText :=
        CustomText.mk now
          [TextSegment.mk "텍스트" (nth 0 DEFAULT_COLORS "") None;
           TextSegment.mk "입력" (nth 1 DEFAULT_COLORS "") None]
          (inject_Z cw / 2) (inject_Z ch / 2) 48 1 1 normal 0 (Some "Noto Sans KR") in
      commit_seen st (set_customTexts (customTexts st ++ [newText]) st)
  end.

Definition removeCustomText (id : Z) (st : state) : state :=
  let kept := List.filter (fun t => negb (CustomText.id t =? id)) (customTexts st) in
  commit_seen st (set_customTexts kept st).

(** The [onChange] of a region's text box:
    [{ ...prev, [sel.id]: e.target.value.slice(0, MAX_CHAR_LIMIT) }]. *)
Definition type_replacement (id : Z) (value : string) (st : state) : state :=
  set_replacements
    (<[ id := String.substring 0 MAX_CHAR_LIMIT value ]> (replacements st)) st.

(** At most [MAX_SELECTIONS] regions, in the scene and in every snapshot of
    the history, and a valid cursor. *)
Definition bounded (st : state) : Prop :=
  Z.of_nat (length (selections st)) <= MAX_SELECTIONS
  /\ Forall (fun snap => Z.of_nat (length (HistoryState.selections snap))
                         <= MAX_SELECTIONS) (history st)
  /\ History.cursor_ok st.

End SceneOps.

(* ===================================================================== *)
(** ** Pointer handling: [onMouseDown], [onMouseMove], [pickColor] *)

Module Session.
Import App SceneOps.

Inductive Target : Type := on_sticker | on_text | on_selection.
Inductive ColorTarget : Type := target_text | target_bg.

Record Eyedropper : Type := mkEyedropper {
  active : bool;
  selectionId : option Z;
  target : ColorTarget
}.

(** The component state the pointer handlers use beyond [App.state]. *)
Record t : Type := mk {
  app : App.state;
  selectedId : option (Z * Target);
  eyedropperMode : Eyedropper
}.

Definition with_app (f : App.state -> App.state) (s : t) : t :=
  mk (f (app s)) (selectedId s) (eyedropperMode s).

(** [startPos.current = { x, y }] *)
Definition set_startPos (p : Q * Q) (st : state) : state := {|
  selections := selections st; replacements := replacements st;
  stickers := stickers st; customTexts := customTexts st;
  history := history st; historyIndex := historyIndex st;
  drawMode := drawMode st; autoAnalyzeEnabled := autoAnalyzeEnabled st;
  manualKey := manualKey st; originalImageData := originalImageData st;
  canvasRef := canvasRef st; originalCanvasRef := originalCanvasRef st;
  isDrawing := isDrawing st; isMoving := isMoving st; startPos := p;
  stickerImagesRef := stickerImagesRef st;
  replacementImagesRef := replacementImagesRef st
|}.

(** Body of the loop over [stickers] in [onMouseDown]. *)
Definition hit_sticker (M : MathLib) (px py : Q) (stk : Sticker.t) : bool :=
  let dx := (px - Sticker.x stk)%Q in
  let dy := (py - Sticker.y stk)%Q in
  let rad := (Sticker.rotation stk * Math_PI M / 180)%Q in
  let cos := Math_cos M (- rad)%Q in
  let sin := Math_sin M (- rad)%Q in
  let rx := (dx * cos - dy * sin)%Q in
  let ry := (dx * sin + dy * cos)%Q in
  let scaleX := if Sticker.flipX stk then (-1)%Q else 1%Q in
  let halfW := (Sticker.w stk * Sticker.scale stk * scaleX / 2)%Q in
  let halfH := (Sticker.h stk * Sticker.scale stk / 2)%Q in
  Qle_bool (- halfW) rx && Qle_bool rx halfW
  && Qle_bool (- halfH) ry && Qle_bool ry halfH.

Definition clickedSticker (M : MathLib) (px py : Q) (stickers : list Sticker.t)
  : option Sticker.t :=
  find (hit_sticker M px py) (rev stickers).

(** [txt.segments.map(s => s.text).join('')] *)
Definition full_text (txt : CustomText.t) : string :=
  TextLayout.join_empty (map TextSegment.text (CustomText.segments txt)).

(** Body of the loop over [customTexts] in [onMouseDown]. *)
Definition hit_text (B : Canvas.Browser) (px py : Q) (txt : CustomText.t) : bool :=
  let M := Canvas.math B in
  let font :=
    Canvas.mkFont (CustomText.fontWeight txt)
      (CustomText.fontSize txt * CustomText.scale txt)
      (string_or (CustomText.fontFamily txt) "Noto Sans KR") in
  let width := Canvas.measureText B font (full_text txt) in
  let height := (CustomText.fontSize txt * CustomText.scale txt)%Q in
  let dx := (px - CustomText.x txt)%Q in
  let dy := (py - CustomText.y txt)%Q in
  let rad := (CustomText.rotation txt * Math_PI M / 180)%Q in
  let cos := Math_cos M (- rad)%Q in
  let sin := Math_sin M (- rad)%Q in
  let rx := (dx * cos - dy * sin)%Q in
  let ry := (dx * sin + dy * cos)%Q in
  Qle_bool 0 rx && Qle_bool rx width
  && Qle_bool (- height * (8 # 10)) ry && Qle_bool ry (height * (2 # 10)).

Definition clickedText (B : Canvas.Browser) (px py : Q)
    (texts : list CustomText.t) : option CustomText.t :=
  find (hit_text B px py) (rev texts).

(** [pickColor]. A missing canvas or a falsy [selectionId] returns before
    anything is set; a throwing pixel read aborts the handler. *)
Definition pickColor (s : t) (x y : Q) : t :=
  match originalCanvasRef (app s), selectionId (eyedropperMode s) with
  | Some ctx, Some id =>
      if id =? 0 then s
      else
        match getImageData ctx (Math_round x) (Math_round y) with
        | None => s
        | Some pixel =>
            let hex := Color.rgbToHex (red pixel) (green pixel) (blue pixel) in
            let recolour (sel : SelectionArea.t) :=
              if SelectionArea.id sel =? id then
                match target (eyedropperMode s) with
                | target_text =>
                    merge sel
                      {| u_id := None; u_x := None; u_y := None; u_w := None;
                         u_h := None; u_type := None; u_replacementImage := None;
                         u_imageRotation := None; u_imageFlipX := None;
                         u_imageFlipY := None; u_textColor := Some hex;
                         u_textBgColor := None; u_fontSize := None;
                         u_fontWeight := None; u_textAlign := None;
                         u_fontFamily := None; u_textRotation := None;
                         u_autoFitWidth := None |}
                | target_bg =>
                    merge sel
                      {| u_id := None; u_x := None; u_y := None; u_w := None;
                         u_h := None; u_type := None; u_replacementImage := None;
                         u_imageRotation := None; u_imageFlipX := None;
                         u_imageFlipY := None; u_textColor := None;
                         u_textBgColor := Some hex; u_fontSize := None;
                         u_fontWeight := None; u_textAlign := None;
                         u_fontFamily := None; u_textRotation := None;
                         u_autoFitWidth := None |}
                end
              else sel in
            mk (set_selections (map recolour (selections (app s))) (app s))
              (selectedId s) (mkEyedropper false None target_text)
        end
  | _, _ => s
  end.

(** [isMoving.current = true; startPos.current = { x, y }] with
    [setSelectedId]. *)
Definition grab (id : Z) (kind : Target) (x y : Q) (s : t) : t :=
  mk (set_startPos (x, y) (set_pointer_flags (isDrawing (app s)) true (app s)))
    (Some (id, kind)) (eyedropperMode s).

(** [onMouseDown] for a pointer pressed at [(x, y)] in canvas
    coordinates. *)
Definition onMouseDown (B : Canvas.Browser) (s : t) (x y : Q) : t :=
  match canvasRef (app s) with
  | None => s
  | Some _ =>
      if active (eyedropperMode s) then pickColor s x y
      else
        match clickedSticker (Canvas.math B) x y (stickers (app s)) with
        | Some stk => grab (Sticker.id stk) on_sticker x y s
        | None =>
            match clickedText B x y (customTexts (app s)) with
            | Some txt => grab (CustomText.id txt) on_text x y s
            | None =>
                match HitTest.clickedSelection (Canvas.math B) x y
                        (selections (app s)) with
                | Some sel => grab (SelectionArea.id sel) on_selection x y s
                | None =>
                    with_app (fun st =>
                      set_startPos (x, y)
                        (set_pointer_flags true (isMoving st) st)) s
                end
            end
        end
  end.

Definition move_sticker (id : Z) (dx dy : Q) (stk : Sticker.t) : Sticker.t :=
  if Sticker.id stk =? id then
    Sticker.mk (Sticker.id stk) (Sticker.src stk) (Double.add (Sticker.x stk) dx)
      (Double.add (Sticker.y stk) dy) (Sticker.w stk) (Sticker.h stk) (Sticker.rotation stk)
      (Sticker.flipX stk) (Sticker.opacity stk) (Sticker.scale stk)
  else stk.

Definition move_text (id : Z) (dx dy : Q) (txt : CustomText.t) : CustomText.t :=
  if CustomText.id txt =? id then
    CustomText.mk (CustomText.id txt) (CustomText.segments txt)
      (Double.add (CustomText.x txt) dx) (Double.add (CustomText.y txt) dy)
      (CustomText.fontSize txt)
      (CustomText.scale txt) (CustomText.opacity txt) (CustomText.fontWeight txt)
      (CustomText.rotation txt) (CustomText.fontFamily txt)
  else txt.

Definition move_selection (id : Z) (dx dy : Q) (sel : SelectionArea.t)
  : SelectionArea.t :=
  if SelectionArea.id sel =? id then
    merge sel
      {| u_id := None; u_x := Some (Double.add (SelectionArea.x sel) dx);
         u_y := Some (Double.add (SelectionArea.y sel) dy); u_w := None; u_h := None;
         u_type := None; u_replacementImage := None; u_imageRotation := None;
         u_imageFlipX := None; u_imageFlipY := None; u_textColor := None;
         u_textBgColor := None; u_fontSize := None; u_fontWeight := None;
         u_textAlign := None; u_fontFamily := None; u_textRotation := None;
         u_autoFitWidth := None |}
  else sel.

(** [onMouseMove]. While a region is being drawn the handler only repaints
    the canvas with the preview rectangle. The displacement and the new
    position are computed in doubles, so the position after several moves
    carries the rounding of each. *)
Definition onMouseMove (s : t) (x y : Q) : t :=
  match canvasRef (app s) with
  | None => s
  | Some _ =>
      match isMoving (app s), selectedId s with
      | true, Some (id, kind) =>
          let dx := Double.sub x (fst (startPos (app s))) in
          let dy := Double.sub y (snd (startPos (app s))) in
          let moved :=
            match kind with
            | on_sticker =>
                set_stickers (map (move_sticker id dx dy) (stickers (app s))) (app s)
            | on_text =>
                set_customTexts (map (move_text id dx dy) (customTexts (app s))) (app s)
            | on_selection =>
                set_selections (map (move_selection id dx dy) (selections (app s)))
                  (app s)
            end in
          mk (set_startPos (x, y) moved) (selectedId s) (eyedropperMode s)
      | _, _ => s
      end
  end.

(** [onMouseUp], on the component state. *)
Definition onMouseUp (M : MathLib) (s : t) (x y : Q) (now : Z) : t :=
  with_app (fun st => Pointer.onMouseUp M st x y now) s.

(** A session around a render, with nothing selected. *)
Definition idle (st : App.state) : t :=
  mk st None (mkEyedropper false None target_text).

(** A flipped and an unflipped sticker of 40 x 20 at (100, 100). *)
Definition flipped_sticker : Sticker.t :=
  Sticker.mk 11 "data:image/png;base64,CC==" 100 100 40 20 30 true 1 1.
Definition upright_sticker : Sticker.t :=
  Sticker.mk 12 "data:image/png;base64,DD==" 100 100 40 20 30 false 1 1.

End Session.

(* ===================================================================== *)
(** ** The editor as a machine *)

Module Editor.
Import App SceneOps.

(** The update [pickColor] applies for a colour and a target. *)
Definition colour_update (target : Session.ColorTarget) (hex : string)
  : SelectionUpdates :=
  match target with
  | Session.target_text =>
      mkUpdates None None None None None None None None None None
        (Some hex) None None None None None None None
  | Session.target_bg =>
      mkUpdates None None None None None None None None None None
        None (Some hex) None None None None None None
  end.

(** [setDrawMode] *)
Definition set_drawMode (kind : SelectionType) (st : state) : state := {|
  selections := selections st; replacements := replacements st;
  stickers := stickers st; customTexts := customTexts st;
  history := history st; historyIndex := historyIndex st;
  drawMode := kind; autoAnalyzeEnabled := autoAnalyzeEnabled st;
  manualKey := manualKey st; originalImageData := originalImageData st;
  canvasRef := canvasRef st; originalCanvasRef := originalCanvasRef st;
  isDrawing := isDrawing st; isMoving := isMoving st; startPos := startPos st;
  stickerImagesRef := stickerImagesRef st;
  replacementImagesRef := replacementImagesRef st
|}.

(** The [onload] of [loadImage], and the end of [renderPdfPage]: the source
    raster is installed and the scene and the history are cleared. *)
Definition load (source : OriginalCanvas) (imageData : ImageData) (st : state)
  : state :=
  History.reset {|
    selections := selections st; replacements := replacements st;
    stickers := stickers st; customTexts := customTexts st;
    history := history st; historyIndex := historyIndex st;
    drawMode := drawMode st; autoAnalyzeEnabled := autoAnalyzeEnabled st;
    manualKey := manualKey st; originalImageData := Some imageData;
    canvasRef := canvasRef st; originalCanvasRef := Some source;
    isDrawing := isDrawing st; isMoving := isMoving st; startPos := startPos st;
    stickerImagesRef := stickerImagesRef st;
    replacementImagesRef := replacementImagesRef st
  |}.

(** The [onload] in the effect on [image]: the live canvas takes the size
    of the source raster. *)
Definition canvas_resized (st : state) : state :=
  match originalCanvasRef st with
  | None => st
  | Some source => {|
      selections := selections st; replacements := replacements st;
      stickers := stickers st; customTexts := customTexts st;
      history := history st; historyIndex := historyIndex st;
      drawMode := drawMode st; autoAnalyzeEnabled := autoAnalyzeEnabled st;
      manualKey := manualKey st; originalImageData := originalImageData st;
      canvasRef := Some (canvasWidth source, canvasHeight source);
      originalCanvasRef := originalCanvasRef st;
      isDrawing := isDrawing st; isMoving := isMoving st; startPos := startPos st;
      stickerImagesRef := stickerImagesRef st;
      replacementImagesRef := replacementImagesRef st
    |}
  end.

(** What the user and the browser can do to the editor between two
    renders. [StickerLoaded age ...] is the [onload] of a sticker upload
    that began [age] renders ago. *)
Inductive event : Type :=
| MouseDown (x y : Q)
| MouseMove (x y : Q)
| MouseUp (x y : Q) (now : Z)
| SetDrawMode (kind : SelectionType)
| RemoveSelection (id : Z)
| UpdateSelection (id : Z) (u : SelectionUpdates)
| Reanalyze (id : Z)
| TypeReplacement (id : Z) (value : string)
| ReplacementLoaded (id : Z) (dataUrl : string) (img : ImageData)
| StickerLoaded (age : nat) (now : Z) (dataUrl : string) (img : ImageData)
| RemoveSticker (id : Z)
| AddCustomText (now : Z)
| RemoveCustomText (id : Z)
| Undo
| Redo
| Load (source : OriginalCanvas) (imageData : ImageData)
| CanvasResized.

(** The session, and the renders before it, latest first. *)
Definition machine : Type := Session.t * list App.state.

Definition step (B : Canvas.Browser) (m : machine) (e : event) : machine :=
  let '(s, past) := m in
  let renders := Session.app s :: past in
  let s' :=
    match e with
    | MouseDown x y => Session.onMouseDown B s x y
    | MouseMove x y => Session.onMouseMove s x y
    | MouseUp x y now => Session.onMouseUp (Canvas.math B) s x y now
    | SetDrawMode kind => Session.with_app (set_drawMode kind) s
    | RemoveSelection id => Session.with_app (removeSelection id) s
    | UpdateSelection id u => Session.with_app (updateSelection id u) s
    | Reanalyze id => Session.with_app (reanalyzeSelection (Canvas.math B) id) s
    | TypeReplacement id value => Session.with_app (type_replacement id value) s
    | ReplacementLoaded id dataUrl img =>
        Session.with_app (replacement_loaded id dataUrl img) s
    | StickerLoaded age now dataUrl img =>
        Session.with_app
          (sticker_loaded (nth age renders (Session.app s)) now dataUrl img) s
    | RemoveSticker id => Session.with_app (removeSticker id) s
    | AddCustomText now => Session.with_app (addCustomText now) s
    | RemoveCustomText id => Session.with_app (removeCustomText id) s
    | Undo => Session.with_app History.undo s
    | Redo => Session.with_app History.redo s
    | Load source imageData => Session.with_app (load source imageData) s
    | CanvasResized => Session.with_app canvas_resized s
    end in
  (s', renders).

Definition run (B : Canvas.Browser) (events : list event) (m : machine) : machine :=
  fold_left (step B) events m.

(** The editor on its first render. *)
Definition start : machine := (Session.idle App.initial, []).

(** What holds of every render of a run: the bound on the regions, now and
    in all earlier renders. *)
Definition invariant (m : machine) : Prop :=
  bounded (Session.app (fst m)) /\ Forall bounded (snd m).

(** A source raster of 400 x 300 in one colour, and eleven drags of
    30 x 30 along a row after it is loaded. *)
Definition blank_source : OriginalCanvas :=
  Analyzer.uniform_canvas 400 300 Analyzer.white.

Definition drag (i : Z) : list event :=
  [MouseDown (inject_Z (35 * i)) 10; MouseUp (inject_Z (35 * i + 30)) 40 (1000 + i)].

Definition eleven_drags : list event :=
  [Load blank_source (mkImageData 400 300 (repeat Analyzer.white (400 * 300)%nat));
   CanvasResized]
  ++ flat_map drag [0; 1; 2; 3; 4; 5; 6; 7; 8; 9; 10].

End Editor.

(* ===================================================================== *)
(** * Properties *)

(** ** Comparisons *)

Lemma Qgtb_true (a b : Q) : Qgtb a b = true <-> (b < a)%Q.
Proof.
  unfold Qgtb. rewrite negb_true_iff. split; intro H.
  - apply Qnot_le_lt. intro Hle. apply Qle_bool_iff in Hle. congruence.
  - destruct (Qle_bool a b) eqn:E; [|reflexivity].
    apply Qle_bool_iff in E. exfalso. apply (Qlt_not_le _ _ H E).
Qed.

Lemma Qgtb_false (a b : Q) : Qgtb a b = false <-> (a <= b)%Q.
Proof.
  unfold Qgtb. rewrite negb_false_iff. apply Qle_bool_iff.
Qed.

Lemma Qltb_true (a b : Q) : Qltb a b = true <-> (a < b)%Q.
Proof. unfold Qltb. apply (Qgtb_true b a). Qed.

Lemma Qltb_false (a b : Q) : Qltb a b = false <-> (b <= a)%Q.
Proof. unfold Qltb. apply (Qgtb_false b a). Qed.

(* ===================================================================== *)
(** ** Rounding to binary64 *)

Module DoubleFacts.
Import Double.

Lemma nearest_even_close (q : Q) :
  (q - (1 # 2) <= inject_Z (nearest_even q) <= q + (1 # 2))%Q.
Proof.
  unfold nearest_even.
  pose proof (Qfloor_le q) as Hlo. pose proof (Qlt_floor q) as Hhi.
  set (f := Qfloor q) in *. clearbody f.
  assert (Hs : inject_Z (f + 1) = (inject_Z f + 1)%Q) by apply inject_Z_plus.
  rewrite Hs in Hhi.
  destruct (Qcompare (q - inject_Z f) (1 # 2)) eqn:E.
  - apply Qeq_alt in E. destruct (Z.even f); [|rewrite Hs]; lra.
  - apply Qlt_alt in E. lra.
  - apply Qgt_alt in E. rewrite Hs. lra.
Qed.

Lemma nearest_even_nonneg (q : Q) : (0 <= q)%Q -> 0 <= nearest_even q.
Proof.
  intros H. unfold nearest_even.
  assert (Hf : 0 <= Qfloor q).
  { change 0 with (Qfloor 0). now apply Qfloor_resp_le. }
  destruct (Qcompare _ _); [destruct (Z.even _)| |]; lia.
Qed.

Lemma pow2_pos (e : Z) : (0 < pow2 e)%Q.
Proof. apply Qpower_0_lt. reflexivity. Qed.

Lemma pow2_plus (a b : Z) : (pow2 (a + b) == pow2 a * pow2 b)%Q.
Proof. apply Qpower_plus. discriminate. Qed.

Lemma pow2_Z (n : Z) : 0 <= n -> (inject_Z (2 ^ n) == pow2 n)%Q.
Proof. intros H. unfold pow2. now rewrite Zpower_Qpower. Qed.

Lemma exponent_le (a : Q) : (0 < a)%Q -> (pow2 (exponent a) <= a)%Q.
Proof.
  intros Ha. unfold exponent.
  set (ln := Z.log2 (Qnum a)). set (ld := Z.log2 (Z.pos (Qden a))).
  destruct (Qle_bool (pow2 (ln - ld)) a) eqn:E; [now apply Qle_bool_iff|].
  assert (Hn : 0 < Qnum a).
  { destruct a as [n d]. unfold Qlt in Ha. cbn in *. lia. }
  assert (Hln : 0 <= ln) by apply Z.log2_nonneg.
  assert (Hld : 0 <= ld) by apply Z.log2_nonneg.
  pose proof (Z.log2_spec (Qnum a) Hn) as [Hn1 _]. fold ln in Hn1.
  pose proof (Z.log2_spec (Z.pos (Qden a)) ltac:(lia)) as [_ Hd2]. fold ld in Hd2.
  replace (ln - ld - 1) with (ln + - (ld + 1)) by lia.
  rewrite pow2_plus. unfold pow2 at 2. rewrite Qpower_opp. fold (pow2 (ld + 1)).
  rewrite <- !pow2_Z by lia.
  assert (Hp : 0 < 2 ^ (ld + 1)) by (apply Z.pow_pos_nonneg; lia).
  unfold Z.succ in Hd2.
  set (pn := 2 ^ ln) in *. set (pd := 2 ^ (ld + 1)) in *. clearbody pn pd.
  destruct a as [n d]. cbn [Qnum Qden] in *.
  apply Qle_shift_div_r.
  - change 0%Q with (inject_Z 0). rewrite <- Zlt_Qlt. exact Hp.
  - unfold Qle, Qmult, inject_Z. cbn. nia.
Qed.

Lemma Qabs_nonneg_eq (q : Q) : (0 <= q)%Q -> Qabs q = q.
Proof.
  destruct q as [n d]. unfold Qle. cbn. intros H. unfold Qabs.
  f_equal. apply Z.abs_eq. lia.
Qed.

(** The rounding error for a number that is not negative: half a unit in
    the last place, which is at most [2^-53] of the number, or [2^-1075]
    among the subnormal numbers. *)
Lemma fl_error (q : Q) :
  (0 <= q)%Q ->
  (q - (q * pow2 (-53) + pow2 (-1075)) <= fl q
   <= q + (q * pow2 (-53) + pow2 (-1075)))%Q.
Proof.
  intros Hq. unfold fl.
  destruct (Qeq_bool q 0) eqn:E0.
  - apply Qeq_bool_iff in E0. pose proof (pow2_pos (-1075)). rewrite E0. lra.
  - assert (Hpos : (0 < q)%Q).
    { apply Qeq_bool_neq in E0. lra. }
    rewrite (Qabs_nonneg_eq q Hq).
    assert (Hle : Qle_bool 0 q = true) by now apply Qle_bool_iff.
    rewrite Hle, Qred_correct.
    pose proof (exponent_le q Hpos) as He.
    set (e := exponent q) in *. clearbody e.
    set (k := Z.max (e - 52) (-1074)).
    pose proof (pow2_pos k) as Hk.
    pose proof (nearest_even_close (q / pow2 k)) as Hm.
    set (m := inject_Z (nearest_even (q / pow2 k))) in *. clearbody m.
    assert (Hdiv : (q / pow2 k * pow2 k == q)%Q) by (field; lra).
    assert (Hhalf : (pow2 k * (1 # 2) <= q * pow2 (-53) + pow2 (-1075))%Q).
    { assert (H52 : (pow2 (e - 52) * (1 # 2) == pow2 e * pow2 (-53))%Q).
      { replace (e - 52) with (e + -52) by lia. rewrite pow2_plus.
        assert (Hc : (pow2 (-52) * (1 # 2) == pow2 (-53))%Q) by reflexivity.
        rewrite <- Hc. ring. }
      assert (H74 : (pow2 (-1074) * (1 # 2) == pow2 (-1075))%Q) by reflexivity.
      pose proof (pow2_pos (-53)) as H53. pose proof (pow2_pos (-1075)) as H75.
      pose proof (pow2_pos e) as Hpe.
      assert (Hprod : (pow2 e * pow2 (-53) <= q * pow2 (-53))%Q).
      { apply Qmult_le_compat_r; lra. }
      assert (Hnn : (0 <= q * pow2 (-53))%Q).
      { apply Qmult_le_0_compat; lra. }
      subst k. destruct (Z.max_spec (e - 52) (-1074)) as [[_ ->]|[_ ->]].
      - rewrite H74. lra.
      - rewrite H52. lra. }
    set (p := pow2 k) in *. set (qd := (q / p)%Q) in *. clearbody p qd.
    set (bound := (q * pow2 (-53) + pow2 (-1075))%Q) in *. clearbody bound.
    assert (H1 : ((qd - (1 # 2)) * p <= m * p)%Q) by (apply Qmult_le_compat_r; lra).
    assert (H2 : (m * p <= (qd + (1 # 2)) * p)%Q) by (apply Qmult_le_compat_r; lra).
    assert (E1 : ((qd - (1 # 2)) * p == q - p * (1 # 2))%Q) by (rewrite <- Hdiv; ring).
    assert (E2 : ((qd + (1 # 2)) * p == q + p * (1 # 2))%Q) by (rewrite <- Hdiv; ring).
    rewrite E1 in H1. rewrite E2 in H2. lra.
Qed.

Lemma fl_nonneg (q : Q) : (0 <= q)%Q -> (0 <= fl q)%Q.
Proof.
  intros Hq. unfold fl. destruct (Qeq_bool q 0); [lra|].
  assert (Hle : Qle_bool 0 q = true) by now apply Qle_bool_iff.
  rewrite Hle, Qred_correct, (Qabs_nonneg_eq q Hq).
  apply Qmult_le_0_compat.
  - change 0%Q with (inject_Z 0). rewrite <- Zle_Qle. apply nearest_even_nonneg.
    apply Qle_shift_div_l; [apply pow2_pos|]. lra.
  - apply Qlt_le_weak, pow2_pos.
Qed.

(** A cruder bound that is easier to compute with. *)
Lemma fl_near (q : Q) :
  (0 <= q)%Q -> (q - (q + 1) * eps <= fl q <= q + (q + 1) * eps)%Q.
Proof.
  intros Hq. pose proof (fl_error q Hq) as H.
  assert (H53 : (pow2 (-53) <= eps)%Q) by (vm_compute; intro C; discriminate C).
  assert (H75 : (pow2 (-1075) <= eps)%Q) by (vm_compute; intro C; discriminate C).
  pose proof (pow2_pos (-53)) as P53.
  assert (Hprod : (q * pow2 (-53) <= q * eps)%Q).
  { rewrite !(Qmult_comm q). apply Qmult_le_compat_r; lra. }
  set (a := pow2 (-53)) in *. set (b := pow2 (-1075)) in *.
  set (qa := (q * a)%Q) in *. clearbody qa a b. unfold eps in *. lra.
Qed.

End DoubleFacts.

(* ===================================================================== *)
(** ** Text layout *)

Module TextLayoutFacts.
Import TextLayout.

Lemma append_nil_l (s : string) : "" +:+ s = s.
Proof. reflexivity. Qed.

Lemma append_cons (c : ascii) (s t : string) :
  String c s +:+ t = String c (s +:+ t).
Proof. reflexivity. Qed.

Lemma append_empty_r (s : string) : s +:+ "" = s.
Proof.
  induction s as [|c s IH]; [reflexivity|].
  now rewrite append_cons, IH.
Qed.

Lemma append_assoc (a b c : string) : (a +:+ b) +:+ c = a +:+ (b +:+ c).
Proof.
  induction a as [|x a IH]; [reflexivity|].
  now rewrite !append_cons, IH.
Qed.

Lemma append_char_nonempty (s : string) (c : ascii) :
  (s +:+ String c "" =? "")%string = false.
Proof. destruct s; reflexivity. Qed.

Lemma join_empty_snoc (ls : list string) (l : string) :
  join_empty (ls ++ [l]) = join_empty ls +:+ l.
Proof.
  induction ls as [|x ls IH]; simpl.
  - now rewrite append_empty_r.
  - now rewrite IH, append_assoc.
Qed.

Lemma join_empty_app (xs ys : list string) :
  join_empty (xs ++ ys) = join_empty xs +:+ join_empty ys.
Proof.
  induction xs as [|x xs IH]; simpl; [reflexivity|].
  now rewrite IH, append_assoc.
Qed.

Lemma split_newline_nonempty (text : string) : split_newline text <> [].
Proof.
  destruct text as [|c rest]; simpl; [discriminate|].
  destruct (Ascii.eqb c newline); [discriminate|].
  destruct (split_newline rest); discriminate.
Qed.

Lemma join_empty_split (text : string) :
  join_empty (split_newline text) = strip_newlines text.
Proof.
  induction text as [|c rest IH]; simpl; [reflexivity|].
  destruct (Ascii.eqb c newline); simpl; [exact IH|].
  destruct (split_newline rest) as [|p ps] eqn:E.
  - now destruct (split_newline_nonempty rest).
  - simpl in *. now rewrite append_cons, IH.
Qed.

Lemma join_split (text : string) : join_newline (split_newline text) = text.
Proof.
  induction text as [|c rest IH]; simpl; [reflexivity|].
  destruct (Ascii.eqb c newline) eqn:Ec.
  - apply Ascii.eqb_eq in Ec. subst c.
    destruct (split_newline rest) as [|p ps] eqn:E.
    + now destruct (split_newline_nonempty rest).
    + simpl. now rewrite <- IH.
  - destruct (split_newline rest) as [|p ps] eqn:E.
    + now destruct (split_newline_nonempty rest).
    + rewrite <- IH. destruct ps; reflexivity.
Qed.

Section WrapFacts.
Variable measureText : string -> Q.
Variable maxWidth : Q.

Local Abbreviation wrap_char := (wrap_char measureText maxWidth).
Local Abbreviation wrap_paragraph := (wrap_paragraph measureText maxWidth).
Local Abbreviation wrap := (wrapTextWithNewlines measureText maxWidth).
Local Abbreviation settled := (TextLayout.settled measureText maxWidth).

(** The character loop neither loses nor invents characters. *)
Lemma wrap_char_fold_flat (cs : list ascii) :
  forall (allLines : list string) (cur : string),
    let r := fold_left wrap_char cs (allLines, cur) in
    join_empty (fst r) +:+ snd r
    = join_empty allLines +:+ (cur +:+ string_of_list_ascii cs).
Proof.
  induction cs as [|c cs IH]; intros allLines cur; simpl.
  - now rewrite append_empty_r.
  - destruct (Qgtb (measureText (cur +:+ String c "")) maxWidth
              && negb (cur =? "")%string).
    + rewrite IH, join_empty_snoc, append_assoc. reflexivity.
    + rewrite IH, append_assoc. reflexivity.
Qed.

Lemma wrap_paragraph_flat (allLines : list string) (paragraph : string) :
  join_empty (wrap_paragraph allLines paragraph)
  = join_empty allLines +:+ paragraph.
Proof.
  unfold TextLayout.wrap_paragraph.
  destruct (String.eqb_spec paragraph "") as [->|Hne].
  - now rewrite join_empty_snoc.
  - pose proof (wrap_char_fold_flat (list_ascii_of_string paragraph) allLines "") as H.
    simpl in H. rewrite string_of_list_ascii_of_string in H.
    destruct (fold_left wrap_char (list_ascii_of_string paragraph) (allLines, ""))
      as [ls cur]; simpl in H.
    destruct (String.eqb_spec cur "") as [->|Hc].
    + now rewrite append_empty_r in H.
    + now rewrite join_empty_snoc.
Qed.

Lemma wrap_paragraphs_flat (ps : list string) :
  forall allLines,
    join_empty (fold_left wrap_paragraph ps allLines)
    = join_empty allLines +:+ join_empty ps.
Proof.
  induction ps as [|p ps IH]; intros allLines; simpl.
  - now rewrite append_empty_r.
  - now rewrite IH, wrap_paragraph_flat, append_assoc.
Qed.

(** C10: the lines returned by [wrapTextWithNewlines], concatenated in
    order, are the input text with its line-break characters removed. *)
Theorem wrap_preserves_characters (text : string) :
  join_empty (wrap text) = strip_newlines text.
Proof.
  unfold wrapTextWithNewlines.
  rewrite wrap_paragraphs_flat. simpl. apply join_empty_split.
Qed.

(** *** Lines the greedy loop leaves alone *)

Lemma wrap_char_fold_unbroken (cs : list ascii) :
  forall (allLines : list string) (cur : string),
    prefixes_fit measureText maxWidth cur cs = true ->
    fold_left wrap_char cs (allLines, cur)
    = (allLines, cur +:+ string_of_list_ascii cs).
Proof.
  induction cs as [|c cs IH]; intros allLines cur H.
  - simpl. now rewrite append_empty_r.
  - cbn [prefixes_fit] in H. apply andb_true_iff in H as [H1 H2].
    assert (E : Qgtb (measureText (cur +:+ String c "")) maxWidth
                && negb (cur =? "")%string = false).
    { apply orb_true_iff in H1 as [H1|H1].
      - rewrite H1. apply andb_false_r.
      - apply Qle_bool_iff, Qgtb_false in H1. now rewrite H1. }
    cbn [fold_left TextLayout.wrap_char]. rewrite E, (IH _ _ H2).
    cbn [string_of_list_ascii].
    now rewrite append_assoc, append_cons, append_nil_l.
Qed.

Lemma wrap_paragraph_unbroken (allLines : list string) (line : string) :
  unbroken measureText maxWidth line = true ->
  wrap_paragraph allLines line = allLines ++ [line].
Proof.
  intros H. unfold TextLayout.wrap_paragraph.
  destruct (String.eqb_spec line "") as [->|Hne]; [reflexivity|].
  rewrite (wrap_char_fold_unbroken _ allLines "" H).
  rewrite append_nil_l, string_of_list_ascii_of_string.
  destruct (String.eqb_spec line ""); [contradiction | reflexivity].
Qed.

Lemma wrap_paragraphs_unbroken (ps : list string) :
  forall allLines,
    forallb (unbroken measureText maxWidth) ps = true ->
    fold_left wrap_paragraph ps allLines = allLines ++ ps.
Proof.
  induction ps as [|p ps IH]; intros allLines H; simpl.
  - now rewrite app_nil_r.
  - simpl in H. apply andb_true_iff in H as [Hp Hps].
    rewrite (wrap_paragraph_unbroken _ _ Hp), (IH _ Hps), <- app_assoc.
    reflexivity.
Qed.

(** C8 (amended): when every prefix of two or more characters of each
    explicit-break-separated line of a text measures at most [maxWidth],
    rejoining those lines with line breaks and wrapping the result returns
    exactly those lines, for every measurement function and [maxWidth]. *)
Theorem wrap_unbroken_lines_fixed (text : string) :
  forallb (unbroken measureText maxWidth) (split_newline text) = true ->
  wrap (join_newline (split_newline text)) = split_newline text.
Proof.
  intros H. rewrite join_split. unfold wrapTextWithNewlines.
  now rewrite (wrap_paragraphs_unbroken _ [] H).
Qed.

(** *** Wrapping what was wrapped *)

Lemma list_ascii_of_string_snoc (s : string) (c : ascii) :
  list_ascii_of_string (s +:+ String c "") = list_ascii_of_string s ++ [c].
Proof.
  induction s as [|x s IH]; [reflexivity|].
  rewrite append_cons. simpl. now rewrite IH.
Qed.

Lemma prefixes_fit_snoc (r : list ascii) (c : ascii) :
  forall a : string,
    prefixes_fit measureText maxWidth a (r ++ [c])
    = prefixes_fit measureText maxWidth a r
      && ((a +:+ string_of_list_ascii r =? "")%string
          || Qle_bool (measureText ((a +:+ string_of_list_ascii r) +:+ String c ""))
               maxWidth).
Proof.
  induction r as [|x r IH]; intros a.
  - cbn [app prefixes_fit string_of_list_ascii].
    now rewrite append_empty_r, andb_true_r.
  - cbn [app prefixes_fit string_of_list_ascii]. rewrite IH.
    rewrite append_assoc, append_cons, append_nil_l.
    now rewrite andb_assoc.
Qed.

Lemma has_newline_snoc (s : string) (c : ascii) :
  has_newline (s +:+ String c "") = has_newline s || Ascii.eqb c newline.
Proof.
  induction s as [|x s IH].
  - simpl. now rewrite orb_false_r.
  - rewrite append_cons. simpl. now rewrite IH, orb_assoc.
Qed.

Lemma settled_empty : settled "".
Proof. split; reflexivity. Qed.

Lemma wrap_char_settled (c : ascii) (allLines : list string) (cur : string) :
  Ascii.eqb c newline = false ->
  Forall settled allLines -> settled cur ->
  Forall settled (fst (wrap_char (allLines, cur) c))
  /\ settled (snd (wrap_char (allLines, cur) c)).
Proof.
  intros Hc HL [Hu Hn]. cbn [TextLayout.wrap_char].
  destruct (Qgtb (measureText (cur +:+ String c "")) maxWidth
            && negb (cur =? "")%string) eqn:E; cbn [fst snd].
  - split.
    + apply Forall_app; split; [exact HL|]. constructor; [now split | constructor].
    + split; [reflexivity|]. simpl. now rewrite Hc.
  - split; [exact HL|]. split.
    + unfold unbroken in *. rewrite list_ascii_of_string_snoc, prefixes_fit_snoc.
      rewrite Hu, append_nil_l, string_of_list_ascii_of_string. cbn [andb].
      apply andb_false_iff in E as [E|E].
      * apply Qgtb_false, Qle_bool_iff in E. rewrite E. apply orb_true_r.
      * apply negb_false_iff in E. now rewrite E.
    + now rewrite has_newline_snoc, Hn, Hc.
Qed.

Lemma wrap_char_fold_settled (cs : list ascii) :
  forall (allLines : list string) (cur : string),
    forallb (fun c => negb (Ascii.eqb c newline)) cs = true ->
    Forall settled allLines -> settled cur ->
    Forall settled (fst (fold_left wrap_char cs (allLines, cur)))
    /\ settled (snd (fold_left wrap_char cs (allLines, cur))).
Proof.
  induction cs as [|c cs IH]; intros allLines cur Hcs HL Hcur.
  - now split.
  - cbn [forallb] in Hcs. apply andb_true_iff in Hcs as [Hc Hcs].
    apply negb_true_iff in Hc.
    destruct (wrap_char_settled c allLines cur Hc HL Hcur) as [H1 H2].
    cbn [fold_left].
    destruct (wrap_char (allLines, cur) c) as [L' cur'].
    now apply IH.
Qed.

Lemma has_newline_chars (s : string) :
  has_newline s = false ->
  forallb (fun c => negb (Ascii.eqb c newline)) (list_ascii_of_string s) = true.
Proof.
  induction s as [|c s IH]; intros H; [reflexivity|].
  simpl in *. apply orb_false_iff in H as [H1 H2].
  now rewrite H1, IH.
Qed.

Lemma wrap_paragraph_settled (allLines : list string) (paragraph : string) :
  has_newline paragraph = false ->
  Forall settled allLines ->
  Forall settled (wrap_paragraph allLines paragraph).
Proof.
  intros Hp HL. unfold TextLayout.wrap_paragraph.
  destruct (paragraph =? "")%string.
  - apply Forall_app; split; [exact HL|].
    constructor; [exact settled_empty | constructor].
  - destruct (wrap_char_fold_settled (list_ascii_of_string paragraph)
                allLines "" (has_newline_chars _ Hp) HL settled_empty) as [H1 H2].
    destruct (fold_left wrap_char (list_ascii_of_string paragraph) (allLines, ""))
      as [L' cur']. cbn [fst snd] in *.
    destruct (cur' =? "")%string; [exact H1|].
    apply Forall_app; split; [exact H1|]. constructor; [exact H2 | constructor].
Qed.

Lemma wrap_paragraph_nonempty (allLines : list string) (paragraph : string) :
  wrap_paragraph allLines paragraph <> [].
Proof.
  unfold TextLayout.wrap_paragraph.
  destruct (String.eqb_spec paragraph "") as [->|Hne].
  - intros H. now apply app_eq_nil in H as [_ H].
  - destruct paragraph as [|c rest]; [contradiction|].
    destruct (list_ascii_of_string (String c rest)) as [|x xs] eqn:Ex;
      [discriminate|].
    destruct (@exists_last _ (x :: xs)) as [front [z Ez]]; [discriminate|].
    rewrite Ez, fold_left_app. cbn [fold_left].
    destruct (fold_left wrap_char front (allLines, "")) as [L cur].
    cbn [TextLayout.wrap_char].
    destruct (Qgtb (measureText (cur +:+ String z "")) maxWidth
              && negb (cur =? "")%string).
    + cbn [String.eqb]. intros H. now apply app_eq_nil in H as [_ H].
    + rewrite append_char_nonempty. intros H. now apply app_eq_nil in H as [_ H].
Qed.

Lemma wrap_paragraphs_settled (ps : list string) :
  forall allLines,
    Forall (fun p => has_newline p = false) ps ->
    Forall settled allLines ->
    Forall settled (fold_left wrap_paragraph ps allLines).
Proof.
  induction ps as [|p ps IH]; intros allLines Hps HL; [exact HL|].
  inversion Hps; subst. cbn [fold_left].
  apply IH; [assumption|]. now apply wrap_paragraph_settled.
Qed.

Lemma wrap_paragraphs_nonempty (ps : list string) (allLines : list string) :
  ps <> [] -> fold_left wrap_paragraph ps allLines <> [].
Proof.
  intros Hps. destruct (@exists_last _ ps Hps) as [front [z ->]].
  rewrite fold_left_app. cbn [fold_left]. apply wrap_paragraph_nonempty.
Qed.
End WrapFacts.


Lemma split_newline_pieces (text : string) :
  Forall (fun p => has_newline p = false) (split_newline text).
Proof.
  induction text as [|c rest IH]; simpl.
  - constructor; [reflexivity | constructor].
  - destruct (Ascii.eqb c newline) eqn:Ec.
    + constructor; [reflexivity | exact IH].
    + destruct (split_newline rest) as [|p ps].
      * constructor; [|constructor]. simpl. now rewrite Ec.
      * inversion IH; subst. constructor; [|assumption].
        simpl. now rewrite Ec.
Qed.

Lemma split_line_then_break (l rest : string) :
  has_newline l = false ->
  split_newline (l +:+ String newline rest) = l :: split_newline rest.
Proof.
  induction l as [|c l IH]; intros H.
  - reflexivity.
  - simpl in H. apply orb_false_iff in H as [Hc Hl].
    rewrite append_cons. cbn [split_newline]. rewrite Hc, (IH Hl). reflexivity.
Qed.

Lemma split_single_line (l : string) :
  has_newline l = false -> split_newline l = [l].
Proof.
  induction l as [|c l IH]; intros H; [reflexivity|].
  simpl in H. apply orb_false_iff in H as [Hc Hl].
  cbn [split_newline]. now rewrite Hc, (IH Hl).
Qed.

Lemma split_join (ls : list string) :
  ls <> [] -> Forall (fun p => has_newline p = false) ls ->
  split_newline (join_newline ls) = ls.
Proof.
  induction ls as [|l ls IH]; intros Hne H; [contradiction|].
  inversion H as [|? ? Hl Hls]; subst.
  destruct ls as [|l2 ls'].
  - now apply split_single_line.
  - cbn [join_newline]. rewrite (split_line_then_break _ _ Hl).
    f_equal. apply IH; [discriminate | assumption].
Qed.

(** X9: wrapping is idempotent for every measurement function: the lines
    it returns, rejoined with line breaks, wrap to themselves. *)
Lemma wrap_idempotent (measureText : string -> Q) (maxWidth : Q) (text : string) :
  wrapTextWithNewlines measureText maxWidth
    (join_newline (wrapTextWithNewlines measureText maxWidth text))
  = wrapTextWithNewlines measureText maxWidth text.
Proof.
  set (ls := wrapTextWithNewlines measureText maxWidth text).
  assert (Hs : Forall (TextLayout.settled measureText maxWidth) ls).
  { apply wrap_paragraphs_settled; [apply split_newline_pieces | constructor]. }
  assert (Hne : ls <> []).
  { apply wrap_paragraphs_nonempty, split_newline_nonempty. }
  assert (Hsplit : split_newline (join_newline ls) = ls).
  { apply split_join; [exact Hne|].
    eapply Forall_impl; [exact Hs|]. now intros l [_ Hl]. }
  unfold wrapTextWithNewlines at 1. rewrite Hsplit.
  rewrite wrap_paragraphs_unbroken; [reflexivity|].
  apply forallb_forall. intros l Hl.
  rewrite List.Forall_forall in Hs. now destruct (Hs l Hl).
Qed.

(** Under a measurement that never shrinks when a character is appended, a
    line that fits has only prefixes that fit. *)
Lemma monotone_prefixes_fit (measureText : string -> Q) (maxWidth : Q) :
  monotone_measure measureText ->
  forall (cs : list ascii) (cur : string),
    (measureText (cur +:+ string_of_list_ascii cs) <= maxWidth)%Q ->
    prefixes_fit measureText maxWidth cur cs = true.
Proof.
  intros Hm. induction cs as [|c cs IH]; intros cur H; [reflexivity|].
  cbn [prefixes_fit string_of_list_ascii] in *.
  assert (H' : (measureText ((cur +:+ String c "") +:+ string_of_list_ascii cs)
                <= maxWidth)%Q).
  { now rewrite append_assoc, append_cons, append_nil_l. }
  rewrite (IH _ H'), andb_true_r. apply orb_true_iff. right.
  apply Qle_bool_iff. eapply Qle_trans; [|exact H'].
  clear -Hm. induction cs as [|x cs IHc] using rev_ind.
  - cbn [string_of_list_ascii]. rewrite append_empty_r. apply Qle_refl.
  - eapply Qle_trans; [exact IHc|].
    assert (E : string_of_list_ascii (cs ++ [x])
                = string_of_list_ascii cs +:+ String x "").
    { clear. induction cs as [|y cs IH]; [reflexivity|].
      simpl. now rewrite IH. }
    rewrite E, <- append_assoc. apply Hm.
Qed.


(** X10: under a measurement that never shrinks when a character is
    appended, lines that each measure at most [maxWidth] wrap to
    themselves. *)
Lemma wrap_monotone_lines_fixed (measureText : string -> Q) (maxWidth : Q)
    (text : string) :
  monotone_measure measureText ->
  (forall l, In l (split_newline text) -> (measureText l <= maxWidth)%Q) ->
  wrapTextWithNewlines measureText maxWidth (join_newline (split_newline text))
  = split_newline text.
Proof.
  intros Hm Hfit. rewrite join_split. unfold wrapTextWithNewlines.
  rewrite wrap_paragraphs_unbroken; [reflexivity|].
  apply forallb_forall. intros l Hl. unfold unbroken.
  apply (monotone_prefixes_fit _ _ Hm).
  rewrite append_nil_l, string_of_list_ascii_of_string. now apply Hfit.
Qed.

(** C8 as stated fails for a measurement that shrinks: with the pair [ab]
    12 units wide, [maxWidth] 10 and the one-line text [abc] (9 units), the
    loop breaks after [a]. *)
Lemma wrap_short_lines_counterexample :
  (forall l, In l (split_newline "abc") -> (contextual_pitch l <= 10)%Q)
  /\ wrapTextWithNewlines contextual_pitch 10
       (join_newline (split_newline "abc")) = ["a"; "bc"]
  /\ wrapTextWithNewlines contextual_pitch 10
       (join_newline (split_newline "abc")) <> split_newline "abc".
Proof.
  split; [|split].
  - intros l [<-|[]]. vm_compute. discriminate.
  - reflexivity.
  - vm_compute. discriminate.
Qed.

Lemma wrap_unbroken_lines_fixed_witness :
  forallb (unbroken fixed_pitch 10) (split_newline sample_text) = true
  /\ wrapTextWithNewlines fixed_pitch 10
       (join_newline (split_newline sample_text)) = ["abc"; "de"; ""; "f"].
Proof.
  split; [reflexivity|].
  exact (wrap_unbroken_lines_fixed fixed_pitch 10 sample_text eq_refl).
Defined.

End TextLayoutFacts.

(* ===================================================================== *)
(** ** History *)

Module HistoryFacts.
Import App History.

Lemma slice0_prefix {A : Type} (arr : list A) (e : Z) :
  0 <= e <= Z.of_nat (length arr) ->
  slice0 arr e = firstn (Z.to_nat e) arr.
Proof.
  intros H. unfold slice0.
  destruct (Z.ltb_spec e 0); [lia|].
  now rewrite Z.min_l by lia.
Qed.

Lemma index_valid {A : Type} (arr : list A) (i : Z) :
  0 <= i < Z.of_nat (length arr) -> exists a, index arr i = Some a.
Proof.
  intros H. unfold index. destruct (Z.ltb_spec i 0); [lia|].
  destruct (nth_error arr (Z.to_nat i)) eqn:E; [eauto|].
  apply nth_error_None in E. lia.
Qed.

Lemma addToHistory_spec (st : state) :
  -1 <= historyIndex st < Z.of_nat (length (history st)) ->
  history (addToHistory st)
  = firstn (Z.to_nat (historyIndex st + 1)) (history st) ++ [scene_of st]
  /\ historyIndex (addToHistory st) = historyIndex st + 1
  /\ historyIndex (addToHistory st)
     = Z.of_nat (length (history (addToHistory st))) - 1.
Proof.
  intros H. unfold addToHistory. cbn [history historyIndex set_history].
  rewrite slice0_prefix by lia.
  rewrite length_app, firstn_length_le by lia. cbn [length].
  repeat split; lia.
Qed.

Lemma cursor_ok_range (st : state) :
  cursor_ok st -> -1 <= historyIndex st < Z.of_nat (length (history st)).
Proof. intros [[-> ->]|H]; simpl; lia. Qed.

Lemma addToHistory_ok (st : state) : cursor_ok st -> cursor_ok (addToHistory st).
Proof.
  intros H. apply cursor_ok_range in H.
  destruct (addToHistory_spec st H) as (Hh & Hi & Hlen).
  right. lia.
Qed.

Lemma undo_spec (st : state) :
  cursor_ok st ->
  history (undo st) = history st
  /\ historyIndex (undo st)
     = (if 0 <? historyIndex st then historyIndex st - 1 else historyIndex st).
Proof.
  intros H. unfold undo. destruct (Z.ltb_spec 0 (historyIndex st)); [|now split].
  destruct H as [[? ?]|H]; [lia|].
  destruct (index_valid (history st) (historyIndex st - 1)) as [a ->]; [lia|].
  now split.
Qed.

Lemma redo_spec (st : state) :
  cursor_ok st ->
  history (redo st) = history st
  /\ historyIndex (redo st)
     = (if historyIndex st <? Z.of_nat (length (history st)) - 1
        then historyIndex st + 1 else historyIndex st).
Proof.
  intros H. unfold redo.
  destruct (Z.ltb_spec (historyIndex st) (Z.of_nat (length (history st)) - 1));
    [|now split].
  destruct H as [[Hi Hh]|H]; [rewrite Hh in *; simpl in *; lia|].
  destruct (index_valid (history st) (historyIndex st + 1)) as [a ->]; [lia|].
  now split.
Qed.

Lemma commit_from_ok (old st : state) : cursor_ok (commit_from old st).
Proof.
  right. unfold commit_from, addToHistory.
  cbn [history historyIndex set_history]. rewrite length_app. cbn [length]. lia.
Qed.

Lemma step_ok (st : state) (e : event) : cursor_ok st -> cursor_ok (step st e).
Proof.
  intros H. destruct e; cbn [step].
  - exact H.
  - now apply addToHistory_ok.
  - apply commit_from_ok.
  - destruct (undo_spec st H) as [Hh Hi]. unfold cursor_ok. rewrite Hh, Hi.
    destruct (Z.ltb_spec 0 (historyIndex st)); [|exact H].
    destruct H as [[? ?]|H]; [lia|]. right. lia.
  - destruct (redo_spec st H) as [Hh Hi]. unfold cursor_ok. rewrite Hh, Hi.
    destruct (Z.ltb_spec (historyIndex st) (Z.of_nat (length (history st)) - 1));
      [|exact H].
    destruct H as [[Hi' Hh']|H]; [rewrite Hh' in *; simpl in *; lia|]. right. lia.
  - left. now split.
Qed.

Lemma run_ok (events : list event) :
  forall st, cursor_ok st -> cursor_ok (run events st).
Proof.
  induction events as [|e events IH]; intros st H; [exact H|].
  apply IH, step_ok, H.
Qed.

(** C3: after any sequence of edits, commits (also from callbacks of
    earlier renders), undos, redos and reloads from the first render, the
    cursor is a valid index into the history, or [-1] exactly when the
    history is empty; [undo] changes the state exactly when the cursor is
    positive, [redo] exactly when it is below the last index. *)
Theorem history_cursor_invariant (events : list event) :
  let st := run events initial in
  (0 <= historyIndex st < Z.of_nat (length (history st))
   \/ historyIndex st = -1)
  /\ (historyIndex st = -1 <-> history st = [])
  /\ (undo st <> st <-> 0 < historyIndex st)
  /\ (redo st <> st <-> historyIndex st < Z.of_nat (length (history st)) - 1).
Proof.
  intros st.
  assert (Hok : cursor_ok st) by (apply run_ok; left; now split).
  destruct (undo_spec st Hok) as [_ Hu]. destruct (redo_spec st Hok) as [_ Hr].
  repeat split.
  - destruct Hok as [[? ?]|?]; [now right | now left].
  - intros Hi. destruct Hok as [[_ ?]|?]; [assumption | lia].
  - intros Hh. destruct Hok as [[? _]|H]; [assumption|].
    rewrite Hh in H. simpl in H. lia.
  - intros Hne. destruct (Z.ltb_spec 0 (historyIndex st)); [assumption|].
    exfalso. apply Hne. unfold undo.
    destruct (Z.ltb_spec 0 (historyIndex st)); [lia | reflexivity].
  - intros Hpos Heq. rewrite Heq in Hu.
    destruct (Z.ltb_spec 0 (historyIndex st)); lia.
  - intros Hne.
    destruct (Z.ltb_spec (historyIndex st) (Z.of_nat (length (history st)) - 1));
      [assumption|].
    exfalso. apply Hne. unfold redo.
    destruct (Z.ltb_spec (historyIndex st) (Z.of_nat (length (history st)) - 1));
      [lia | reflexivity].
  - intros Hlt Heq. rewrite Heq in Hr.
    destruct (Z.ltb_spec (historyIndex st) (Z.of_nat (length (history st)) - 1));
      lia.
Qed.

(** C2: from the history [A, B, C] with the cursor on [C], two undos
    followed by a commit of the scene [D] leave the history [A, D] with the
    cursor at 1, where [redo] does nothing; and a commit at any valid cursor
    keeps the states up to the cursor, appends the snapshot and puts the
    cursor on the new last index. *)
Theorem commit_after_undo_truncates (st : state) (A B C D : HistoryState.t) :
  history st = [A; B; C] -> historyIndex st = 2 ->
  let st' := addToHistory (set_scene D (undo (undo st))) in
  (history st' = [A; D] /\ historyIndex st' = 1 /\ redo st' = st')
  /\ (forall s : state,
        -1 <= historyIndex s < Z.of_nat (length (history s)) ->
        history (addToHistory s)
        = firstn (Z.to_nat (historyIndex s + 1)) (history s) ++ [scene_of s]
        /\ historyIndex (addToHistory s)
           = Z.of_nat (length (history (addToHistory s))) - 1).
Proof.
  intros Hh Hi st'. split.
  - subst st'. destruct st; cbn [history historyIndex] in Hh, Hi. subst.
    destruct D; repeat split.
  - intros s Hs. destruct (addToHistory_spec s Hs) as (H1 & _ & H3).
    now split.
Qed.

Lemma commit_after_undo_truncates_witness :
  history three_commits
  = [labelled_scene "A"; labelled_scene "B"; labelled_scene "C"]
  /\ historyIndex three_commits = 2
  /\ history (addToHistory (set_scene (labelled_scene "D")
                              (undo (undo three_commits))))
     = [labelled_scene "A"; labelled_scene "D"].
Proof.
  split; [reflexivity|]. split; [reflexivity|].
  exact (proj1 (proj1 (commit_after_undo_truncates three_commits
                         (labelled_scene "A") (labelled_scene "B")
                         (labelled_scene "C") (labelled_scene "D")
                         eq_refl eq_refl))).
Defined.

End HistoryFacts.

(* ===================================================================== *)
(** ** Colour analysis *)

Module AnalyzerFacts.
Import Color Analyzer Contrast.

Lemma Qfloor_plus_half (z : Z) : Qfloor (inject_Z z + (1 # 2)) = z.
Proof.
  pose proof (Qfloor_le (inject_Z z + (1 # 2))) as Hlo.
  pose proof (Qlt_floor (inject_Z z + (1 # 2))) as Hhi.
  set (f := Qfloor (inject_Z z + (1 # 2))) in *. clearbody f.
  assert (H1 : f < z + 1).
  { rewrite Zlt_Qlt, inject_Z_plus. change (inject_Z 1) with 1%Q. lra. }
  assert (H2 : z < f + 1).
  { rewrite Zlt_Qlt. lra. }
  lia.
Qed.

Lemma Math_round_Z (z : Z) : Math_round (inject_Z z) = z.
Proof. apply Qfloor_plus_half. Qed.

Lemma Math_round_le (q : Q) (z : Z) : (q <= inject_Z z)%Q -> Math_round q <= z.
Proof.
  intros H. rewrite <- (Qfloor_plus_half z). unfold Math_round.
  apply Qfloor_resp_le. lra.
Qed.

Lemma Math_round_ge (q : Q) (z : Z) : (inject_Z z <= q)%Q -> z <= Math_round q.
Proof.
  intros H. rewrite <- (Qfloor_Z z). unfold Math_round.
  apply Qfloor_resp_le. lra.
Qed.

Lemma Math_round_Qeq (p q : Q) : (p == q)%Q -> Math_round p = Math_round q.
Proof. intros H. unfold Math_round. now rewrite H. Qed.

Lemma inject_Z_pred (z : Z) : (inject_Z (z - 1) == inject_Z z - 1)%Q.
Proof.
  unfold Z.sub. rewrite inject_Z_plus. change (inject_Z (- (1))) with (- (1))%Q.
  ring.
Qed.

Lemma inject_Z_le (a b : Z) : (inject_Z a <= inject_Z b)%Q -> a <= b.
Proof. now rewrite <- Zle_Qle. Qed.

(** The rounded, clipped origin and extent along one axis, for an interval
    of length at least 1 inside [0, size]. *)
Lemma safe_axis (pos len : Q) (size : Z) :
  (0 <= pos)%Q -> (1 <= len)%Q -> (pos + len <= inject_Z size)%Q ->
  Z.max 0 (Z.min (Math_round pos) (size - 1)) = Math_round pos
  /\ 0 < Z.min (Math_round len) (size - Math_round pos).
Proof.
  intros Hpos Hlen Hin.
  assert (H0 : 0 <= Math_round pos).
  { apply Math_round_ge. change (inject_Z 0) with 0%Q. lra. }
  assert (H1 : Math_round pos <= size - 1).
  { apply Math_round_le. rewrite inject_Z_pred. lra. }
  assert (H2 : 1 <= Math_round len).
  { apply Math_round_ge. change (inject_Z 1) with 1%Q. lra. }
  split; lia.
Qed.

Lemma position_range (c : ascii) (digits : string) :
  forall i v, position c digits i = Some v ->
    i <= v < i + Z.of_nat (String.length digits).
Proof.
  induction digits as [|d rest IH]; intros i v H; [discriminate|].
  cbn [position] in H. cbn [String.length].
  destruct (Ascii.eqb c d).
  - injection H as <-. lia.
  - apply IH in H. lia.
Qed.

Lemma hex_value_range (c : ascii) (v : Z) : hex_value c = Some v -> 0 <= v <= 15.
Proof.
  unfold hex_value. intros H.
  destruct (position c lower_digits 0) as [u|] eqn:E.
  - injection H as <-. apply position_range in E. cbn in E. lia.
  - apply position_range in H. cbn in H. lia.
Qed.

Lemma hex_pair_range (c1 c2 : ascii) (v : Z) :
  hex_pair c1 c2 = Some v -> channel v.
Proof.
  unfold hex_pair, channel. intros H.
  destruct (hex_value c1) as [a|] eqn:Ea; [|discriminate].
  destruct (hex_value c2) as [b0|] eqn:Eb; [|discriminate].
  injection H as <-. apply hex_value_range in Ea, Eb. lia.
Qed.

Lemma hexToRgb_channels (hex : string) (c : rgb) :
  hexToRgb hex = Some c -> channel (r c) /\ channel (g c) /\ channel (b c).
Proof.
  unfold hexToRgb. intros H.
  set (body := match hex with String "#"%char rest => rest | _ => hex end) in H.
  clearbody body.
  destruct body as [|c1 [|c2 [|c3 [|c4 [|c5 [|c6 [|c7 rest]]]]]]]; try discriminate.
  destruct (hex_pair c1 c2) as [v1|] eqn:E1; [|discriminate].
  destruct (hex_pair c3 c4) as [v2|] eqn:E2; [|discriminate].
  destruct (hex_pair c5 c6) as [v3|] eqn:E3; [|discriminate].
  injection H as <-. cbn [r g b].
  repeat split; eapply hex_pair_range; eassumption.
Qed.

Lemma literal_07 : Double.fl (7 # 10) = (3152519739159347 # 4503599627370496)%Q.
Proof. vm_compute. reflexivity. Qed.

Lemma in_range (lo : nat) (len : nat) (k : Z) :
  Z.of_nat lo <= k < Z.of_nat lo + Z.of_nat len ->
  In k (map Z.of_nat (seq lo len)).
Proof.
  intros H. apply in_map_iff. exists (Z.to_nat k). split; [lia|].
  apply in_seq. lia.
Qed.

(** Below 300 the clamped estimate in doubles is the exact one, but for the
    [short_heights], where it is one less. *)
Lemma font_size_table (H : Z) :
  1 <= H < 300 ->
  clamp (Math_round (Double.mul (inject_Z H) (Double.fl (7 # 10)))) 12 200
  = exact_font_size H - (if existsb (Z.eqb H) short_heights then 1 else 0).
Proof.
  intros HH.
  assert (T : forallb
                (fun k =>
                   clamp (Math_round (Double.mul (inject_Z k) (Double.fl (7 # 10))))
                     12 200
                   =? exact_font_size k
                      - (if existsb (Z.eqb k) short_heights then 1 else 0))
                (map Z.of_nat (seq 1 299)) = true)
    by (vm_compute; reflexivity).
  rewrite forallb_forall in T. apply Z.eqb_eq, T, in_range. lia.
Qed.

(** From 300 on both estimates are cut to 200. *)
Lemma font_size_large (H : Z) :
  300 <= H ->
  clamp (Math_round (Double.mul (inject_Z H) (Double.fl (7 # 10)))) 12 200 = 200
  /\ exact_font_size H = 200
  /\ existsb (Z.eqb H) short_heights = false.
Proof.
  intros HH.
  assert (Hq : (300 <= inject_Z H)%Q).
  { change 300%Q with (inject_Z 300). now rewrite <- Zle_Qle. }
  split; [|split].
  - assert (Hr : 200 <= Math_round (Double.mul (inject_Z H) (Double.fl (7 # 10)))).
    { apply Math_round_ge. unfold Double.mul. rewrite literal_07.
      set (x := (inject_Z H * (3152519739159347 # 4503599627370496))%Q).
      assert (Hx : (209 <= x)%Q) by (subst x; lra).
      pose proof (DoubleFacts.fl_near x ltac:(lra)) as [Hlo _].
      unfold Double.eps in Hlo. change (inject_Z 200) with 200%Q.
      set (f := Double.fl x) in *. clearbody f x. lra. }
    unfold clamp. lia.
  - assert (Hr : 200 <= Math_round (inject_Z H * (7 # 10))).
    { apply Math_round_ge. change (inject_Z 200) with 200%Q. lra. }
    unfold exact_font_size, clamp. lia.
  - unfold short_heights. cbn [existsb].
    destruct (Z.eqb_spec H 45); [lia|]. destruct (Z.eqb_spec H 85); [lia|].
    destruct (Z.eqb_spec H 165); [lia|]. destruct (Z.eqb_spec H 175); [lia|].
    reflexivity.
Qed.

(** C5 (amended): for a rectangle of width and height at least 1 inside the
    raster, the analyzer returns [clamp(round(H * 0.7), 12, 200)] with the
    product taken in doubles, where [H] is the rounded height clipped to
    the raster below the rounded top. The value lies in [12, 200]; it is the
    [clamp(round(0.7 H), 12, 200)] of exact arithmetic, except for the
    heights 45, 85, 165 and 175, where it is one less; and [H] is [h] when
    [y] and [h] are integers. *)
Theorem analyze_font_size (M : MathLib) (ctx : OriginalCanvas) (x y w h : Q) :
  inside_raster ctx x y w h -> (1 <= w)%Q -> (1 <= h)%Q ->
  let size := fontSize (analyzeTextAreaFast M (Some ctx) x y w h) in
  let safeH := Z.min (Math_round h) (canvasHeight ctx - Math_round y) in
  size = clamp (Math_round (Double.mul (inject_Z safeH) (Double.fl (7 # 10)))) 12 200
  /\ 12 <= size <= 200
  /\ size = exact_font_size safeH
            - (if existsb (Z.eqb safeH) short_heights then 1 else 0)
  /\ (forall yz hz : Z,
        (y == inject_Z yz)%Q -> (h == inject_Z hz)%Q -> safeH = hz).
Proof.
  intros (Hx & Hy & Hxw & Hyh) Hw Hh size safeH.
  destruct (safe_axis x w (canvasWidth ctx) Hx Hw Hxw) as [Ex Pw].
  destruct (safe_axis y h (canvasHeight ctx) Hy Hh Hyh) as [Ey Ph].
  fold safeH in Ph.
  assert (E : size = clamp (Math_round (Double.mul (inject_Z safeH)
                                          (Double.fl (7 # 10)))) 12 200).
  { subst size safeH. unfold analyzeTextAreaFast. rewrite Ex, Ey.
    destruct (Z.leb_spec (Z.min (Math_round w) (canvasWidth ctx - Math_round x)) 0);
      [lia|].
    destruct (Z.leb_spec (Z.min (Math_round h) (canvasHeight ctx - Math_round y)) 0);
      [lia|].
    reflexivity. }
  split; [exact E|]. split; [rewrite E; unfold clamp; lia|]. split.
  - rewrite E. destruct (Z.lt_ge_cases safeH 300) as [Hs|Hs].
    + apply font_size_table. lia.
    + destruct (font_size_large safeH Hs) as (E1 & E2 & E3).
      rewrite E1, E2, E3. reflexivity.
  - intros yz hz Ey' Eh'.
    subst safeH. rewrite (Math_round_Qeq _ _ Ey'), (Math_round_Qeq _ _ Eh').
    rewrite !Math_round_Z. apply Z.min_l.
    assert (Hle : (inject_Z (yz + hz) <= inject_Z (canvasHeight ctx))%Q).
    { rewrite inject_Z_plus, <- Ey', <- Eh'. exact Hyh. }
    apply inject_Z_le in Hle. lia.
Qed.

(** C5 as stated fails on a fractional height and on some integer ones.
    For the rectangle (10, 10, 50, 17.6) inside a 100 x 100 raster the code
    rounds the height to 18 first and returns round(12.6) = 13, where
    round(17.6 * 0.7) is 12 in exact arithmetic and in doubles. For the
    integer rectangle (10, 10, 50, 45) it returns 31, the product in doubles
    being just below 31.5, where round(45 * 0.7) is 32. *)
Lemma analyze_font_size_counterexample :
  (inside_raster (uniform_canvas 100 100 white) 10 10 50 (88 # 5)
   /\ fontSize (analyzeTextAreaFast coarse_math
                  (Some (uniform_canvas 100 100 white)) 10 10 50 (88 # 5)) = 13
   /\ clamp (Math_round ((88 # 5) * (7 # 10))) 12 200 = 12
   /\ clamp (Math_round (Double.mul (Double.fl (88 # 5)) (Double.fl (7 # 10))))
        12 200 = 12)
  /\ (inside_raster (uniform_canvas 100 100 white) 10 10 50 45
      /\ fontSize (analyzeTextAreaFast coarse_math
                     (Some (uniform_canvas 100 100 white)) 10 10 50 45) = 31
      /\ clamp (Math_round (45 * (7 # 10))) 12 200 = 32).
Proof.
  split; (split; [repeat split; vm_compute; intro H; discriminate H|]);
    repeat split; vm_compute; reflexivity.
Qed.

Lemma analyze_font_size_witness :
  inside_raster (uniform_canvas 100 100 white) 10 10 50 45
  /\ (1 <= 50)%Q /\ (1 <= 45)%Q
  /\ fontSize (analyzeTextAreaFast coarse_math
                 (Some (uniform_canvas 100 100 white)) 10 10 50 45)
     = exact_font_size 45 - 1.
Proof.
  assert (Hin : inside_raster (uniform_canvas 100 100 white) 10 10 50 45).
  { repeat split; vm_compute; intro H; discriminate H. }
  assert (Hw : (1 <= 50)%Q) by (vm_compute; intro H; discriminate H).
  assert (Hh : (1 <= 45)%Q) by (vm_compute; intro H; discriminate H).
  split; [exact Hin|]. split; [exact Hw|]. split; [exact Hh|].
  exact (proj1 (proj2 (proj2 (analyze_font_size coarse_math
                                (uniform_canvas 100 100 white) 10 10 50 45
                                Hin Hw Hh)))).
Defined.

Lemma sample_fold_all (ctx : OriginalCanvas) (c : Z * Z * Z) (points : list (Q * Q)) :
  forall acc,
    (forall p, In p points ->
       exists px, getImageData ctx (Math_round (fst p)) (Math_round (snd p)) = Some px
                  /\ (red px, green px, blue px) = c) ->
    fold_left (sample ctx) points acc = acc ++ map (fun _ => c) points.
Proof.
  induction points as [|p points IH]; intros acc H; simpl.
  - now rewrite app_nil_r.
  - destruct (H p (or_introl eq_refl)) as (px & Hpx & Hc).
    unfold sample at 2. rewrite Hpx, Hc.
    rewrite IH by (intros q Hq; apply H; now right).
    now rewrite <- app_assoc.
Qed.

Lemma contrast_fold_same (bg : rgb) (n : list (Q * Q)) (best : string) :
  fold_left (contrast_step bg) (map (fun _ => (r bg, g bg, b bg)) n) (0, best)
  = (0, best).
Proof.
  induction n as [|p n IH]; [reflexivity|].
  cbn [map fold_left]. unfold contrast_step at 2.
  rewrite !Z.sub_diag. exact IH.
Qed.

Lemma channel_Q (v : Z) : channel v -> (0 <= inject_Z v <= 255)%Q.
Proof.
  intros [H1 H2]. split.
  - change 0%Q with (inject_Z 0). now rewrite <- Zle_Qle.
  - change 255%Q with (inject_Z 255). now rewrite <- Zle_Qle.
Qed.

(** One rounded operation on a number that is not negative, as bounds a
    linear solver can use. *)
Ltac round_step x H :=
  let Hn := fresh "Hn" in
  pose proof (DoubleFacts.fl_near x ltac:(lra)) as H;
  pose proof (DoubleFacts.fl_nonneg x ltac:(lra)) as Hn;
  unfold Double.eps in H.

(** The luminance in doubles stays within [10^-9] of the exact one. *)
Lemma luminance_close (bg : rgb) :
  channel (r bg) -> channel (g bg) -> channel (b bg) ->
  (exact_luminance bg - (1 # 1000000000)
   <= getLuminance (r bg) (g bg) (b bg)
   <= exact_luminance bg + (1 # 1000000000))%Q.
Proof.
  intros Hr Hg Hb. apply channel_Q in Hr, Hg, Hb.
  unfold exact_luminance, getLuminance, Double.div, Double.add, Double.mul.
  set (R := inject_Z (r bg)) in *. set (G := inject_Z (g bg)) in *.
  set (B := inject_Z (b bg)) in *. clearbody R G B.
  assert (E1 : Double.fl (299 # 1000) = (5386305154335113 # 18014398509481984)%Q)
    by (vm_compute; reflexivity).
  assert (E2 : Double.fl (587 # 1000) = (2643612981266481 # 4503599627370496)%Q)
    by (vm_compute; reflexivity).
  assert (E3 : Double.fl (114 # 1000) = (8214565720323785 # 72057594037927936)%Q)
    by (vm_compute; reflexivity).
  rewrite E1, E2, E3.
  match goal with
  | |- context [Double.fl (?c * R)] => round_step (c * R)%Q H1; set (p1 := Double.fl (c * R)) in *
  end.
  match goal with
  | |- context [Double.fl (?c * G)] => round_step (c * G)%Q H2; set (p2 := Double.fl (c * G)) in *
  end.
  match goal with
  | |- context [Double.fl (?c * B)] => round_step (c * B)%Q H3; set (p3 := Double.fl (c * B)) in *
  end.
  clearbody p1 p2 p3.
  round_step (p1 + p2)%Q H4. set (s1 := Double.fl (p1 + p2)) in *. clearbody s1.
  round_step (s1 + p3)%Q H5. set (s2 := Double.fl (s1 + p3)) in *. clearbody s2.
  unfold Qdiv in *. change (/ 255)%Q with (1 # 255)%Q in *.
  round_step (s2 * (1 # 255))%Q H6.
  set (l := Double.fl (s2 * (1 # 255))) in *. clearbody l.
  lra.
Qed.

Lemma exact_luminance_sum (bg : rgb) :
  (exact_luminance bg
   == inject_Z (299 * r bg + 587 * g bg + 114 * b bg) * (1 # 255000))%Q.
Proof.
  unfold exact_luminance. rewrite !inject_Z_plus, !inject_Z_mult.
  unfold Qdiv. change (/ 255)%Q with (1 # 255)%Q.
  change (inject_Z 299) with 299%Q. change (inject_Z 587) with 587%Q.
  change (inject_Z 114) with 114%Q. ring.
Qed.

(** The colours of exact luminance [1/2], found by running over the red and
    green channels: the luminance in doubles exceeds [0.5] for (218, 58,
    248) alone. *)
Lemma luminance_tie_table :
  forallb
    (fun r0 =>
       forallb
         (fun g0 =>
            let rest := 127500 - 299 * r0 - 587 * g0 in
            if (0 <=? rest) && (rest mod 114 =? 0) && (rest / 114 <=? 255)
            then Bool.eqb (Qgtb (getLuminance r0 g0 (rest / 114)) (1 # 2))
                   (is_orchid (mkRgb r0 g0 (rest / 114)))
            else true)
         (map Z.of_nat (seq 0 256)))
    (map Z.of_nat (seq 0 256)) = true.
Proof. vm_compute. reflexivity. Qed.

Lemma guarded_eqb (c x y : bool) :
  c = true -> (if c then Bool.eqb x y else true) = true -> x = y.
Proof. intros -> H. now apply Bool.eqb_prop. Qed.

Lemma luminance_ties (bg : rgb) :
  channel (r bg) -> channel (g bg) -> channel (b bg) ->
  299 * r bg + 587 * g bg + 114 * b bg = 127500 ->
  Qgtb (getLuminance (r bg) (g bg) (b bg)) (1 # 2) = is_orchid bg.
Proof.
  destruct bg as [r0 g0 b0]. cbn [r g b]. unfold channel.
  intros Hr Hg Hb Hs.
  assert (Ir : In r0 (map Z.of_nat (seq 0 256))).
  { apply in_range. change (Z.of_nat 0) with 0. change (Z.of_nat 256) with 256. lia. }
  assert (Ig : In g0 (map Z.of_nat (seq 0 256))).
  { apply in_range. change (Z.of_nat 0) with 0. change (Z.of_nat 256) with 256. lia. }
  pose proof (proj1 (forallb_forall _ _)
                (proj1 (forallb_forall _ _) luminance_tie_table r0 Ir) g0 Ig) as T.
  cbv beta zeta in T.
  replace (127500 - 299 * r0 - 587 * g0) with (b0 * 114) in T by lia.
  rewrite Z.mod_mul, Z.div_mul in T by lia.
  refine (guarded_eqb _ _ _ _ T).
  rewrite Z.eqb_refl.
  destruct (Z.leb_spec 0 (b0 * 114)); [|lia].
  destruct (Z.leb_spec b0 255); [|lia]. reflexivity.
Qed.

(** The formula of [getLuminance], spelled out. *)
Lemma luminance_formula (r0 g0 b0 : Z) :
  Double.div
    (Double.add
       (Double.add (Double.mul (Double.fl (299 # 1000)) (inject_Z r0))
                   (Double.mul (Double.fl (587 # 1000)) (inject_Z g0)))
       (Double.mul (Double.fl (114 # 1000)) (inject_Z b0)))
    255
  = getLuminance r0 g0 b0.
Proof. unfold getLuminance. reflexivity. Qed.

(** What the detector returns once every sample has the background's
    colour. *)
Lemma text_color_of_flat_region (M : MathLib) (ctx : OriginalCanvas)
    (x y w h : Q) (bgColor : string) (bg : rgb) (points : list (Q * Q)) :
  hexToRgb bgColor = Some bg ->
  fold_left (sample ctx) (circle_points M x y w h) []
  = map (fun _ => (r bg, g bg, b bg)) points ->
  detectTextColorFast M ctx x y w h bgColor
  = if Qgtb (getLuminance (r bg) (g bg) (b bg)) (1 # 2)
    then "#000000" else "#ffffff".
Proof.
  intros Hbg Hs. unfold detectTextColorFast. rewrite Hbg, Hs.
  rewrite contrast_fold_same.
  replace (0 <? 100) with true by reflexivity. reflexivity.
Qed.

(** C6 (amended): when the five circle samples all equal the background
    colour, the detector returns [#000000] if the luminance
    [(0.299 r + 0.587 g + 0.114 b) / 255], computed in doubles, exceeds 0.5
    and [#ffffff] otherwise. This is what the exact luminance decides
    wherever it differs from [1/2]; among the colours of exact luminance
    [1/2] the result is [#ffffff] except for (218, 58, 248), where the
    rounded luminance exceeds 0.5 and the result is [#000000]. *)
Theorem text_color_falls_back (M : MathLib) (ctx : OriginalCanvas)
    (x y w h : Q) (bgColor : string) (bg : rgb) :
  hexToRgb bgColor = Some bg ->
  (forall p, In p (circle_points M x y w h) ->
     exists px,
       getImageData ctx (Math_round (fst p)) (Math_round (snd p)) = Some px
       /\ (red px, green px, blue px) = (r bg, g bg, b bg)) ->
  let result := detectTextColorFast M ctx x y w h bgColor in
  length (circle_points M x y w h) = 5%nat
  /\ result
     = (if Qgtb (Double.div
                   (Double.add
                      (Double.add
                         (Double.mul (Double.fl (299 # 1000)) (inject_Z (r bg)))
                         (Double.mul (Double.fl (587 # 1000)) (inject_Z (g bg))))
                      (Double.mul (Double.fl (114 # 1000)) (inject_Z (b bg))))
                   255) (1 # 2)
        then "#000000" else "#ffffff")
  /\ ((1 # 2 < exact_luminance bg)%Q -> result = "#000000")
  /\ ((exact_luminance bg < 1 # 2)%Q -> result = "#ffffff")
  /\ ((exact_luminance bg == 1 # 2)%Q ->
      result = if is_orchid bg then "#000000" else "#ffffff").
Proof.
  intros Hbg Hsamples result.
  assert (E : result = if Qgtb (getLuminance (r bg) (g bg) (b bg)) (1 # 2)
                       then "#000000" else "#ffffff").
  { subst result.
    apply (text_color_of_flat_region M ctx x y w h bgColor bg
             (circle_points M x y w h) Hbg).
    now rewrite (sample_fold_all ctx _ _ [] Hsamples). }
  destruct (hexToRgb_channels _ _ Hbg) as (Hr & Hg & Hb).
  pose proof (luminance_close bg Hr Hg Hb) as Hclose.
  pose proof (exact_luminance_sum bg) as Hsum.
  pose proof (luminance_ties bg Hr Hg Hb) as Hties.
  rewrite luminance_formula.
  clearbody result. subst result.
  revert Hclose Hties.
  generalize (getLuminance (r bg) (g bg) (b bg)). intros l Hclose Hties.
  set (S := 299 * r bg + 587 * g bg + 114 * b bg) in *. clearbody S.
  split; [reflexivity|]. split; [reflexivity|].
  split; [|split].
  - intros Hex.
    assert (HS : 127501 <= S).
    { assert (Hq : (inject_Z 127500 < inject_Z S)%Q).
      { change (inject_Z 127500) with 127500%Q. lra. }
      rewrite <- Zlt_Qlt in Hq. lia. }
    rewrite Zle_Qle in HS. change (inject_Z 127501) with 127501%Q in HS.
    assert (Hl : Qgtb l (1 # 2) = true) by (apply Qgtb_true; lra).
    now rewrite Hl.
  - intros Hex.
    assert (HS : S <= 127499).
    { assert (Hq : (inject_Z S < inject_Z 127500)%Q).
      { change (inject_Z 127500) with 127500%Q. lra. }
      rewrite <- Zlt_Qlt in Hq. lia. }
    rewrite Zle_Qle in HS. change (inject_Z 127499) with 127499%Q in HS.
    assert (Hl : Qgtb l (1 # 2) = false) by (apply Qgtb_false; lra).
    now rewrite Hl.
  - intros Hex.
    assert (HS : S = 127500).
    { assert (Hq : (inject_Z S == inject_Z 127500)%Q).
      { change (inject_Z 127500) with 127500%Q. lra. }
      apply inject_Z_injective. exact Hq. }
    now rewrite (Hties HS).
Qed.

(** C6 as stated fails for the background (218, 58, 248): its luminance is
    exactly [1/2], which does not exceed 0.5, but the value the code
    computes in doubles is [0.5 + 2^-53] and the detector returns
    [#000000]. *)
Lemma text_color_falls_back_counterexample :
  hexToRgb "#da3af8" = Some (mkRgb 218 58 248)
  /\ fold_left (sample (uniform_canvas 400 400 orchid))
       (circle_points coarse_math 190 190 20 20) []
     = [(218, 58, 248); (218, 58, 248); (218, 58, 248); (218, 58, 248);
        (218, 58, 248)]
  /\ (exact_luminance (mkRgb 218 58 248) == 1 # 2)%Q
  /\ getLuminance 218 58 248 = (4503599627370497 # 9007199254740992)%Q
  /\ detectTextColorFast coarse_math (uniform_canvas 400 400 orchid)
       190 190 20 20 "#da3af8" = "#000000".
Proof. repeat split; vm_compute; reflexivity. Qed.

Lemma text_color_falls_back_witness :
  hexToRgb "#000080" = Some (mkRgb 0 0 128)
  /\ (exact_luminance (mkRgb 0 0 128) < 1 # 2)%Q
  /\ detectTextColorFast coarse_math (uniform_canvas 400 400 navy)
       190 190 20 20 "#000080" = "#ffffff".
Proof.
  assert (Hl : (exact_luminance (mkRgb 0 0 128) < 1 # 2)%Q) by (vm_compute; reflexivity).
  split; [reflexivity|]. split; [exact Hl|].
  refine (proj1 (proj2 (proj2 (proj2
            (text_color_falls_back coarse_math
               (uniform_canvas 400 400 navy) 190 190 20 20
               "#000080" (mkRgb 0 0 128) eq_refl _)))) Hl).
  intros p Hp. exists navy. split; [|reflexivity].
  cbn in Hp. repeat (destruct Hp as [<-|Hp]; [vm_compute; reflexivity|]).
  destruct Hp.
Defined.

Lemma hex_value_digit (n : Z) : 0 <= n <= 15 -> hex_value (hex_digit n) = Some n.
Proof.
  intros H.
  assert (T : forallb (fun k => match hex_value (hex_digit k) with
                                | Some v => v =? k
                                | None => false
                                end) (map Z.of_nat (seq 0 16)) = true)
    by reflexivity.
  rewrite forallb_forall in T.
  assert (Hin : In n (map Z.of_nat (seq 0 16))).
  { apply in_map_iff. exists (Z.to_nat n). split; [lia|]. apply in_seq. lia. }
  specialize (T n Hin). destruct (hex_value (hex_digit n)); [|discriminate].
  apply Z.eqb_eq in T. now subst.
Qed.

Lemma hex_pair_channel (v : Z) :
  0 <= v <= 255 -> hex_pair (hex_digit (v / 16)) (hex_digit (v mod 16)) = Some v.
Proof.
  intros H. unfold hex_pair.
  assert (Hq : 0 <= v / 16 <= 15).
  { pose proof (Z.div_pos v 16 ltac:(lia) ltac:(lia)).
    pose proof (Z.div_lt_upper_bound v 16 16 ltac:(lia) ltac:(lia)). lia. }
  assert (Hm : 0 <= v mod 16 <= 15).
  { pose proof (Z.mod_pos_bound v 16 ltac:(lia)). lia. }
  rewrite !hex_value_digit by assumption.
  f_equal. pose proof (Z.div_mod v 16 ltac:(lia)). lia.
Qed.

(** [hexToRgb] undoes [rgbToHex] up to the clamp to [0, 255]. *)
Lemma hexToRgb_rgbToHex (r0 g0 b0 : Z) :
  hexToRgb (rgbToHex r0 g0 b0)
  = Some (mkRgb (Z.min 255 (Z.max 0 r0)) (Z.min 255 (Z.max 0 g0))
                (Z.min 255 (Z.max 0 b0))).
Proof.
  unfold rgbToHex, channel_hex, hexToRgb.
  cbv beta iota zeta delta [String.append].
  rewrite !hex_pair_channel by lia. reflexivity.
Qed.

End AnalyzerFacts.

(* ===================================================================== *)
(** ** Hit testing *)

Module HitTestFacts.
Import HitTest.

Lemma find_hit {A : Type} (f : A -> bool) (l : list A) (a : A) :
  In a l -> f a = true -> find f l <> None.
Proof.
  intros Hin Hf Hnone. pose proof (find_none f l Hnone a Hin). congruence.
Qed.

(** C7: a region of positive width and height is hit at its own centre
    whatever its kind and rotation, and whatever [Math.cos] and [Math.sin]
    return for the angle; the pass over the regions then finds a region. *)
Theorem hit_at_center (M : MathLib) (sel : SelectionArea.t) :
  (0 < SelectionArea.w sel)%Q -> (0 < SelectionArea.h sel)%Q ->
  let cx := (SelectionArea.x sel + SelectionArea.w sel / 2)%Q in
  let cy := (SelectionArea.y sel + SelectionArea.h sel / 2)%Q in
  hit_selection M cx cy sel = true
  /\ (forall selections,
        In sel selections -> clickedSelection M cx cy selections <> None).
Proof.
  intros Hw Hh cx cy.
  assert (Hhit : hit_selection M cx cy sel = true).
  { subst cx cy. unfold hit_selection.
    set (rad := ((- _ * Math_PI M) / 180)%Q).
    set (c := Math_cos M rad). set (sn := Math_sin M rad).
    set (w := SelectionArea.w sel) in *. set (h := SelectionArea.h sel) in *.
    set (x := SelectionArea.x sel). set (y := SelectionArea.y sel).
    clearbody c sn w h x y.
    assert (Ex : ((x + w / 2 - (x + w / 2)) * c - (y + h / 2 - (y + h / 2)) * sn == 0)%Q)
      by ring.
    assert (Ey : ((x + w / 2 - (x + w / 2)) * sn + (y + h / 2 - (y + h / 2)) * c == 0)%Q)
      by ring.
    repeat (apply andb_true_intro; split); apply Qle_bool_iff;
      rewrite ?Ex, ?Ey; unfold Qdiv; change (/ 2)%Q with (1 # 2)%Q; lra. }
  split; [exact Hhit|].
  intros selections Hin. unfold clickedSelection.
  apply (find_hit _ _ sel); [now apply in_rev in Hin | exact Hhit].
Qed.

Lemma hit_at_center_witness :
  (0 < 120)%Q /\ (0 < 40)%Q
  /\ hit_selection Analyzer.coarse_math (10 + 120 / 2) (20 + 40 / 2)
       (rotated_text_region 7 10 20 120 40 30) = true.
Proof.
  assert (Hw : (0 < 120)%Q) by reflexivity.
  assert (Hh : (0 < 40)%Q) by reflexivity.
  split; [exact Hw|]. split; [exact Hh|].
  exact (proj1 (hit_at_center Analyzer.coarse_math
                  (rotated_text_region 7 10 20 120 40 30) Hw Hh)).
Defined.

End HitTestFacts.

(* ===================================================================== *)
(** ** Creating a region *)

Module PointerFacts.
Import App Pointer.




End PointerFacts.

(* ===================================================================== *)
(** ** Export *)

Module RestoreFacts.
Import Canvas Restore.

Section Runs.
Variable B : Browser.

Lemma restore_ai_unprompted (env : Env) (key : string)
    (replacements : gmap Z string) (ctx : Context) (sel : SelectionArea.t) :
  (replacement_of replacements (SelectionArea.id sel) =? "")%string = true ->
  restore_ai B env key replacements ctx sel = Some ctx.
Proof. intros H. unfold restore_ai. now rewrite H. Qed.

Lemma restore_ai_same_answers (env1 env2 : Env) (key1 key2 : string)
    (replacements : gmap Z string) (ctx : Context) (sel : SelectionArea.t) :
  same_answers env1 env2 key1 key2 ->
  restore_ai B env1 key1 replacements ctx sel
  = restore_ai B env2 key2 replacements ctx sel.
Proof.
  intros [Hkey Hgen]. unfold restore_ai. rewrite Hkey.
  destruct (replacement_of replacements (SelectionArea.id sel) =? "")%string;
    [reflexivity|].
  destruct (resolve_key env2 key2) as [key|]; [|reflexivity].
  destruct (negb (truthy_string key)); [reflexivity|].
  now rewrite Hgen.
Qed.

Lemma restore_ai_all_agree (env1 env2 : Env) (key1 key2 : string)
    (replacements : gmap Z string) (sels : list SelectionArea.t) :
  (forall sel, In sel sels ->
     (replacement_of replacements (SelectionArea.id sel) =? "")%string = true)
  \/ same_answers env1 env2 key1 key2 ->
  forall ctx,
    restore_ai_all B env1 key1 replacements sels ctx
    = restore_ai_all B env2 key2 replacements sels ctx.
Proof.
  intros H. induction sels as [|sel rest IH]; intros ctx; [reflexivity|].
  cbn [restore_ai_all].
  assert (E : restore_ai B env1 key1 replacements ctx sel
              = restore_ai B env2 key2 replacements ctx sel).
  { destruct H as [H|H].
    - rewrite !restore_ai_unprompted; [reflexivity | |]; apply H; now left.
    - now apply restore_ai_same_answers. }
  rewrite E. destruct (restore_ai B env2 key2 replacements ctx sel); [|reflexivity].
  apply IH. destruct H as [H|H]; [left | now right].
  intros s Hs. apply H. now right.
Qed.

Lemma unprompted_regions (replacements : gmap Z string)
    (selections : list SelectionArea.t) :
  existsb (prompted replacements) selections = false ->
  forall sel, In sel (List.filter (of_type image_ai) selections) ->
    (replacement_of replacements (SelectionArea.id sel) =? "")%string = true.
Proof.
  intros H sel Hin. apply filter_In in Hin as [Hin Hty].
  destruct (replacement_of replacements (SelectionArea.id sel) =? "")%string eqn:E;
    [reflexivity|].
  exfalso.
  assert (Hex : existsb (prompted replacements) selections = true).
  { apply existsb_exists. exists sel. split; [exact Hin|].
    unfold prompted. now rewrite Hty, E. }
  congruence.
Qed.

(** C1 (amended): two exports of the same raster and snapshot give the same
    result when no ai-image region carries a prompt, or when both runs see
    the same credential and the same answers from the generation service. *)
Theorem export_deterministic (env1 env2 : Env) (st1 st2 : App.state) :
  same_snapshot st1 st2 ->
  has_prompted_ai st1 = false
  \/ same_answers env1 env2 (App.manualKey st1) (App.manualKey st2) ->
  handleRestore B env1 st1 = handleRestore B env2 st2.
Proof.
  intros (Hscene & Hsi & Hri & Horig & Hcanvas) Hagree.
  unfold handleRestore. rewrite <- Hcanvas, <- Horig, <- Hsi, <- Hri, <- Hscene.
  assert (Hsel : App.selections st2 = App.selections st1).
  { change (HistoryState.selections (App.scene_of st2)
            = HistoryState.selections (App.scene_of st1)). now rewrite Hscene. }
  rewrite Hsel.
  destruct (App.canvasRef st1) as [size|]; [|reflexivity].
  destruct (App.originalImageData st1) as [original|]; [|reflexivity].
  destruct (App.selections st1) as [|s0 rest] eqn:Es; [reflexivity|].
  unfold composite.
  rewrite (restore_ai_all_agree env1 env2 (App.manualKey st1) (App.manualKey st2)).
  - reflexivity.
  - destruct Hagree as [Hnone|Hsame]; [left | now right].
    apply unprompted_regions. exact Hnone.
Qed.




End Runs.

Import Reference.

(** C1 as stated fails once a prompted ai-image region is in the scene: the
    same raster and snapshot export to a red block when the service answers
    and to the untouched raster when it throws. *)
Lemma export_counterexample :
  same_snapshot ai_render ai_render
  /\ result_pixel (handleRestore browser online ai_render) 4 4 = Some red_pixel
  /\ result_pixel (handleRestore browser offline ai_render) 4 4
     = Some Analyzer.white
  /\ handleRestore browser online ai_render
     <> handleRestore browser offline ai_render.
Proof.
  assert (H1 : result_pixel (handleRestore browser online ai_render) 4 4
               = Some red_pixel) by (vm_compute; reflexivity).
  assert (H2 : result_pixel (handleRestore browser offline ai_render) 4 4
               = Some Analyzer.white) by (vm_compute; reflexivity).
  split; [repeat split|]. split; [exact H1|]. split; [exact H2|].
  intros E. rewrite E, H2 in H1. discriminate H1.
Qed.

Lemma export_deterministic_witness :
  same_snapshot plain_render plain_render
  /\ has_prompted_ai plain_render = false
  /\ handleRestore browser online plain_render
     = handleRestore browser offline plain_render.
Proof.
  assert (Hs : same_snapshot plain_render plain_render) by (repeat split).
  split; [exact Hs|]. split; [reflexivity|].
  exact (export_deterministic browser online offline plain_render plain_render
           Hs (or_introl eq_refl)).
Defined.


End RestoreFacts.

(* ===================================================================== *)
(** ** More on colours and the analysis *)

Module ColorFacts.
Import Color Analyzer Contrast.

(** X1: the two conversions are inverse to each other on colours:
    [hexToRgb] reads a string written by [rgbToHex] back as the channels
    clamped to [0, 255], and a colour read by [hexToRgb] from any accepted
    spelling (upper or lower case, with or without [#]) is written by
    [rgbToHex] as a string that reads back as the same colour. *)
Theorem hex_round_trip (r0 g0 b0 : Z) (hex : string) (c : rgb) :
  hexToRgb (rgbToHex r0 g0 b0)
  = Some (mkRgb (Z.min 255 (Z.max 0 r0)) (Z.min 255 (Z.max 0 g0))
                (Z.min 255 (Z.max 0 b0)))
  /\ (hexToRgb hex = Some c -> hexToRgb (rgbToHex (r c) (g c) (b c)) = Some c).
Proof.
  split; [apply AnalyzerFacts.hexToRgb_rgbToHex|].
  intros H. apply AnalyzerFacts.hexToRgb_channels in H. unfold channel in H.
  rewrite AnalyzerFacts.hexToRgb_rgbToHex. destruct c as [cr cg cb].
  cbn [r g b] in *. f_equal. f_equal; lia.
Qed.

(** X2: a string [hexToRgb] accepts has six characters, or seven with a
    leading [#], and every channel it yields lies in [0, 255]. *)
Theorem hexToRgb_accepts (hex : string) (c : rgb) :
  hexToRgb hex = Some c ->
  (String.length hex = 6%nat \/ String.length hex = 7%nat)
  /\ channel (r c) /\ channel (g c) /\ channel (b c).
Proof.
  unfold hexToRgb. intros H.
  set (body := match hex with String "#"%char rest => rest | _ => hex end) in H.
  assert (Hlen : String.length hex = String.length body
                 \/ String.length hex = S (String.length body)).
  { subst body. destruct hex as [|a rest]; [now left|].
    destruct (Ascii.eqb_spec a "#"%char) as [->|Hne]; [now right|].
    left. destruct a as [[] [] [] [] [] [] [] []]; try reflexivity.
    now contradiction Hne. }
  clearbody body.
  destruct body as [|c1 [|c2 [|c3 [|c4 [|c5 [|c6 [|c7 rest]]]]]]]; try discriminate.
  destruct (hex_pair c1 c2) as [v1|] eqn:E1; [|discriminate].
  destruct (hex_pair c3 c4) as [v2|] eqn:E2; [|discriminate].
  destruct (hex_pair c5 c6) as [v3|] eqn:E3; [|discriminate].
  injection H as <-. cbn [r g b String.length] in *.
  split; [destruct Hlen as [->| ->]; [now left | now right]|].
  repeat split; eapply AnalyzerFacts.hex_pair_range; eassumption.
Qed.

Lemma hexToRgb_accepts_witness :
  hexToRgb "#1A2b3C" = Some (mkRgb 26 43 60)
  /\ channel 26 /\ channel 43 /\ channel 60.
Proof.
  split; [reflexivity|].
  exact (proj2 (hexToRgb_accepts "#1A2b3C" (mkRgb 26 43 60) eq_refl)).
Defined.

Lemma luminance_nonneg (r0 g0 b0 : Z) :
  channel r0 -> channel g0 -> channel b0 -> (0 <= getLuminance r0 g0 b0)%Q.
Proof.
  intros Hr Hg Hb. apply AnalyzerFacts.channel_Q in Hr, Hg, Hb.
  assert (Hmul : forall c v : Q, (0 <= c)%Q -> (0 <= v)%Q ->
                   (0 <= Double.mul (Double.fl c) v)%Q).
  { intros c v Hc Hv. apply DoubleFacts.fl_nonneg, Qmult_le_0_compat; [|exact Hv].
    now apply DoubleFacts.fl_nonneg. }
  assert (Hadd : forall u v : Q, (0 <= u)%Q -> (0 <= v)%Q -> (0 <= Double.add u v)%Q).
  { intros u v Hu Hv. apply DoubleFacts.fl_nonneg. lra. }
  unfold getLuminance. apply DoubleFacts.fl_nonneg.
  apply Qle_shift_div_l; [reflexivity|]. rewrite Qmult_0_l.
  apply Hadd; [apply Hadd|]; apply Hmul; try lra; intro C; discriminate C.
Qed.

(** X3: for channels in [0, 255] the luminance lies in [0, 1]. *)
Theorem luminance_range (r0 g0 b0 : Z) :
  channel r0 -> channel g0 -> channel b0 ->
  (0 <= getLuminance r0 g0 b0 <= 1)%Q.
Proof.
  intros Hr Hg Hb. split; [now apply luminance_nonneg|].
  destruct (Z.le_gt_cases (299 * r0 + 587 * g0 + 114 * b0) 254886) as [Hs|Hs].
  - pose proof (AnalyzerFacts.luminance_close (mkRgb r0 g0 b0) Hr Hg Hb) as [_ Hup].
    pose proof (AnalyzerFacts.exact_luminance_sum (mkRgb r0 g0 b0)) as Hsum.
    cbn [r g b] in Hup, Hsum.
    rewrite Zle_Qle in Hs. change (inject_Z 254886) with 254886%Q in Hs.
    revert Hup Hsum Hs.
    generalize (getLuminance r0 g0 b0) (exact_luminance (mkRgb r0 g0 b0))
               (inject_Z (299 * r0 + 587 * g0 + 114 * b0)).
    intros l e s Hup Hsum Hs. lra.
  - unfold channel in Hr, Hg, Hb.
    assert (E : r0 = 255 /\ g0 = 255 /\ b0 = 255) by lia.
    destruct E as (-> & -> & ->). vm_compute. intro C. discriminate C.
Qed.

Lemma luminance_range_witness :
  channel 200 /\ (0 <= getLuminance 200 30 255 <= 1)%Q.
Proof.
  assert (H1 : channel 200) by (unfold channel; lia).
  assert (H2 : channel 30) by (unfold channel; lia).
  assert (H3 : channel 255) by (unfold channel; lia).
  split; [exact H1|]. exact (luminance_range 200 30 255 H1 H2 H3).
Defined.

End ColorFacts.

Module AnalyzerMore.
Import Color Analyzer Contrast.

Lemma average_of_eight (v : Z) (proj : Z * Z * Z -> Z) (t : Z * Z * Z) :
  proj t = v -> average proj [t; t; t; t; t; t; t; t] = v.
Proof.
  intros E. unfold average. cbn [fold_left length]. rewrite E.
  etransitivity; [|apply (AnalyzerFacts.Math_round_Z v)].
  apply AnalyzerFacts.Math_round_Qeq.
  replace (0 + v + v + v + v + v + v + v + v) with (8 * v) by lia.
  rewrite inject_Z_mult. change (inject_Z (Z.of_nat 8)) with 8%Q.
  change (inject_Z 8) with 8%Q. field.
Qed.

Lemma uniform_canvas_solid (cw ch : Z) (c : RGBA) : solid (uniform_canvas cw ch c) c.
Proof.
  intros px py Hx Hy. cbn [uniform_canvas getImageData canvasWidth canvasHeight] in *.
  destruct (Z.leb_spec 0 px); [|lia]. destruct (Z.ltb_spec px cw); [|lia].
  destruct (Z.leb_spec 0 py); [|lia]. destruct (Z.ltb_spec py ch); [|lia].
  reflexivity.
Qed.

(** A coordinate at least 2 away from the far edge rounds to a pixel of
    the raster. *)
Lemma rounds_inside (q : Q) (size : Z) :
  (0 <= q)%Q -> (q <= inject_Z size - 2)%Q -> 0 <= Math_round q < size.
Proof.
  intros Hlo Hhi. split.
  - apply AnalyzerFacts.Math_round_ge. change (inject_Z 0) with 0%Q. exact Hlo.
  - assert (H : Math_round q <= size - 2).
    { apply AnalyzerFacts.Math_round_le.
      replace (size - 2) with (size + - (2)) by lia. rewrite inject_Z_plus.
      change (inject_Z (- (2))) with (- (2))%Q. lra. }
    lia.
Qed.

(** X4: on a raster whose pixels all have one colour,
    [detectBackgroundColorFast] returns exactly that colour, written in
    hex, for every rectangle inside the raster that is at least 4 wide and
    4 high: all eight sample points then fall on pixels of the raster. *)
Theorem background_of_uniform_raster (ctx : OriginalCanvas) (c : RGBA)
    (x y w h : Q) :
  solid ctx c -> inside_raster ctx x y w h -> (4 <= w)%Q -> (4 <= h)%Q ->
  detectBackgroundColorFast ctx x y w h = rgbToHex (red c) (green c) (blue c).
Proof.
  intros Hsolid (Hx & Hy & Hxw & Hyh) Hw Hh. unfold detectBackgroundColorFast.
  assert (Hpx : forall q, (0 <= q)%Q -> (q <= inject_Z (canvasWidth ctx) - 2)%Q ->
                  0 <= Math_round q < canvasWidth ctx)
    by (intros q; apply rounds_inside).
  assert (Hpy : forall q, (0 <= q)%Q -> (q <= inject_Z (canvasHeight ctx) - 2)%Q ->
                  0 <= Math_round q < canvasHeight ctx)
    by (intros q; apply rounds_inside).
  rewrite (AnalyzerFacts.sample_fold_all ctx (red c, green c, blue c)).
  - cbn [map app]. unfold average_color.
    now rewrite !(average_of_eight _ _ _ eq_refl).
  - intros p Hp. exists c. split; [|reflexivity].
    unfold Qdiv in Hp. change (/ 2)%Q with (1 # 2)%Q in Hp.
    cbn [In] in Hp.
    repeat (destruct Hp as [<-|Hp];
            [cbn [fst snd]; apply Hsolid; [apply Hpx | apply Hpy]; lra|]).
    destruct Hp.
Qed.

Lemma background_of_uniform_raster_witness :
  inside_raster (uniform_canvas 100 100 navy) 10 10 50 40
  /\ detectBackgroundColorFast (uniform_canvas 100 100 navy) 10 10 50 40 = "#000080".
Proof.
  assert (Hin : inside_raster (uniform_canvas 100 100 navy) 10 10 50 40).
  { repeat split; vm_compute; intro C; discriminate C. }
  split; [exact Hin|].
  refine (background_of_uniform_raster (uniform_canvas 100 100 navy) navy
            10 10 50 40 (uniform_canvas_solid 100 100 navy) Hin _ _);
    vm_compute; intro C; discriminate C.
Defined.

(** X5: when the rectangle comes within the 10-pixel margin of all four
    edges of the raster, every sample point of [detectSurroundingColor] lies
    outside it and the result is white. *)
Theorem surrounding_of_full_raster (ctx : OriginalCanvas) (x y w h : Q) :
  (x < 10)%Q -> (y < 10)%Q ->
  (inject_Z (canvasWidth ctx) <= x + w + 10)%Q ->
  (inject_Z (canvasHeight ctx) <= y + h + 10)%Q ->
  detectSurroundingColor (Some ctx) x y w h = "#ffffff".
Proof.
  intros Hx Hy Hw Hh. unfold detectSurroundingColor. cbn [fold_left].
  assert (E1 : Qle_bool 0 (x - 10) = false).
  { destruct (Qle_bool 0 (x - 10)) eqn:E; [|reflexivity].
    apply Qle_bool_iff in E. lra. }
  assert (E2 : Qltb (x + w + 10) (inject_Z (canvasWidth ctx)) = false)
    by now apply Qltb_false.
  assert (E3 : Qle_bool 0 (y - 10) = false).
  { destruct (Qle_bool 0 (y - 10)) eqn:E; [|reflexivity].
    apply Qle_bool_iff in E. lra. }
  assert (E4 : Qltb (y + h + 10) (inject_Z (canvasHeight ctx)) = false)
    by now apply Qltb_false.
  unfold sample_inside. rewrite E1, E2, E3, E4.
  rewrite !andb_false_r. cbn [andb]. reflexivity.
Qed.

Lemma surrounding_of_full_raster_witness :
  detectSurroundingColor (Some (uniform_canvas 100 80 navy)) 0 0 100 80 = "#ffffff".
Proof.
  refine (surrounding_of_full_raster (uniform_canvas 100 80 navy) 0 0 100 80 _ _ _ _);
    vm_compute; first [reflexivity | intro H; discriminate H].
Defined.

Lemma contrast_step_distance (bg : rgb) (m : Z) (c : string) (p : Z * Z * Z) :
  contrast_step bg (m, c) p
  = if m <? distance bg p then (distance bg p, sample_hex p) else (m, c).
Proof. destruct p as [[r0 g0] b0]. reflexivity. Qed.

Lemma contrast_fold_max (bg : rgb) (l : list (Z * Z * Z)) :
  forall (m : Z) (c : string),
    let out := fold_left (contrast_step bg) l (m, c) in
    (forall q, In q l -> distance bg q <= fst out)
    /\ m <= fst out
    /\ ((fst out = m /\ snd out = c)
        \/ exists p, In p l /\ distance bg p = fst out /\ snd out = sample_hex p).
Proof.
  induction l as [|p l IH]; intros m c.
  - cbn. repeat split; [intros q [] | lia | now left].
  - cbn [fold_left]. rewrite contrast_step_distance.
    destruct (Z.ltb_spec m (distance bg p)) as [Hlt|Hge].
    + destruct (IH (distance bg p) (sample_hex p)) as (Hall & Hle & Hbest).
      cbv zeta. split; [|split].
      * intros q [<-|Hq]; [exact Hle | now apply Hall].
      * lia.
      * right. destruct Hbest as [[E1 E2]|(p' & Hin & E1 & E2)].
        -- exists p. split; [now left|]. now split.
        -- exists p'. split; [now right|]. now split.
    + destruct (IH m c) as (Hall & Hle & Hbest).
      cbv zeta. split; [|split].
      * intros q [<-|Hq]; [lia | now apply Hall].
      * exact Hle.
      * destruct Hbest as [H|(p' & Hin & E1 & E2)]; [now left|].
        right. exists p'. split; [now right|]. now split.
Qed.

(** X6: the colour [detectTextColorFast] returns is the black-or-white
    fallback when every sample is closer than 100 to the background, and
    otherwise the hex of a sample whose distance is at least 100 and at
    least that of every other sample. *)
Theorem text_color_is_best_sample (M : MathLib) (ctx : OriginalCanvas)
    (x y w h : Q) (bgColor : string) (bg : rgb) :
  hexToRgb bgColor = Some bg ->
  let samples := circle_samples M ctx x y w h in
  let result := detectTextColorFast M ctx x y w h bgColor in
  ((forall p, In p samples -> distance bg p < 100) /\ result = fallback bg)
  \/ (exists p, In p samples /\ 100 <= distance bg p
                /\ (forall q, In q samples -> distance bg q <= distance bg p)
                /\ result = sample_hex p).
Proof.
  intros Hbg samples result. subst result. unfold detectTextColorFast, fallback.
  rewrite Hbg. fold (circle_samples M ctx x y w h). fold samples.
  destruct (contrast_fold_max bg samples 0 "#000000") as (Hall & Hle & Hbest).
  destruct (fold_left (contrast_step bg) samples (0, "#000000")) as [m c].
  cbn [fst snd] in *.
  destruct (Z.ltb_spec m 100) as [Hlt|Hge].
  - left. split; [|reflexivity]. intros p Hp. specialize (Hall p Hp). lia.
  - right. destruct Hbest as [[E _]|(p & Hin & E1 & E2)]; [lia|].
    exists p. split; [exact Hin|]. split; [lia|]. split; [|exact E2].
    intros q Hq. rewrite E1. now apply Hall.
Qed.

Lemma text_color_is_best_sample_witness :
  hexToRgb "#ffffff" = Some (mkRgb 255 255 255)
  /\ detectTextColorFast coarse_math (uniform_canvas 400 400 navy)
       190 190 20 20 "#ffffff" = "#000080".
Proof.
  split; [reflexivity|].
  destruct (text_color_is_best_sample coarse_math (uniform_canvas 400 400 navy)
              190 190 20 20 "#ffffff" (mkRgb 255 255 255) eq_refl)
    as [[_ E]|(p & _ & _ & _ & E)].
  - reflexivity.
  - reflexivity.
Defined.

Lemma background_parses (ctx : OriginalCanvas) (x y w h : Q) :
  hexToRgb (detectBackgroundColorFast ctx x y w h) <> None.
Proof.
  unfold detectBackgroundColorFast.
  destruct (fold_left (sample ctx) _ []) as [|t l]; [discriminate|].
  unfold average_color. now rewrite AnalyzerFacts.hexToRgb_rgbToHex.
Qed.

Lemma contrast_fold_parses (bg : rgb) (l : list (Z * Z * Z)) :
  forall (m : Z) (c : string),
    hexToRgb c <> None ->
    hexToRgb (snd (fold_left (contrast_step bg) l (m, c))) <> None.
Proof.
  induction l as [|p l IH]; intros m c H; [exact H|].
  cbn [fold_left]. rewrite contrast_step_distance.
  destruct (m <? distance bg p); apply IH; [|exact H].
  unfold sample_hex. now rewrite AnalyzerFacts.hexToRgb_rgbToHex.
Qed.

Lemma text_color_parses (M : MathLib) (ctx : OriginalCanvas) (x y w h : Q)
    (bgColor : string) :
  hexToRgb (detectTextColorFast M ctx x y w h bgColor) <> None.
Proof.
  unfold detectTextColorFast.
  destruct (hexToRgb bgColor) as [bg|]; [|discriminate].
  pose proof (contrast_fold_parses bg
                (fold_left (sample ctx) (circle_points M x y w h) [])
                0 "#000000" ltac:(discriminate)) as H.
  destruct (fold_left (contrast_step bg) _ (0, "#000000")) as [m c].
  cbn [snd] in H.
  destruct (m <? 100); [|exact H].
  destruct (Qgtb _ _); discriminate.
Qed.

(** X7: whatever the canvas and the rectangle, the two colours
    [analyzeTextAreaFast] returns are strings [hexToRgb] can read back. *)
Theorem analysis_colors_parse (M : MathLib) (canvas : option OriginalCanvas)
    (x y w h : Q) :
  hexToRgb (bgColor (analyzeTextAreaFast M canvas x y w h)) <> None
  /\ hexToRgb (textColor (analyzeTextAreaFast M canvas x y w h)) <> None.
Proof.
  unfold analyzeTextAreaFast.
  destruct canvas as [ctx|]; [|split; discriminate].
  destruct (_ || _); [split; discriminate|].
  cbn [bgColor textColor]. split; [apply background_parses | apply text_color_parses].
Qed.

(** X8: on a raster of at least one pixel, a rectangle whose width and
    height round to at least 1 gets a font size in [12, 200] wherever it
    lies, also when it sticks out of the raster or lies outside it. *)
Theorem font_size_clamped_anywhere (M : MathLib) (ctx : OriginalCanvas)
    (x y w h : Q) :
  1 <= canvasWidth ctx -> 1 <= canvasHeight ctx ->
  1 <= Math_round w -> 1 <= Math_round h ->
  12 <= fontSize (analyzeTextAreaFast M (Some ctx) x y w h) <= 200.
Proof.
  intros HW HH Hw Hh. unfold analyzeTextAreaFast.
  set (safeX := Z.max 0 (Z.min (Math_round x) (canvasWidth ctx - 1))).
  set (safeY := Z.max 0 (Z.min (Math_round y) (canvasHeight ctx - 1))).
  destruct (Z.leb_spec (Z.min (Math_round w) (canvasWidth ctx - safeX)) 0);
    [subst safeX; lia|].
  destruct (Z.leb_spec (Z.min (Math_round h) (canvasHeight ctx - safeY)) 0);
    [subst safeY; lia|].
  cbn [orb fontSize]. lia.
Qed.

Lemma font_size_clamped_anywhere_witness :
  12 <= fontSize (analyzeTextAreaFast coarse_math
                    (Some (uniform_canvas 100 100 white)) 500 (-30) 4 3) <= 200.
Proof.
  refine (font_size_clamped_anywhere coarse_math (uniform_canvas 100 100 white)
            500 (-30) 4 3 _ _ _ _); vm_compute; intro H; discriminate H.
Defined.

End AnalyzerMore.

(* ===================================================================== *)
(** ** More on text layout *)

Module TextLayoutMore.
Import TextLayout TextLayoutFacts Lines.

Lemma string_of_list_snoc (cs : list ascii) (z : ascii) :
  string_of_list_ascii (cs ++ [z]) = string_of_list_ascii cs +:+ String z "".
Proof.
  induction cs as [|c cs IH]; [reflexivity|].
  cbn [app string_of_list_ascii]. now rewrite IH, append_cons.
Qed.

Lemma length_list_ascii (s : string) :
  length (list_ascii_of_string s) = String.length s.
Proof. induction s as [|c s IH]; [reflexivity|]. cbn. now rewrite IH. Qed.

Lemma unbroken_fits (measureText : string -> Q) (maxWidth : Q) (line : string) :
  unbroken measureText maxWidth line = true ->
  (2 <= String.length line)%nat -> (measureText line <= maxWidth)%Q.
Proof.
  unfold unbroken. intros Hu Hlen. rewrite <- length_list_ascii in Hlen.
  remember (list_ascii_of_string line) as cs eqn:Ecs.
  destruct (@exists_last _ cs) as [front [z Ez]].
  { intros ->. cbn in Hlen. lia. }
  assert (Eline : line = string_of_list_ascii front +:+ String z "").
  { rewrite <- string_of_list_snoc, <- Ez, Ecs.
    now rewrite string_of_list_ascii_of_string. }
  rewrite Ez, prefixes_fit_snoc, append_nil_l in Hu.
  apply andb_true_iff in Hu as [_ Hu]. apply orb_true_iff in Hu as [Hu|Hu].
  - exfalso. rewrite Ez, length_app in Hlen. cbn [length] in Hlen.
    destruct front as [|c front]; [cbn in Hlen; lia | discriminate].
  - apply Qle_bool_iff in Hu. now rewrite Eline.
Qed.

Section Shape.
Variable measureText : string -> Q.
Variable maxWidth : Q.
Variable text : string.

Local Abbreviation sourced := (fun l : string => l = "" -> In "" (split_newline text)).

Lemma wrap_char_sourced (c : ascii) (allLines : list string) (cur : string) :
  Forall sourced allLines ->
  Forall sourced (fst (wrap_char measureText maxWidth (allLines, cur) c))
  /\ snd (wrap_char measureText maxWidth (allLines, cur) c) <> "".
Proof.
  intros HL. cbn [wrap_char].
  destruct (String.eqb_spec cur "") as [->|Hne].
  - rewrite andb_false_r. cbn [fst snd]. split; [exact HL | discriminate].
  - destruct (Qgtb _ _); cbn [andb negb fst snd].
    + split; [|discriminate]. apply Forall_app; split; [exact HL|].
      constructor; [|constructor]. intros E. contradiction.
    + split; [exact HL|]. intros E.
      pose proof (append_char_nonempty cur c) as H. rewrite E in H. discriminate.
Qed.

Lemma wrap_char_fold_sourced (cs : list ascii) :
  forall (allLines : list string) (cur : string),
    Forall sourced allLines ->
    Forall sourced (fst (fold_left (wrap_char measureText maxWidth) cs (allLines, cur))).
Proof.
  induction cs as [|c cs IH]; intros allLines cur HL; [exact HL|].
  cbn [fold_left]. destruct (wrap_char_sourced c allLines cur HL) as [H1 _].
  destruct (wrap_char measureText maxWidth (allLines, cur) c) as [L' cur'].
  now apply IH.
Qed.

Lemma wrap_paragraph_sourced (allLines : list string) (paragraph : string) :
  In paragraph (split_newline text) ->
  Forall sourced allLines ->
  Forall sourced (wrap_paragraph measureText maxWidth allLines paragraph).
Proof.
  intros Hin HL. unfold wrap_paragraph.
  destruct (String.eqb_spec paragraph "") as [->|Hne].
  - apply Forall_app; split; [exact HL|]. constructor; [|constructor].
    intros _. exact Hin.
  - pose proof (wrap_char_fold_sourced (list_ascii_of_string paragraph)
                  allLines "" HL) as H.
    destruct (fold_left _ _ _) as [L' cur']. cbn [fst] in H.
    destruct (String.eqb_spec cur' "") as [->|Hc]; [exact H|].
    apply Forall_app; split; [exact H|]. constructor; [|constructor].
    intros E. contradiction.
Qed.

Lemma wrap_paragraphs_sourced (ps : list string) :
  forall allLines,
    (forall p, In p ps -> In p (split_newline text)) ->
    Forall sourced allLines ->
    Forall sourced (fold_left (wrap_paragraph measureText maxWidth) ps allLines).
Proof.
  induction ps as [|p ps IH]; intros allLines Hp HL; [exact HL|].
  cbn [fold_left]. apply IH.
  - intros q Hq. apply Hp. now right.
  - apply wrap_paragraph_sourced; [apply Hp; now left | exact HL].
Qed.

(** X11: every line [wrapTextWithNewlines] returns holds no line break,
    measures at most [maxWidth] unless it is a single character, and is
    empty only where the text has an empty paragraph; and at least one line
    is returned. *)
Theorem wrap_lines_well_shaped :
  Forall (well_shaped measureText maxWidth text)
    (wrapTextWithNewlines measureText maxWidth text)
  /\ wrapTextWithNewlines measureText maxWidth text <> [].
Proof.
  split; [|apply wrap_paragraphs_nonempty, split_newline_nonempty].
  assert (Hs : Forall (settled measureText maxWidth)
                 (wrapTextWithNewlines measureText maxWidth text)).
  { apply wrap_paragraphs_settled; [apply split_newline_pieces | constructor]. }
  assert (Hsrc : Forall sourced (wrapTextWithNewlines measureText maxWidth text)).
  { apply wrap_paragraphs_sourced; [auto | constructor]. }
  rewrite List.Forall_forall in *. intros l Hl.
  destruct (Hs l Hl) as [Hu Hn]. split; [exact Hn|]. split.
  - now apply unbroken_fits.
  - now apply Hsrc.
Qed.

End Shape.

Lemma fixed_pitch_monotone : monotone_measure fixed_pitch.
Proof.
  intros p c. unfold fixed_pitch. rewrite <- Zle_Qle.
  assert (E : String.length (p +:+ String c "") = S (String.length p)).
  { induction p as [|a p IH]; [reflexivity|]. rewrite append_cons. cbn. now rewrite IH. }
  rewrite E. lia.
Qed.

Lemma wrap_monotone_lines_fixed_witness :
  wrapTextWithNewlines fixed_pitch 10 (join_newline (split_newline sample_text))
  = split_newline sample_text.
Proof.
  refine (wrap_monotone_lines_fixed fixed_pitch 10 sample_text
            fixed_pitch_monotone _).
  intros l Hl. cbn in Hl.
  destruct Hl as [<-|[<-|[<-|[<-|[]]]]]; vm_compute; intro H; discriminate H.
Defined.

End TextLayoutMore.

(* ===================================================================== *)
(** ** More on the history *)

Module HistoryMore.
Import App History HistoryFacts.

Lemma index_Some_range {A : Type} (arr : list A) (i : Z) (a : A) :
  index arr i = Some a -> 0 <= i < Z.of_nat (length arr).
Proof.
  unfold index. destruct (Z.ltb_spec i 0) as [Hneg|Hpos]; [discriminate|].
  intros Hget.
  assert (Hn : nth_error arr (Z.to_nat i) <> None) by congruence.
  apply nth_error_Some in Hn. lia.
Qed.

(** X12: where the cursor is positive, an undo followed by a redo leaves
    the history and the cursor as they were and installs the snapshot
    stored under the cursor; the render is unchanged exactly when its scene
    was that snapshot. *)
Theorem redo_after_undo (st : state) (snap : HistoryState.t) :
  0 < historyIndex st ->
  index (history st) (historyIndex st) = Some snap ->
  redo (undo st) = set_scene snap st
  /\ (redo (undo st) = st <-> scene_of st = snap).
Proof.
  intros Hpos Hsnap. pose proof (index_Some_range _ _ _ Hsnap) as Hr.
  destruct (index_valid (history st) (historyIndex st - 1)) as [prev Hprev]; [lia|].
  assert (E : redo (undo st) = set_scene snap st).
  { unfold undo. destruct (Z.ltb_spec 0 (historyIndex st)); [|lia].
    rewrite Hprev. unfold redo. cbn [history historyIndex set_history set_scene].
    destruct (Z.ltb_spec (historyIndex st - 1) (Z.of_nat (length (history st)) - 1));
      [|lia].
    replace (historyIndex st - 1 + 1) with (historyIndex st) by lia.
    rewrite Hsnap. destruct st; reflexivity. }
  split; [exact E|]. rewrite E. split.
  - intros H. rewrite <- H. destruct snap; reflexivity.
  - intros <-. destruct st; reflexivity.
Qed.

Lemma redo_after_undo_witness :
  0 < historyIndex three_commits
  /\ redo (undo three_commits) = three_commits.
Proof.
  assert (H : 0 < historyIndex three_commits) by reflexivity.
  split; [exact H|].
  exact (proj2 (proj2 (redo_after_undo three_commits (labelled_scene "C")
                         H eq_refl)) eq_refl).
Defined.

End HistoryMore.

(* ===================================================================== *)
(** ** What a creation commits *)

Module CommitFacts.
Import App History HistoryFacts HistoryMore Pointer.

Lemma index_last {A : Type} (front : list A) (a : A) :
  index (front ++ [a]) (Z.of_nat (length front)) = Some a.
Proof.
  unfold index. destruct (Z.ltb_spec (Z.of_nat (length front)) 0); [lia|].
  rewrite Nat2Z.id, nth_error_app2 by lia. now rewrite Nat.sub_diag.
Qed.




End CommitFacts.

(* ===================================================================== *)
(** ** More on the export *)

Module RestoreMore.
Import Canvas Restore RestoreTerms.



Section Order.
Variable B : Browser.






End Order.


Section DrawingState.
Variable B : Browser.

Lemma restore_of_saved (ctx : Context) (d : DrawState) (rest : list DrawState) :
  saved ctx = d :: rest -> state_of (restore ctx) = (d, rest).
Proof. intros H. unfold restore, state_of. now rewrite H. Qed.

Lemma saved_rotate_degrees (degrees : option Q) (ctx : Context) :
  saved (rotate_degrees B degrees ctx) = saved ctx.
Proof. unfold rotate_degrees. now destruct (truthy_number degrees). Qed.

Lemma saved_draw_lines (sel : SelectionArea.t) (lineHeight : Q) (lines : list string) :
  forall ctx startY,
    saved (fst (fold_left (draw_line B sel lineHeight) lines (ctx, startY)))
    = saved ctx.
Proof.
  induction lines as [|l lines IH]; intros ctx startY; [reflexivity|].
  cbn [fold_left draw_line]. now rewrite IH.
Qed.

Lemma saved_draw_segments (lineHeight : Q) (segs : list TextSegment.t) :
  forall ctx cx cy,
    saved (fst (fst (fold_left (draw_segment B lineHeight) segs (ctx, cx, cy))))
    = saved ctx.
Proof.
  induction segs as [|seg segs IH]; intros ctx cx cy; [reflexivity|].
  cbn [fold_left]. unfold draw_segment at 2.
  destruct (truthy_bool (TextSegment.newLine seg)); now rewrite IH.
Qed.

Lemma restore_text_state (replacements : gmap Z string) (ctx : Context)
    (sel : SelectionArea.t) :
  state_of (restore_text B replacements ctx sel) = state_of ctx.
Proof.
  unfold restore_text. apply restore_of_saved.
  destruct (replacement_of replacements (SelectionArea.id sel) =? "")%string.
  - cbn [fillRect saved]. unfold set_fillStyle. cbn [with_state saved].
    now rewrite saved_rotate_degrees.
  - rewrite saved_draw_lines. cbn [set_textAlign set_textBaseline set_font
      set_fillStyle with_state saved fillRect].
    now rewrite saved_rotate_degrees.
Qed.

Lemma restore_sticker_state (stickerImages : gmap Z ImageData) (ctx : Context)
    (stk : Sticker.t) :
  state_of (restore_sticker B stickerImages ctx stk) = state_of ctx.
Proof.
  unfold restore_sticker. destruct (stickerImages !! Sticker.id stk); [|reflexivity].
  now apply restore_of_saved.
Qed.

Lemma restore_custom_text_state (ctx : Context) (txt : CustomText.t) :
  state_of (restore_custom_text B ctx txt) = state_of ctx.
Proof.
  unfold restore_custom_text.
  pose proof (saved_draw_segments
                (CustomText.fontSize txt * CustomText.scale txt * (12 # 10))
                (CustomText.segments txt)) as H.
  match goal with
  | |- context [fold_left ?f ?l (?c, ?a, ?b)] =>
      specialize (H c a b); destruct (fold_left f l (c, a, b)) as [[c' a'] b']
  end.
  cbn [fst] in H. apply restore_of_saved. now rewrite H.
Qed.

Lemma restore_ai_state (env : Env) (manualKey : string)
    (replacements : gmap Z string) (ctx : Context) (sel : SelectionArea.t) :
  match restore_ai B env manualKey replacements ctx sel with
  | Some ctx' => state_of ctx' = state_of ctx
  | None => True
  end.
Proof.
  unfold restore_ai.
  destruct (replacement_of replacements (SelectionArea.id sel) =? "")%string;
    [reflexivity|].
  destruct (resolve_key env manualKey) as [key|]; [|reflexivity].
  destruct (negb (truthy_string key)); [reflexivity|].
  destruct (payload_of _) as [[mimeType payload]|]; [|reflexivity].
  now destruct (loadImage B mimeType payload).
Qed.

Lemma restore_ai_all_state (env : Env) (manualKey : string)
    (replacements : gmap Z string) (sels : list SelectionArea.t) :
  forall ctx,
    match restore_ai_all B env manualKey replacements sels ctx with
    | Some ctx' => state_of ctx' = state_of ctx
    | None => True
    end.
Proof.
  induction sels as [|sel rest IH]; intros ctx; [reflexivity|].
  cbn [restore_ai_all].
  pose proof (restore_ai_state env manualKey replacements ctx sel) as H.
  destruct (restore_ai B env manualKey replacements ctx sel) as [ctx1|]; [|exact I].
  specialize (IH ctx1).
  destruct (restore_ai_all B env manualKey replacements rest ctx1); [|exact I].
  now rewrite IH.
Qed.

Lemma restore_texts_state (replacements : gmap Z string)
    (sels : list SelectionArea.t) :
  forall ctx,
    state_of (fold_left (restore_text B replacements) sels ctx) = state_of ctx.
Proof.
  induction sels as [|sel rest IH]; intros ctx; [reflexivity|].
  cbn [fold_left]. now rewrite IH, restore_text_state.
Qed.

(** X16: every pass of the export over a text region, a sticker or a custom
    text, and every pass over an ai-image region that returns, leaves the
    drawing state and the stack of saved states as it found them. So each
    ai-image payload is drawn under the state of the fresh canvas: no
    rotation, no scaling, full opacity. *)
Theorem export_restores_drawing_state :
  (forall replacements ctx sel,
     state_of (restore_text B replacements ctx sel) = state_of ctx)
  /\ (forall stickerImages ctx stk,
        state_of (restore_sticker B stickerImages ctx stk) = state_of ctx)
  /\ (forall ctx txt, state_of (restore_custom_text B ctx txt) = state_of ctx)
  /\ (forall env manualKey replacements texts ais original size,
        match restore_ai_all B env manualKey replacements ais
                (fold_left (restore_text B replacements) texts
                   (putImageData original (createCanvas (fst size) (snd size))))
        with
        | Some ctx' => state_of ctx' = (default_state, [])
        | None => True
        end).
Proof.
  split; [exact restore_text_state|]. split; [exact restore_sticker_state|].
  split; [exact restore_custom_text_state|].
  intros env manualKey replacements texts ais original size.
  pose proof (restore_ai_all_state env manualKey replacements ais
                (fold_left (restore_text B replacements) texts
                   (putImageData original (createCanvas (fst size) (snd size)))))
    as H.
  destruct (restore_ai_all B env manualKey replacements ais _); [|exact I].
  now rewrite H, restore_texts_state.
Qed.

End DrawingState.

End RestoreMore.

(* ===================================================================== *)
(** ** Editing the scene *)

Module SceneFacts.
Import App SceneOps.

(** X17: [removeSelection] leaves no region with the removed identity, no
    replacement value and no cached raster under it; every other region
    stays, in order, with its replacement value and raster; stickers and
    custom texts are untouched. *)
Theorem removal_purges (id : Z) (st : state) :
  let st' := removeSelection id st in
  selections st'
  = List.filter (fun s => negb (SelectionArea.id s =? id)) (selections st)
  /\ Forall (fun s => SelectionArea.id s <> id) (selections st')
  /\ replacements st' !! id = None
  /\ replacementImagesRef st' !! id = None
  /\ (forall j, j <> id ->
        replacements st' !! j = replacements st !! j
        /\ replacementImagesRef st' !! j = replacementImagesRef st !! j)
  /\ stickers st' = stickers st /\ customTexts st' = customTexts st
  /\ stickerImagesRef st' = stickerImagesRef st.
Proof.
  intros st'. subst st'. unfold removeSelection.
  cbn [selections replacements replacementImagesRef stickers customTexts
       stickerImagesRef commit_seen set_history set_image_maps set_replacements
       set_selections set_scene HistoryState.selections HistoryState.replacements
       HistoryState.stickers HistoryState.customTexts].
  split; [reflexivity|]. split.
  - apply List.Forall_forall. intros s Hs. apply filter_In in Hs as [_ Hs].
    apply negb_true_iff, Z.eqb_neq in Hs. exact Hs.
  - split; [apply lookup_delete_eq|]. split; [apply lookup_delete_eq|].
    split; [|repeat split].
    intros j Hj. split; apply lookup_delete_ne; congruence.
Qed.

Lemma update_in_unknown (id : Z) (u : SelectionUpdates) (sels : list SelectionArea.t) :
  Forall (fun s => SelectionArea.id s <> id) sels -> update_in id u sels = sels.
Proof.
  induction 1 as [|s sels Hs _ IH]; [reflexivity|].
  cbn [update_in map]. fold (update_in id u sels). rewrite IH.
  now destruct (Z.eqb_spec (SelectionArea.id s) id).
Qed.

Lemma merge_keeps_id (s : SelectionArea.t) (u : SelectionUpdates) :
  u_id u = None -> SelectionArea.id (merge s u) = SelectionArea.id s.
Proof. intros H. cbn. now rewrite H. Qed.

Lemma merge_twice (s : SelectionArea.t) (u : SelectionUpdates) :
  merge (merge s u) u = merge s u.
Proof.
  destruct u as [a1 a2 a3 a4 a5 a6 a7 a8 a9 a10 a11 a12 a13 a14 a15 a16 a17 a18].
  unfold merge. cbn.
  destruct a1, a2, a3, a4, a5, a6; cbn; f_equal;
    match goal with
    | |- over_optional ?a _ = _ => destruct a; reflexivity
    end.
Qed.

(** X18: an update that carries no identity keeps the regions' identities
    and order and touches nothing but the regions; it changes nothing at
    all when no region has the identity; and applying it twice is applying
    it once. *)
Theorem update_is_a_merge (id : Z) (u : SelectionUpdates) (st : state) :
  u_id u = None ->
  let st' := updateSelection id u st in
  map SelectionArea.id (selections st') = map SelectionArea.id (selections st)
  /\ replacements st' = replacements st /\ stickers st' = stickers st
  /\ customTexts st' = customTexts st
  /\ history st' = history st /\ historyIndex st' = historyIndex st
  /\ (Forall (fun s => SelectionArea.id s <> id) (selections st) -> st' = st)
  /\ updateSelection id u st' = st'.
Proof.
  intros Hu st'. subst st'. unfold updateSelection, set_selections.
  cbn [selections replacements stickers customTexts history historyIndex
       set_scene HistoryState.selections HistoryState.replacements
       HistoryState.stickers HistoryState.customTexts].
  split.
  { unfold update_in. rewrite map_map. apply map_ext. intros s.
    destruct (SelectionArea.id s =? id); [now apply merge_keeps_id | reflexivity]. }
  repeat (split; [reflexivity|]). split.
  - intros H. rewrite (update_in_unknown _ _ _ H). destruct st; reflexivity.
  - transitivity
      (set_scene
         (HistoryState.mk (update_in id u (update_in id u (selections st)))
            (replacements st) (stickers st) (customTexts st)) st);
      [reflexivity|].
    f_equal. f_equal. unfold update_in. rewrite map_map. apply map_ext.
    intros s. destruct (Z.eqb_spec (SelectionArea.id s) id) as [E|E].
    + rewrite merge_keeps_id by exact Hu. rewrite E, Z.eqb_refl.
      apply merge_twice.
    + now destruct (Z.eqb_spec (SelectionArea.id s) id).
Qed.

Lemma update_is_a_merge_witness :
  let u := mkUpdates None None None None None None None None None None
             (Some "#123456") None None None None None None None in
  u_id u = None
  /\ map SelectionArea.id (selections (updateSelection 3 u Pointer.full_house))
     = [1; 2; 3; 4; 5; 6; 7; 8; 9; 10].
Proof.
  intros u. split; [reflexivity|].
  exact (proj1 (update_is_a_merge 3 u Pointer.full_house eq_refl)).
Defined.

Lemma substring_prefix_length (n : nat) (v : string) :
  String.length (String.substring 0 n v) = Nat.min n (String.length v).
Proof.
  revert v. induction n as [|n IH]; intros v.
  - destruct v; reflexivity.
  - destruct v as [|c v]; [reflexivity|]. cbn. now rewrite IH.
Qed.

Lemma substring_prefix_all (n : nat) (v : string) :
  (String.length v <= n)%nat -> String.substring 0 n v = v.
Proof.
  revert v. induction n as [|n IH]; intros v H.
  - destruct v; [reflexivity | cbn in H; lia].
  - destruct v as [|c v]; [reflexivity|]. cbn in *. rewrite IH; [reflexivity | lia].
Qed.

(** X19: typing into a region's text box stores the first
    [MAX_CHAR_LIMIT] characters of the input, the whole input when it is no
    longer than that, under the region's identity and leaves every other
    replacement value, the regions and the history as they were. *)
Theorem typing_is_truncated (id : Z) (value : string) (st : state) :
  let st' := type_replacement id value st in
  (exists stored,
     replacements st' !! id = Some stored
     /\ (String.length stored <= MAX_CHAR_LIMIT)%nat
     /\ stored = String.substring 0 MAX_CHAR_LIMIT value
     /\ ((String.length value <= MAX_CHAR_LIMIT)%nat -> stored = value))
  /\ (forall j, j <> id -> replacements st' !! j = replacements st !! j)
  /\ selections st' = selections st
  /\ history st' = history st /\ historyIndex st' = historyIndex st.
Proof.
  intros st'. subst st'. unfold type_replacement, set_replacements.
  cbn [selections replacements history historyIndex set_scene
       HistoryState.selections HistoryState.replacements].
  split; [|split; [|repeat split]].
  - exists (String.substring 0 MAX_CHAR_LIMIT value).
    split; [apply lookup_insert_eq|]. split; [|split; [reflexivity|]].
    + rewrite substring_prefix_length. lia.
    + apply substring_prefix_all.
  - intros j Hj. apply lookup_insert_ne. congruence.
Qed.

End SceneFacts.

(* ===================================================================== *)
(** ** Pointer handling *)

Module SessionFacts.
Import App SceneOps Session.

Lemma Qle_bool_false (a b : Q) : (b < a)%Q -> Qle_bool a b = false.
Proof.
  intros H. destruct (Qle_bool a b) eqn:E; [|reflexivity].
  apply Qle_bool_iff in E. lra.
Qed.

(** X20: a sticker that is flipped horizontally and has a positive scaled
    width is hit by no pointer position, whatever its rotation: its
    half-width is negative and no coordinate lies between the bounds. *)
Theorem flipped_sticker_is_never_hit (M : MathLib) (px py : Q) (stk : Sticker.t) :
  Sticker.flipX stk = true ->
  (0 < Sticker.w stk * Sticker.scale stk)%Q ->
  hit_sticker M px py stk = false
  /\ (forall stickers,
        clickedSticker M px py stickers = Some stk -> False).
Proof.
  intros Hflip Hpos.
  assert (Hmiss : hit_sticker M px py stk = false).
  { unfold hit_sticker. rewrite Hflip.
    set (rx := (_ - _)%Q). set (ry := (_ + _)%Q).
    set (ws := (Sticker.w stk * Sticker.scale stk)%Q) in *.
    clearbody rx ry ws.
    destruct (Qlt_le_dec rx 0) as [Hneg|Hnon].
    - rewrite (Qle_bool_false (- (ws * -1 / 2)) rx); [reflexivity|].
      unfold Qdiv. change (/ 2)%Q with (1 # 2)%Q. lra.
    - rewrite (Qle_bool_false rx (ws * -1 / 2)); [now rewrite andb_false_r|].
      unfold Qdiv. change (/ 2)%Q with (1 # 2)%Q. lra. }
  split; [exact Hmiss|].
  intros stickers H. unfold clickedSticker in H.
  apply find_some in H as [_ H]. congruence.
Qed.

Lemma flipped_sticker_is_never_hit_witness :
  Sticker.flipX flipped_sticker = true
  /\ hit_sticker Analyzer.coarse_math 100 100 flipped_sticker = false.
Proof.
  split; [reflexivity|].
  refine (proj1 (flipped_sticker_is_never_hit Analyzer.coarse_math 100 100
                   flipped_sticker eq_refl _)).
  reflexivity.
Defined.

(** X21: a sticker that is not flipped and has a non-negative scaled size
    is hit at its own position, whatever its rotation. *)
Theorem sticker_is_hit_at_its_position (M : MathLib) (stk : Sticker.t) :
  Sticker.flipX stk = false ->
  (0 <= Sticker.w stk * Sticker.scale stk)%Q ->
  (0 <= Sticker.h stk * Sticker.scale stk)%Q ->
  hit_sticker M (Sticker.x stk) (Sticker.y stk) stk = true.
Proof.
  intros Hflip Hw Hh. unfold hit_sticker. rewrite Hflip.
  set (c := Math_cos M _). set (sn := Math_sin M _).
  set (ws := (Sticker.w stk * Sticker.scale stk)%Q) in *.
  set (hs := (Sticker.h stk * Sticker.scale stk)%Q) in *.
  set (x := Sticker.x stk). set (y := Sticker.y stk).
  clearbody c sn ws hs x y.
  assert (Ex : ((x - x) * c - (y - y) * sn == 0)%Q) by ring.
  assert (Ey : ((x - x) * sn + (y - y) * c == 0)%Q) by ring.
  repeat (apply andb_true_intro; split); apply Qle_bool_iff;
    rewrite ?Ex, ?Ey; unfold Qdiv; change (/ 2)%Q with (1 # 2)%Q; lra.
Qed.

Lemma sticker_is_hit_at_its_position_witness :
  hit_sticker Analyzer.coarse_math 100 100 upright_sticker = true.
Proof.
  refine (sticker_is_hit_at_its_position Analyzer.coarse_math upright_sticker
            eq_refl _ _); vm_compute; intro H; discriminate H.
Defined.

Lemma find_rev_last {A : Type} (f : A -> bool) (front back : list A) (a : A) :
  f a = true -> Forall (fun b => f b = false) back ->
  find f (rev (front ++ a :: back)) = Some a.
Proof.
  intros Ha Hback. rewrite rev_app_distr. cbn [rev]. rewrite <- app_assoc.
  cbn [app].
  assert (Hrev : Forall (fun b => f b = false) (rev back)).
  { apply List.Forall_forall. intros b Hb. apply in_rev in Hb.
    rewrite List.Forall_forall in Hback. now apply Hback. }
  revert Hrev. generalize (rev back) as rb. intros rb Hrb.
  induction Hrb as [|b l Hb _ IH].
  - change (find f (a :: rev front) = Some a). cbn [find]. now rewrite Ha.
  - change (find f (b :: (l ++ [a] ++ rev front)) = Some a). cbn [find].
    now rewrite Hb.
Qed.

(** X22: among the regions under the pointer the one latest in the list
    wins: a region that is hit while no region after it is hit is the one
    [clickedSelection] returns. *)
Theorem last_hit_wins (M : MathLib) (px py : Q)
    (front back : list SelectionArea.t) (sel : SelectionArea.t) :
  HitTest.hit_selection M px py sel = true ->
  Forall (fun s => HitTest.hit_selection M px py s = false) back ->
  HitTest.clickedSelection M px py (front ++ sel :: back) = Some sel.
Proof.
  intros Ha Hback. unfold HitTest.clickedSelection. now apply find_rev_last.
Qed.

Lemma last_hit_wins_witness :
  HitTest.clickedSelection Analyzer.coarse_math 30 30
    ([Pointer.plain_region text 1 0 0 100 100]
     ++ Pointer.plain_region image_replace 2 20 20 40 40
        :: [Pointer.plain_region text 3 200 200 50 50])
  = Some (Pointer.plain_region image_replace 2 20 20 40 40).
Proof.
  refine (last_hit_wins Analyzer.coarse_math 30 30
            [Pointer.plain_region text 1 0 0 100 100]
            [Pointer.plain_region text 3 200 200 50 50]
            (Pointer.plain_region image_replace 2 20 20 40 40) _ _).
  - vm_compute. reflexivity.
  - constructor; [vm_compute; reflexivity | constructor].
Defined.

Lemma last_sticker_wins (M : MathLib) (px py : Q)
    (front back : list Sticker.t) (stk : Sticker.t) :
  hit_sticker M px py stk = true ->
  Forall (fun s => hit_sticker M px py s = false) back ->
  clickedSticker M px py (front ++ stk :: back) = Some stk.
Proof.
  intros Ha Hback. unfold clickedSticker. now apply find_rev_last.
Qed.

(** X23: with the eyedropper off, a pointer-down edits neither the scene
    nor the history and records the pointer position. A sticker under the
    pointer is grabbed whatever texts and regions lie there too; with
    nothing under the pointer the handler starts drawing. *)
Theorem pointer_down_dispatch (B : Canvas.Browser) (s : t) (x y : Q) :
  canvasRef (app s) <> None -> active (eyedropperMode s) = false ->
  let s' := onMouseDown B s x y in
  scene_of (app s') = scene_of (app s)
  /\ history (app s') = history (app s)
  /\ historyIndex (app s') = historyIndex (app s)
  /\ startPos (app s') = (x, y)
  /\ (forall stk,
        clickedSticker (Canvas.math B) x y (stickers (app s)) = Some stk ->
        selectedId s' = Some (Sticker.id stk, on_sticker)
        /\ isMoving (app s') = true /\ isDrawing (app s') = isDrawing (app s))
  /\ (clickedSticker (Canvas.math B) x y (stickers (app s)) = None ->
      clickedText B x y (customTexts (app s)) = None ->
      HitTest.clickedSelection (Canvas.math B) x y (selections (app s)) = None ->
      isDrawing (app s') = true /\ isMoving (app s') = isMoving (app s)
      /\ selectedId s' = selectedId s).
Proof.
  intros Hc Ha s'. subst s'. unfold onMouseDown. rewrite Ha.
  destruct (canvasRef (app s)) as [size|]; [|contradiction].
  destruct (clickedSticker (Canvas.math B) x y (stickers (app s))) as [stk|].
  { do 4 (split; [reflexivity|]). split; [|discriminate].
    intros stk' E. injection E as <-. repeat split. }
  destruct (clickedText B x y (customTexts (app s))) as [txt|].
  { do 4 (split; [reflexivity|]). split; discriminate. }
  destruct (HitTest.clickedSelection (Canvas.math B) x y (selections (app s)))
    as [sel|].
  { do 4 (split; [reflexivity|]). split; discriminate. }
  do 4 (split; [reflexivity|]). split; [discriminate|].
  intros _ _ _. repeat split.
Qed.

Lemma pointer_down_dispatch_witness :
  let s := idle (set_stickers [upright_sticker] Pointer.full_house) in
  canvasRef (app s) <> None
  /\ selectedId (onMouseDown Reference.browser s 100 100) = Some (12, on_sticker).
Proof.
  intros s.
  assert (Hc : canvasRef (app s) <> None) by discriminate.
  split; [exact Hc|].
  refine (proj1 (proj1 (proj2 (proj2 (proj2 (proj2
            (pointer_down_dispatch Reference.browser s 100 100 Hc eq_refl)))))
            upright_sticker _)).
  vm_compute. reflexivity.
Defined.

Lemma move_sticker_id (id : Z) (dx dy : Q) (stk : Sticker.t) :
  Sticker.id (move_sticker id dx dy stk) = Sticker.id stk.
Proof. unfold move_sticker. now destruct (Sticker.id stk =? id). Qed.

Lemma move_sticker_other (id : Z) (dx dy : Q) (stk : Sticker.t) :
  Sticker.id stk <> id -> move_sticker id dx dy stk = stk.
Proof.
  intros H. unfold move_sticker.
  destruct (Z.eqb_spec (Sticker.id stk) id); [contradiction | reflexivity].
Qed.

(** X24: while a sticker is grabbed, a pointer move shifts the stickers of
    that identity by the pointer's displacement since the last event, the
    displacement and the new position each rounded to a double; it keeps
    the order and the identities of the stickers, leaves every other
    sticker as it was, and touches no region, custom text, replacement or
    history entry. The pointer position is recorded for the next move and
    the sticker stays grabbed. *)
Theorem drag_moves_the_grabbed_sticker (s : t) (id : Z) (x1 y1 : Q) :
  canvasRef (app s) <> None -> isMoving (app s) = true ->
  selectedId s = Some (id, on_sticker) ->
  let s1 := onMouseMove s x1 y1 in
  let dx := Double.sub x1 (fst (startPos (app s))) in
  let dy := Double.sub y1 (snd (startPos (app s))) in
  length (stickers (app s1)) = length (stickers (app s))
  /\ (forall n stk, nth_error (stickers (app s)) n = Some stk ->
        exists moved,
          nth_error (stickers (app s1)) n = Some moved
          /\ Sticker.id moved = Sticker.id stk
          /\ (Sticker.id stk <> id -> moved = stk)
          /\ (Sticker.id stk = id ->
              moved = Sticker.mk (Sticker.id stk) (Sticker.src stk)
                        (Double.add (Sticker.x stk) dx)
                        (Double.add (Sticker.y stk) dy)
                        (Sticker.w stk) (Sticker.h stk) (Sticker.rotation stk)
                        (Sticker.flipX stk) (Sticker.opacity stk)
                        (Sticker.scale stk)))
  /\ selections (app s1) = selections (app s)
  /\ customTexts (app s1) = customTexts (app s)
  /\ replacements (app s1) = replacements (app s)
  /\ history (app s1) = history (app s)
  /\ historyIndex (app s1) = historyIndex (app s)
  /\ startPos (app s1) = (x1, y1)
  /\ selectedId s1 = selectedId s /\ isMoving (app s1) = true.
Proof.
  intros Hc Hm Hsel s1 dx dy.
  assert (E1 : s1 = mk (set_startPos (x1, y1)
                          (set_stickers
                             (map (move_sticker id dx dy) (stickers (app s)))
                             (app s)))
                      (selectedId s) (eyedropperMode s)).
  { subst s1 dx dy. unfold onMouseMove. rewrite Hm, Hsel.
    destruct (canvasRef (app s)); [reflexivity | contradiction]. }
  rewrite E1.
  cbn [app selectedId set_startPos set_stickers set_scene stickers selections
       customTexts replacements history historyIndex startPos isMoving
       HistoryState.stickers HistoryState.selections HistoryState.customTexts
       HistoryState.replacements].
  split; [apply length_map|].
  split; [|repeat split; assumption].
  intros n stk Hn. exists (move_sticker id dx dy stk).
  split; [rewrite nth_error_map, Hn; reflexivity|].
  split; [apply move_sticker_id|].
  split; [apply move_sticker_other|].
  intros Hid. unfold move_sticker.
  destruct (Z.eqb_spec (Sticker.id stk) id); [reflexivity | contradiction].
Qed.

Lemma drag_moves_the_grabbed_sticker_witness :
  let s := onMouseDown Reference.browser
             (idle (set_stickers [upright_sticker] Pointer.full_house)) 100 100 in
  selectedId s = Some (12, on_sticker)
  /\ map Sticker.x (stickers (app (onMouseMove s 130 90))) = [130%Q].
Proof.
  intros s.
  assert (Hsel : selectedId s = Some (12, on_sticker)) by (vm_compute; reflexivity).
  split; [exact Hsel|].
  assert (Hc : canvasRef (app s) <> None) by discriminate.
  destruct (proj1 (proj2 (drag_moves_the_grabbed_sticker s 12 130 90
                            Hc eq_refl Hsel)) 0%nat upright_sticker eq_refl)
    as (moved & Hn & _ & _ & Hmoved).
  specialize (Hmoved eq_refl).
  assert (Hl := proj1 (drag_moves_the_grabbed_sticker s 12 130 90 Hc eq_refl Hsel)).
  destruct (stickers (app (onMouseMove s 130 90))) as [|m0 [|m1 rest]];
    try discriminate Hl.
  cbn [nth_error] in Hn. injection Hn as ->. rewrite Hmoved. vm_compute. reflexivity.
Defined.

(** X25: when the eyedropper has a target region and the pixel can be
    read, [pickColor] acts as [updateSelection] with the hex of the pixel
    under the pointer on the targeted colour, a string [hexToRgb] reads
    back, and switches the eyedropper off. *)
Theorem pick_color_is_an_update (s : t) (x y : Q) (ctx : OriginalCanvas)
    (id : Z) (pixel : RGBA) :
  originalCanvasRef (app s) = Some ctx ->
  selectionId (eyedropperMode s) = Some id -> id <> 0 ->
  getImageData ctx (Math_round x) (Math_round y) = Some pixel ->
  let hex := Color.rgbToHex (red pixel) (green pixel) (blue pixel) in
  app (pickColor s x y)
  = updateSelection id (Editor.colour_update (target (eyedropperMode s)) hex) (app s)
  /\ Color.hexToRgb hex <> None
  /\ active (eyedropperMode (pickColor s x y)) = false
  /\ selectedId (pickColor s x y) = selectedId s.
Proof.
  intros Hctx Hid Hnz Hpx hex. unfold pickColor. rewrite Hctx, Hid, Hpx.
  destruct (Z.eqb_spec id 0) as [E|_]; [contradiction|].
  split; [|split; [|split; reflexivity]].
  - cbn [app]. unfold updateSelection, update_in. f_equal. apply map_ext.
    intros sel. destruct (SelectionArea.id sel =? id); [|reflexivity].
    now destruct (target (eyedropperMode s)).
  - subst hex. now rewrite AnalyzerFacts.hexToRgb_rgbToHex.
Qed.

Lemma pick_color_is_an_update_witness :
  let ctx := Analyzer.uniform_canvas 400 300 Analyzer.navy in
  let st := App.mk (selections Pointer.full_house) ∅ [] []
              (history Pointer.full_house) 0 text true "" None (Some (400, 300))
              (Some ctx) false false (0%Q, 0%Q) ∅ ∅ in
  let s := mk st None (mkEyedropper true (Some 3) target_bg) in
  getImageData ctx (Math_round 5) (Math_round 5) = Some Analyzer.navy
  /\ 3 <> 0
  /\ app (pickColor s 5 5)
     = updateSelection 3
         (Editor.colour_update target_bg
            (Color.rgbToHex (red Analyzer.navy) (green Analyzer.navy)
               (blue Analyzer.navy))) st.
Proof.
  intros ctx st s.
  assert (Hpx : getImageData ctx (Math_round 5) (Math_round 5) = Some Analyzer.navy)
    by reflexivity.
  assert (Hnz : 3 <> 0) by discriminate.
  split; [exact Hpx|]. split; [exact Hnz|].
  exact (proj1 (pick_color_is_an_update s 5 5 ctx 3 Analyzer.navy
                  eq_refl eq_refl Hnz Hpx)).
Defined.

(** X27: when a sticker upload finishes, the new sticker sits at the centre
    of the canvas on top of the others, so a pointer-down at the centre
    grabs it; its raster is in the image cache; and the history snapshot the
    upload pushes is the scene of the render in which the upload began,
    which is now the latest snapshot. *)
Theorem uploaded_sticker_is_on_top (B : Canvas.Browser) (s : t) (seen : state)
    (now : Z) (dataUrl : string) (img : ImageData) (cw ch : Z) :
  canvasRef (app s) = Some (cw, ch) -> active (eyedropperMode s) = false ->
  0 <= width img -> 0 <= height img ->
  let s1 := with_app (sticker_loaded seen now dataUrl img) s in
  selectedId (onMouseDown B s1 (inject_Z cw / 2) (inject_Z ch / 2))
  = Some (now, on_sticker)
  /\ stickerImagesRef (app s1) !! now = Some img
  /\ History.index (history (app s1)) (historyIndex (app s1)) = Some (scene_of seen)
  /\ selections (app s1) = selections (app s).
Proof.
  intros Hc Ha Hw Hh s1. subst s1. unfold with_app, sticker_loaded.
  rewrite Hc. cbn [app]. split; [|split; [|split]].
  - unfold onMouseDown.
    cbn [app canvasRef eyedropperMode commit_seen set_history set_stickers
         set_scene set_image_maps stickers HistoryState.stickers].
    rewrite Hc, Ha.
    set (stk := Sticker.mk now dataUrl _ _ _ _ _ _ _ _).
    rewrite (last_sticker_wins (Canvas.math B) _ _ (stickers (app s)) [] stk);
      [reflexivity | | constructor].
    subst stk. unfold hit_sticker.
    cbn [Sticker.x Sticker.y Sticker.w Sticker.h Sticker.rotation Sticker.flipX
         Sticker.scale].
    set (c := Math_cos _ _). set (sn := Math_sin _ _).
    rewrite Zle_Qle in Hw, Hh. change (inject_Z 0) with 0%Q in Hw, Hh.
    set (w := inject_Z (width img)) in *. set (h := inject_Z (height img)) in *.
    set (x := (inject_Z cw / 2)%Q). set (y := (inject_Z ch / 2)%Q).
    clearbody c sn w h x y.
    assert (Ex : ((x - x) * c - (y - y) * sn == 0)%Q) by ring.
    assert (Ey : ((x - x) * sn + (y - y) * c == 0)%Q) by ring.
    repeat (apply andb_true_intro; split); apply Qle_bool_iff;
      rewrite ?Ex, ?Ey; unfold Qdiv; change (/ 2)%Q with (1 # 2)%Q; lra.
  - cbn [commit_seen set_history set_stickers set_scene set_image_maps
         stickerImagesRef]. apply lookup_insert_eq.
  - unfold commit_seen, History.addToHistory.
    cbn [history historyIndex set_history].
    rewrite length_app. cbn [length].
    replace (Z.of_nat (length (History.slice0 (history seen) (historyIndex seen + 1))
                       + 1) - 1)
      with (Z.of_nat (length (History.slice0 (history seen) (historyIndex seen + 1))))
      by lia.
    apply CommitFacts.index_last.
  - reflexivity.
Qed.

Lemma uploaded_sticker_is_on_top_witness :
  let s := idle (set_stickers [upright_sticker] Pointer.full_house) in
  let img := mkImageData 40 20 [] in
  canvasRef (app s) = Some (400, 300)
  /\ selectedId
       (onMouseDown Reference.browser
          (with_app (sticker_loaded (app s) 77 "data:image/png;base64,EE==" img) s)
          (inject_Z 400 / 2) (inject_Z 300 / 2))
     = Some (77, on_sticker).
Proof.
  intros s img. split; [reflexivity|].
  refine (proj1 (uploaded_sticker_is_on_top Reference.browser s (app s) 77
                   "data:image/png;base64,EE==" img 400 300 eq_refl eq_refl _ _));
    vm_compute; intro H; discriminate H.
Defined.

End SessionFacts.

(* ===================================================================== *)
(** ** The bound on the regions over whole runs *)

Module EditorFacts.
Import App History SceneOps Editor.

Local Abbreviation fits sels :=
  (Z.of_nat (length (A := SelectionArea.t) sels) <= MAX_SELECTIONS).

(** A render with the history of a bounded one and a short enough list of
    regions is bounded. *)
Lemma bounded_of (a b : state) :
  bounded a -> fits (selections b) ->
  history b = history a -> historyIndex b = historyIndex a -> bounded b.
Proof.
  intros (_ & Hh & Hc) Hs Eh Ei. unfold bounded, cursor_ok. now rewrite Eh, Ei.
Qed.

(** The goal for a render that keeps the regions and the history of the
    bounded render of [H]. *)
Ltac same_bounds H :=
  eapply bounded_of; [exact H | apply H | reflexivity | reflexivity].

Lemma bounded_commit (seen st : state) :
  bounded seen -> fits (selections st) -> bounded (commit_seen seen st).
Proof.
  intros (Hs & Hh & _) Hfit. unfold bounded, cursor_ok, commit_seen, addToHistory.
  cbn [selections history historyIndex set_history].
  split; [exact Hfit|]. split.
  - apply Forall_app. split; [|repeat constructor; exact Hs].
    unfold slice0. now apply Forall_take.
  - right. rewrite length_app. cbn [length]. lia.
Qed.

Lemma index_In {A : Type} (arr : list A) (i : Z) (a : A) :
  index arr i = Some a -> In a arr.
Proof.
  unfold index. destruct (i <? 0); [discriminate|]. apply nth_error_In.
Qed.

Lemma bounded_jump (st : state) (i : Z) (snap : HistoryState.t) :
  bounded st -> index (history st) i = Some snap ->
  bounded (set_history (history st) i (set_scene snap st)).
Proof.
  intros (_ & Hh & _) Hget. unfold bounded, cursor_ok.
  cbn [selections history historyIndex set_history set_scene].
  split; [|split; [exact Hh|]].
  - rewrite List.Forall_forall in Hh. apply Hh. eapply index_In, Hget.
  - right. eapply HistoryMore.index_Some_range, Hget.
Qed.

Lemma bounded_undo (st : state) : bounded st -> bounded (undo st).
Proof.
  intros H. unfold undo. destruct (0 <? historyIndex st); [|exact H].
  destruct (index (history st) (historyIndex st - 1)) eqn:E; [|exact H].
  now apply bounded_jump.
Qed.

Lemma bounded_redo (st : state) : bounded st -> bounded (redo st).
Proof.
  intros H. unfold redo.
  destruct (historyIndex st <? Z.of_nat (length (history st)) - 1); [|exact H].
  destruct (index (history st) (historyIndex st + 1)) eqn:E; [|exact H].
  now apply bounded_jump.
Qed.

Lemma bounded_empty (st : state) : bounded (reset st).
Proof.
  unfold bounded, cursor_ok, reset. cbn. split; [discriminate|].
  split; [constructor | now left].
Qed.

Lemma fits_filter (f : SelectionArea.t -> bool) (sels : list SelectionArea.t) :
  fits sels -> fits (List.filter f sels).
Proof. intros H. pose proof (List.filter_length_le f sels). lia. Qed.

Lemma bounded_update (id : Z) (u : SelectionUpdates) (st : state) :
  bounded st -> bounded (updateSelection id u st).
Proof.
  intros H. apply (bounded_of st); try reflexivity; [exact H|].
  unfold updateSelection, update_in. cbn [selections set_selections set_scene
    HistoryState.selections]. rewrite length_map. apply H.
Qed.

Lemma bounded_mouse_up (M : MathLib) (st : state) (x y : Q) (now : Z) :
  bounded st -> bounded (Pointer.onMouseUp M st x y now).
Proof.
  intros H. unfold Pointer.onMouseUp.
  destruct (isMoving st); [same_bounds H|].
  destruct (isDrawing st); [|exact H].
  destruct (Pointer.admits st _ _) eqn:Hadm; [|same_bounds H].
  unfold Pointer.admits in Hadm.
  apply andb_prop in Hadm as [_ Hlen]. apply Z.ltb_lt in Hlen.
  match goal with
  | |- bounded (set_pointer_flags _ _ ?inner) =>
      assert (Hin : bounded inner); [|same_bounds Hin]
  end.
  apply (bounded_commit st); [exact H|].
  cbn [selections set_scene HistoryState.selections].
  rewrite length_app. cbn [length]. lia.
Qed.

Lemma bounded_pick (s : Session.t) (x y : Q) :
  bounded (Session.app s) -> bounded (Session.app (Session.pickColor s x y)).
Proof.
  intros H. unfold Session.pickColor.
  destruct (originalCanvasRef (Session.app s)); [|exact H].
  destruct (Session.selectionId (Session.eyedropperMode s)) as [id|]; [|exact H].
  destruct (id =? 0); [exact H|].
  destruct (getImageData _ _ _); [|exact H].
  apply (bounded_of (Session.app s)); try reflexivity; [exact H|].
  cbn [Session.app selections set_selections set_scene HistoryState.selections].
  rewrite length_map. apply H.
Qed.

Lemma bounded_mouse_down (B : Canvas.Browser) (s : Session.t) (x y : Q) :
  bounded (Session.app s) -> bounded (Session.app (Session.onMouseDown B s x y)).
Proof.
  intros H. unfold Session.onMouseDown.
  destruct (canvasRef (Session.app s)); [|exact H].
  destruct (Session.active (Session.eyedropperMode s)); [now apply bounded_pick|].
  destruct (Session.clickedSticker _ _ _ _); [exact H|].
  destruct (Session.clickedText _ _ _ _); [exact H|].
  destruct (HitTest.clickedSelection _ _ _ _); exact H.
Qed.

Lemma bounded_mouse_move (s : Session.t) (x y : Q) :
  bounded (Session.app s) -> bounded (Session.app (Session.onMouseMove s x y)).
Proof.
  intros H. unfold Session.onMouseMove.
  destruct (canvasRef (Session.app s)); [|exact H].
  destruct (isMoving (Session.app s)); [|exact H].
  destruct (Session.selectedId s) as [[id kind]|]; [|exact H].
  destruct kind; [same_bounds H | same_bounds H |].
  eapply bounded_of; [exact H | | reflexivity | reflexivity].
  cbn [Session.app selections set_selections set_scene Session.set_startPos
       HistoryState.selections].
  rewrite length_map. apply H.
Qed.

Lemma bounded_step (B : Canvas.Browser) (m : machine) (e : event) :
  invariant m -> invariant (step B m e).
Proof.
  destruct m as [s past]. intros [Hs Hpast]. unfold invariant in *.
  cbn [fst snd] in *. unfold step. cbn [fst snd].
  split; [|now constructor].
  destruct e; cbn [Session.with_app Session.app Session.onMouseUp].
  - now apply bounded_mouse_down.
  - now apply bounded_mouse_move.
  - now apply bounded_mouse_up.
  - exact Hs.
  - apply bounded_commit; [exact Hs|]. apply fits_filter, Hs.
  - now apply bounded_update.
  - unfold reanalyzeSelection.
    destruct (find _ _) as [sel|]; [|exact Hs].
    destruct (negb _); [exact Hs|]. now apply bounded_update.
  - exact Hs.
  - unfold replacement_loaded. now apply bounded_update.
  - unfold sticker_loaded. destruct (canvasRef (Session.app s)) as [[cw ch]|];
      [|exact Hs].
    apply bounded_commit; [|apply Hs].
    destruct (nth_in_or_default age (Session.app s :: past) (Session.app s))
      as [Hin| ->]; [|exact Hs].
    destruct Hin as [<-|Hin]; [exact Hs|].
    rewrite List.Forall_forall in Hpast. now apply Hpast.
  - apply bounded_commit; [exact Hs | apply Hs].
  - unfold addCustomText. destruct (canvasRef (Session.app s)) as [[cw ch]|];
      [|exact Hs].
    apply bounded_commit; [exact Hs | apply Hs].
  - apply bounded_commit; [exact Hs | apply Hs].
  - now apply bounded_undo.
  - now apply bounded_redo.
  - apply bounded_empty.
  - unfold canvas_resized. destruct (originalCanvasRef (Session.app s)); exact Hs.
Qed.

Lemma bounded_run (B : Canvas.Browser) (events : list event) (m : machine) :
  invariant m -> invariant (run B events m).
Proof.
  revert m. induction events as [|e events IH]; intros m H; [exact H|].
  apply IH. now apply bounded_step.
Qed.

(** X26: for every sequence of the editor's events (pointer events, edits,
    removals, uploads that finish late, undo, redo, loading another
    source), no render of the editor holds more than
    [MAX_SELECTIONS] regions, no history snapshot does, and the history
    cursor stays valid; and the bound is reached, since eleven drags on a
    fresh source leave exactly [MAX_SELECTIONS] regions. *)
Theorem region_bound_holds_over_every_run (B : Canvas.Browser) (events : list event) :
  (let m := run B events start in
   Z.of_nat (length (selections (Session.app (fst m)))) <= MAX_SELECTIONS
   /\ Forall (fun snap => Z.of_nat (length (HistoryState.selections snap))
                          <= MAX_SELECTIONS) (history (Session.app (fst m)))
   /\ cursor_ok (Session.app (fst m))
   /\ Forall bounded (snd m))
  /\ Z.of_nat (length (selections (Session.app (fst (run Reference.browser
                                                        eleven_drags start)))))
     = MAX_SELECTIONS.
Proof.
  split; [|vm_compute; reflexivity].
  intros m. assert (H : invariant m).
  { apply bounded_run. split; [|constructor].
    split; [cbn; discriminate|]. split; [constructor | now left]. }
  destruct H as [(Hs & Hh & Hc) Hpast]. now repeat split.
Qed.

End EditorFacts.
